(** * spark-mcp documentation pipeline: the size-bounded splitter of
      [docs/api/build_split.py] and the block extractor and section splitter
      of [docs/api/split_api_docs.py].

    Python [str] values are modelled by their UTF-8 byte strings (Rocq
    [string]): [len(s.encode("utf-8"))] is [String.length].  White space is
    that of Python, with the characters outside ASCII read as their byte
    sequences.  JSON floats are not modelled. *)

From Stdlib Require Import String Ascii List ZArith Lia Bool Arith.
From Stdlib Require Import DecimalString DecimalNat DecimalZ.
From Stdlib Require DecimalFacts Finite.
Import ListNotations.
Local Open Scope string_scope.
Local Open Scope list_scope.
Local Open Scope nat_scope.

Set Implicit Arguments.
Set Warnings "-register-all,-abstract-large-number".

Infix "+++" := String.append (right associativity, at level 60).

(* ================================================================= *)
(** ** Strings *)

Module Str.

(** [s * n] of Python. *)
Fixpoint repeat (s : string) (n : nat) : string :=
  match n with
  | O => ""
  | S n' => s +++ repeat s n'
  end.

(** [sep.join(l)]. *)
Fixpoint join (sep : string) (l : list string) : string :=
  match l with
  | [] => ""
  | [x] => x
  | x :: rest => x +++ sep +++ join sep rest
  end.

(** [s.startswith(p)]. *)
Fixpoint startswith (p s : string) : bool :=
  match p with
  | EmptyString => true
  | String a p' =>
      match s with
      | EmptyString => false
      | String b s' => Ascii.eqb a b && startswith p' s'
      end
  end.

(** [s[n:]]. *)
Fixpoint drop (n : nat) (s : string) : string :=
  match n with
  | O => s
  | S n' => match s with EmptyString => "" | String _ s' => drop n' s' end
  end.

Fixpoint rev_onto (s acc : string) : string :=
  match s with
  | EmptyString => acc
  | String c s' => rev_onto s' (String c acc)
  end.

Definition rev (s : string) : string := rev_onto s "".

Fixpoint map (f : ascii -> ascii) (s : string) : string :=
  match s with
  | EmptyString => ""
  | String c s' => String (f c) (map f s')
  end.

Fixpoint filter (f : ascii -> bool) (s : string) : string :=
  match s with
  | EmptyString => ""
  | String c s' => if f c then String c (filter f s') else filter f s'
  end.

(** Occurrence of a character. *)
Fixpoint mem (c : ascii) (s : string) : bool :=
  match s with
  | EmptyString => false
  | String x s' => Ascii.eqb c x || mem c s'
  end.

(** [sub in s]. *)
Fixpoint contains (sub s : string) : bool :=
  startswith sub s ||
  match s with
  | EmptyString => false
  | String _ s' => contains sub s'
  end.

Definition is_byte (n : nat) (c : ascii) : bool := Nat.eqb (nat_of_ascii c) n.

Definition lower_char (c : ascii) : ascii :=
  let n := nat_of_ascii c in
  if (65 <=? n) && (n <=? 90) then ascii_of_nat (n + 32) else c.

(** [s.lower()], as far as ASCII letters go: the letters A-Z, and the two
    characters outside ASCII whose lower case holds an ASCII letter, U+0130
    (bytes C4 B0), which becomes [i] followed by U+0307 (bytes CC 87), and
    U+212A (bytes E2 84 AA), which becomes [k].  The lower case of any other
    character outside ASCII lies outside ASCII again, and such a character
    is left as it is: the program compares lower-cased text with ASCII text
    and removes or replaces what is outside [a-z0-9-], nothing else. *)
Fixpoint lower (s : string) : string :=
  match s with
  | EmptyString => ""
  | String c1 r1 =>
      match r1 with
      | String c2 r2 =>
          if is_byte 196 c1 && is_byte 176 c2
          then String "i" (String (ascii_of_nat 204)
                             (String (ascii_of_nat 135) (lower r2)))
          else
            match r2 with
            | String c3 r3 =>
                if is_byte 226 c1 && is_byte 132 c2 && is_byte 170 c3
                then String "k" (lower r3)
                else String (lower_char c1) (lower r1)
            | EmptyString => String (lower_char c1) (lower r1)
            end
      | EmptyString => String (lower_char c1) (lower r1)
      end
  end.

(** White space, the class of [str.strip()] and of [\s] in a [str]
    pattern.  In ASCII: tab, line feed, vertical tab, form feed, carriage
    return, the separators 0x1c-0x1f, and the space. *)
Definition is_space (c : ascii) : bool :=
  let n := nat_of_ascii c in
  ((9 <=? n) && (n <=? 13)) || ((28 <=? n) && (n <=? 32)).

(** Outside ASCII, two bytes: U+0085 (C2 85) and U+00A0 (C2 A0), the
    no-break space. *)
Definition is_space2 (c1 c2 : ascii) : bool :=
  is_byte 194 c1 && (is_byte 133 c2 || is_byte 160 c2).

(** Three bytes: U+1680 (E1 9A 80), U+2000 to U+200A (E2 80 80 to
    E2 80 8A), U+2028 and U+2029 (E2 80 A8, E2 80 A9), U+202F (E2 80 AF),
    U+205F (E2 81 9F) and U+3000 (E3 80 80). *)
Definition is_space3 (c1 c2 c3 : ascii) : bool :=
  let n := nat_of_ascii c3 in
  (is_byte 225 c1 && is_byte 154 c2 && is_byte 128 c3)
  || (is_byte 226 c1 && is_byte 128 c2
      && (((128 <=? n) && (n <=? 138))
          || Nat.eqb n 168 || Nat.eqb n 169 || Nat.eqb n 175))
  || (is_byte 226 c1 && is_byte 129 c2 && is_byte 159 c3)
  || (is_byte 227 c1 && is_byte 128 c2 && is_byte 128 c3).

(** [s.lstrip(chars)] and [s.rstrip(chars)] for a class of ASCII
    characters. *)
Fixpoint lstrip_by (f : ascii -> bool) (s : string) : string :=
  match s with
  | EmptyString => ""
  | String c s' => if f c then lstrip_by f s' else s
  end.

Definition rstrip_by (f : ascii -> bool) (s : string) : string :=
  rev (lstrip_by f (rev s)).

(** [s.lstrip()]: the white-space characters at the start are dropped,
    whatever their number of bytes. *)
Fixpoint lstrip (s : string) : string :=
  match s with
  | EmptyString => ""
  | String c1 r1 =>
      if is_space c1 then lstrip r1
      else
        match r1 with
        | String c2 r2 =>
            if is_space2 c1 c2 then lstrip r2
            else
              match r2 with
              | String c3 r3 => if is_space3 c1 c2 c3 then lstrip r3 else s
              | EmptyString => s
              end
        | EmptyString => s
        end
  end.

(** [s.rstrip()]: [s] is cut where nothing but white space follows. *)
Fixpoint rstrip (s : string) : string :=
  match s with
  | EmptyString => ""
  | String c s' =>
      match lstrip s with
      | EmptyString => ""
      | _ => String c (rstrip s')
      end
  end.

Definition strip (s : string) : string := rstrip (lstrip s).

(** Every white-space character outside ASCII written as one space.  A
    pattern with [\s] is run on the text in this form: what it replaces or
    splits at is a white-space character whatever its bytes, and the other
    characters are as they were. *)
Fixpoint spaces (s : string) : string :=
  match s with
  | EmptyString => ""
  | String c1 r1 =>
      match r1 with
      | String c2 r2 =>
          if is_space2 c1 c2 then String " " (spaces r2)
          else
            match r2 with
            | String c3 r3 =>
                if is_space3 c1 c2 c3 then String " " (spaces r3)
                else String c1 (spaces r1)
            | EmptyString => String c1 (spaces r1)
            end
      | EmptyString => String c1 (spaces r1)
      end
  end.

(** [not s]: Python truthiness of a string. *)
Definition is_empty (s : string) : bool :=
  match s with EmptyString => true | _ => false end.

End Str.

(* ================================================================= *)
(** ** JSON values and [json.dumps(obj, ensure_ascii=False, indent=2)] *)

(** A dict keeps its insertion order, which the serializer follows, so it is
    an association list; [dict_set] is the assignment [d[k] = v]. *)
Inductive json : Type :=
| JNull
| JBool (b : bool)
| JInt (z : Z)
| JStr (s : string)
| JList (l : list json)
| JDict (d : list (string * json)).

Definition dict := list (string * json).

Fixpoint dict_get (k : string) (d : dict) : option json :=
  match d with
  | [] => None
  | (k', v) :: rest => if String.eqb k k' then Some v else dict_get k rest
  end.

(** [d[k] = v]: an existing key keeps its position, a new key goes last. *)
Fixpoint dict_set (k : string) (v : json) (d : dict) : dict :=
  match d with
  | [] => [(k, v)]
  | (k', v') :: rest =>
      if String.eqb k k' then (k', v) :: rest else (k', v') :: dict_set k v rest
  end.

Module Json.

Definition quote : string := String "034" "".
Definition newline : string := String "010" "".

Definition hex_digit (n : nat) : ascii :=
  if n <? 10 then ascii_of_nat (48 + n) else ascii_of_nat (87 + n).

(** A control character, below 0x20: the three high bits are clear. *)
Definition is_control (c : ascii) : bool :=
  match c with
  | Ascii _ _ _ _ _ false false false => true
  | _ => false
  end.

(** [ESCAPE_DCT] of [json.encoder]: the two-character escapes, and
    [\u00xx] for the other control characters. *)
Definition escape_char (c : ascii) : string :=
  if is_control c then
    if Ascii.eqb c "010" then "\n"
    else if Ascii.eqb c "013" then "\r"
    else if Ascii.eqb c "009" then "\t"
    else if Ascii.eqb c "008" then "\b"
    else if Ascii.eqb c "012" then "\f"
    else
      let n := nat_of_ascii c in
      "\u00" +++ String (hex_digit (n / 16)) (String (hex_digit (n mod 16)) "")
  else if Ascii.eqb c "034" then "\" +++ quote
  else if Ascii.eqb c "\" then "\\"
  else String c "".

Fixpoint escape (s : string) : string :=
  match s with
  | EmptyString => ""
  | String c s' => escape_char c +++ escape s'
  end.

(** [encode_basestring]. *)
Definition encode_str (s : string) : string := quote +++ escape s +++ quote.

Definition encode_int (z : Z) : string := NilZero.string_of_int (Z.to_int z).

(** ['\n' + _indent * level] with [_indent = "  "]. *)
Definition newline_indent (level : nat) : string :=
  newline +++ Str.repeat "  " level.

(** [_iterencode] at a given indentation level. *)
Fixpoint encode (level : nat) (v : json) {struct v} : string :=
  match v with
  | JNull => "null"
  | JBool true => "true"
  | JBool false => "false"
  | JInt z => encode_int z
  | JStr s => encode_str s
  | JList l =>
      match l with
      | [] => "[]"
      | _ =>
          "[" +++ newline_indent (S level)
          +++ Str.join ("," +++ newline_indent (S level))
               (List.map (encode (S level)) l)
          +++ newline_indent level +++ "]"
      end
  | JDict d =>
      match d with
      | [] => "{}"
      | _ =>
          "{" +++ newline_indent (S level)
          +++ Str.join ("," +++ newline_indent (S level))
               (List.map (fun kv => encode_str (fst kv) +++ ": "
                                    +++ encode (S level) (snd kv)) d)
          +++ newline_indent level +++ "}"
      end
  end.

Definition dumps (v : json) : string := encode 0 v.

End Json.

(* ================================================================= *)
(** ** The tag pattern [<[^>]+>] and [write_json] *)

Module Tag.

Definition lt_char : ascii := "<"%char.
Definition gt_char : ascii := ">"%char.

(** The text after the first [>] of [s], when there is one. *)
Fixpoint after_gt (s : string) : option string :=
  match s with
  | EmptyString => None
  | String c s' => if Ascii.eqb c gt_char then Some s' else after_gt s'
  end.

(** A match of [<[^>]+>] at the head of [s]: a [<], at least one character
    other than [>], then the first [>]; the result is the text after the
    match. *)
Definition match_tag (s : string) : option string :=
  match s with
  | String c (String c1 s') =>
      if Ascii.eqb c lt_char && negb (Ascii.eqb c1 gt_char)
      then after_gt s' else None
  | _ => None
  end.

Definition is_some {A} (o : option A) : bool :=
  match o with Some _ => true | None => false end.

(** [re.search(r"<[^>]+>", s)] as a truth value: the pattern matches at
    some position. *)
Fixpoint search (s : string) : bool :=
  is_some (match_tag s) ||
  match s with
  | EmptyString => false
  | String _ s' => search s'
  end.

(** [re.sub(r"<[^>]+>", "", s)]: scan from the left; a match is dropped and
    the scan resumes after it, otherwise one character is copied.  The fuel
    bounds the number of scan steps by the length of the text. *)
Fixpoint sub_fuel (fuel : nat) (s : string) : string :=
  match fuel with
  | O => s
  | S fuel' =>
      match match_tag s with
      | Some rest => sub_fuel fuel' rest
      | None =>
          match s with
          | EmptyString => ""
          | String c s' => String c (sub_fuel fuel' s')
          end
      end
  end.

Definition sub (s : string) : string := sub_fuel (String.length s) s.

(** The declarative reading: some substring is [<], then a non-empty run
    without [>], then [>]. *)
Definition has_tag (s : string) : Prop :=
  exists pre mid post,
    s = pre +++ String lt_char (mid +++ String gt_char post)
    /\ mid <> "" /\ Str.mem gt_char mid = false.

End Tag.

(** The text that [write_json(path, obj)] writes to [path]. *)
Definition write_json_text (obj : json) : string :=
  let data := Json.dumps obj in
  if Tag.search data then Tag.sub data else data.


(* ================================================================= *)
(** ** [json.loads] *)

(** The decoder of the standard library, for the texts this program reads
    back: whitespace, strings with the escapes of [json.decoder], integers,
    the three literals, arrays and objects.  Numbers with a fraction or an
    exponent and [\u] escapes above 0x7f are not modelled (the serializer
    above never writes them); the decoder answers [None] there, as it does
    where Python raises [JSONDecodeError]. *)
Module Loads.

Definition is_ws (c : ascii) : bool :=
  Ascii.eqb c " " || Ascii.eqb c "009" || Ascii.eqb c "010" || Ascii.eqb c "013".

Fixpoint skip_ws (s : string) : string :=
  match s with
  | EmptyString => ""
  | String c s' => if is_ws c then skip_ws s' else s
  end.

Definition hex_value (c : ascii) : option nat :=
  let n := nat_of_ascii c in
  if (48 <=? n) && (n <=? 57) then Some (n - 48)
  else if (97 <=? n) && (n <=? 102) then Some (n - 87)
  else if (65 <=? n) && (n <=? 70) then Some (n - 55)
  else None.

Definition hex4 (a b c d : ascii) : option nat :=
  match hex_value a, hex_value b, hex_value c, hex_value d with
  | Some x, Some y, Some z, Some w => Some (((x * 16 + y) * 16 + z) * 16 + w)
  | _, _, _, _ => None
  end.

(** [BACKSLASH] of [json.decoder]. *)
Definition unescape_char (c : ascii) : option ascii :=
  if Ascii.eqb c "034" then Some "034"%char
  else if Ascii.eqb c "\" then Some "\"%char
  else if Ascii.eqb c "/" then Some "/"%char
  else if Ascii.eqb c "b" then Some "008"%char
  else if Ascii.eqb c "f" then Some "012"%char
  else if Ascii.eqb c "n" then Some "010"%char
  else if Ascii.eqb c "r" then Some "013"%char
  else if Ascii.eqb c "t" then Some "009"%char
  else None.

Definition cons_result (c : ascii) (r : option (string * string)) :
  option (string * string) :=
  match r with
  | Some (str, rest) => Some (String c str, rest)
  | None => None
  end.

(** [py_scanstring] in strict mode, after the opening quote: the decoded
    string and the text after the closing quote. *)
Fixpoint scan_string (s : string) : option (string * string) :=
  match s with
  | EmptyString => None
  | String c s' =>
      if Ascii.eqb c "034" then Some ("", s')
      else if Ascii.eqb c "\" then
        match s' with
        | EmptyString => None
        | String e s2 =>
            if Ascii.eqb e "u" then
              match s2 with
              | String h1 (String h2 (String h3 (String h4 s3))) =>
                  match hex4 h1 h2 h3 h4 with
                  | Some code =>
                      if code <? 128
                      then cons_result (ascii_of_nat code) (scan_string s3)
                      else None
                  | None => None
                  end
              | _ => None
              end
            else
              match unescape_char e with
              | Some d => cons_result d (scan_string s2)
              | None => None
              end
        end
      else if Json.is_control c then None
      else cons_result c (scan_string s')
  end.

Definition is_digit (c : ascii) : bool :=
  match c with
  | Ascii _ _ _ false true true false false => true
  | Ascii _ false false true true true false false => true
  | _ => false
  end.

(** The digits at the head of [s], folded into [acc], and the text after
    them. *)
Fixpoint scan_digits (acc : Z) (s : string) : Z * string :=
  match s with
  | EmptyString => (acc, "")
  | String c s' =>
      if is_digit c
      then scan_digits (acc * 10 + Z.of_nat (nat_of_ascii c - 48))%Z s'
      else (acc, s)
  end.

Definition starts_float (s : string) : bool :=
  match s with
  | String c _ => Ascii.eqb c "." || Ascii.eqb c "e" || Ascii.eqb c "E"
  | EmptyString => false
  end.

(** [NUMBER_RE], integer part only: [0] or a digit string without a leading
    zero. *)
Definition scan_nat (s : string) : option (Z * string) :=
  match s with
  | String c s' =>
      if Ascii.eqb c "0" then
        if starts_float s' then None else Some (0%Z, s')
      else if is_digit c then
        let '(z, rest) := scan_digits 0%Z s in
        if starts_float rest then None else Some (z, rest)
      else None
  | EmptyString => None
  end.

Definition scan_int (s : string) : option (Z * string) :=
  match s with
  | String c s' =>
      if Ascii.eqb c "-" then
        match scan_nat s' with
        | Some (z, rest) => Some ((- z)%Z, rest)
        | None => None
        end
      else scan_nat s
  | EmptyString => None
  end.

Definition expect (p s : string) : option string :=
  if Str.startswith p s then Some (Str.drop (String.length p) s) else None.

(** [scan_once], [JSONArray] and [JSONObject].  The fuel bounds the nesting
    of calls; the length of the text is enough.  [parse_elems] reads the
    items of an array after the first [\[] and white space, [parse_members]
    the pairs of an object from the opening quote of a key. *)
Fixpoint parse_value (fuel : nat) (s : string) : option (json * string) :=
  match fuel with
  | O => None
  | S fuel' =>
      match s with
      | EmptyString => None
      | String c s' =>
          if Ascii.eqb c "034" then
            match scan_string s' with
            | Some (str, rest) => Some (JStr str, rest)
            | None => None
            end
          else if Ascii.eqb c "{" then
            match skip_ws s' with
            | String c1 s1 =>
                if Ascii.eqb c1 "}" then Some (JDict [], s1)
                else if Ascii.eqb c1 "034" then
                  match parse_members fuel' s1 with
                  | Some (d, rest) => Some (JDict d, rest)
                  | None => None
                  end
                else None
            | EmptyString => None
            end
          else if Ascii.eqb c "[" then
            match skip_ws s' with
            | String c1 s1 =>
                if Ascii.eqb c1 "]" then Some (JList [], s1)
                else
                  match parse_elems fuel' (String c1 s1) with
                  | Some (l, rest) => Some (JList l, rest)
                  | None => None
                  end
            | EmptyString => None
            end
          else if Ascii.eqb c "n" then
            match expect "null" s with
            | Some rest => Some (JNull, rest)
            | None => None
            end
          else if Ascii.eqb c "t" then
            match expect "true" s with
            | Some rest => Some (JBool true, rest)
            | None => None
            end
          else if Ascii.eqb c "f" then
            match expect "false" s with
            | Some rest => Some (JBool false, rest)
            | None => None
            end
          else
            match scan_int s with
            | Some (z, rest) => Some (JInt z, rest)
            | None => None
            end
      end
  end

with parse_elems (fuel : nat) (s : string) : option (list json * string) :=
  match fuel with
  | O => None
  | S fuel' =>
      match parse_value fuel' s with
      | Some (v, rest) =>
          match skip_ws rest with
          | String c r1 =>
              if Ascii.eqb c "]" then Some ([v], r1)
              else if Ascii.eqb c "," then
                match parse_elems fuel' (skip_ws r1) with
                | Some (l, rest') => Some (v :: l, rest')
                | None => None
                end
              else None
          | EmptyString => None
          end
      | None => None
      end
  end

with parse_members (fuel : nat) (s : string) : option (dict * string) :=
  match fuel with
  | O => None
  | S fuel' =>
      match scan_string s with
      | Some (key, r0) =>
          match skip_ws r0 with
          | String c r1 =>
              if Ascii.eqb c ":" then
                match parse_value fuel' (skip_ws r1) with
                | Some (v, r2) =>
                    match skip_ws r2 with
                    | String c2 r3 =>
                        if Ascii.eqb c2 "}"
                        then Some ([(key, v)], r3)
                        else if Ascii.eqb c2 "," then
                          match skip_ws r3 with
                          | String c3 r4 =>
                              if Ascii.eqb c3 "034" then
                                match parse_members fuel' r4 with
                                | Some (d, rest') => Some ((key, v) :: d, rest')
                                | None => None
                                end
                              else None
                          | EmptyString => None
                          end
                        else None
                    | EmptyString => None
                    end
                | None => None
                end
              else None
          | EmptyString => None
          end
      | None => None
      end
  end.

(** [dict(pairs)]: a repeated key keeps its first position and takes the
    last value.  Applied at every level of the decoded value. *)
Fixpoint dict_of_pairs (pairs : list (string * json)) (acc : dict) : dict :=
  match pairs with
  | [] => acc
  | (k, v) :: rest => dict_of_pairs rest (dict_set k v acc)
  end.

Fixpoint normalize (v : json) : json :=
  match v with
  | JList l => JList (List.map normalize l)
  | JDict d =>
      JDict (dict_of_pairs (List.map (fun kv => (fst kv, normalize (snd kv))) d) [])
  | _ => v
  end.

(** [json.loads(text)]: one value, white space around it, nothing after. *)
Definition loads (text : string) : option json :=
  match parse_value (S (String.length text)) (skip_ws text) with
  | Some (v, rest) =>
      match skip_ws rest with
      | EmptyString => Some (normalize v)
      | _ => None
      end
  | None => None
  end.

End Loads.

(* ================================================================= *)
(** ** Paths and the file store *)

(** A [pathlib.Path]: the directory and the final component. *)
Record path : Type := Path { parent : string; name : string }.

Definition path_str (p : path) : string := parent p +++ "/" +++ name p.

Fixpoint index_of (c : ascii) (s : string) : option nat :=
  match s with
  | EmptyString => None
  | String x s' =>
      if Ascii.eqb c x then Some 0
      else match index_of c s' with Some i => Some (S i) | None => None end
  end.

(** [PurePath.stem]: the name up to its last dot, when that dot is neither
    the first nor the last character. *)
Definition stem (p : path) : string :=
  let r := Str.rev (name p) in
  match index_of "."%char r with
  | Some j =>
      if (0 <? j) && (S j <? String.length r)
      then Str.rev (Str.drop (S j) r) else name p
  | None => name p
  end.

(** Files by path; [write_text] replaces the content of an existing file. *)
Definition files := list (string * string).

Fixpoint fs_read (p : string) (fs : files) : option string :=
  match fs with
  | [] => None
  | (q, text) :: rest => if String.eqb p q then Some text else fs_read p rest
  end.

Fixpoint fs_write (p : string) (text : string) (fs : files) : files :=
  match fs with
  | [] => [(p, text)]
  | (q, old) :: rest =>
      if String.eqb p q then (q, text) :: rest
      else (q, old) :: fs_write p text rest
  end.

(** [write_json(path, obj)] on the file store. *)
Definition write_json (p : string) (obj : json) (fs : files) : files :=
  fs_write p (write_json_text obj) fs.

(* ================================================================= *)
(** ** The size-bounded splitter: [split_if_large] *)

Definition OUT_ROOT : string := "clean".

Definition KB_LIMIT : Z := (120 * 1024)%Z.

(** [len(text.encode("utf-8"))]. *)
Definition byte_len (text : string) : Z := Z.of_nat (String.length text).

Inductive exn : Type :=
| TypeError
| JSONDecodeError
| FileNotFoundError.

Inductive result (A : Type) : Type :=
| Ok (a : A)
| Raise (e : exn).
Arguments Ok {A} a.
Arguments Raise {A} e.

(** Python truthiness of a JSON value. *)
Definition truthy (v : json) : bool :=
  match v with
  | JNull => false
  | JBool b => b
  | JInt z => negb (Z.eqb z 0)
  | JStr s => negb (Str.is_empty s)
  | JList l => match l with [] => false | _ => true end
  | JDict d => match d with [] => false | _ => true end
  end.

(** [base_obj.get("endpoints") or \[\]]. *)
Definition get_endpoints (base_obj : dict) : json :=
  match dict_get "endpoints" base_obj with
  | Some v => if truthy v then v else JList []
  | None => JList []
  end.

(** The characters of a text: a byte that continues a UTF-8 sequence stays
    with the byte that starts it. *)
Definition is_continuation (c : ascii) : bool :=
  match c with
  | Ascii _ _ _ _ _ _ false true => true
  | _ => false
  end.

Fixpoint chars_from (s : string) : string * list string :=
  match s with
  | EmptyString => ("", [])
  | String c s' =>
      let '(pre, l) := chars_from s' in
      if is_continuation c then (String c pre, l) else ("", String c pre :: l)
  end.

Definition chars (s : string) : list string :=
  let '(pre, l) := chars_from s in
  if Str.is_empty pre then l else pre :: l.

(** The items of [for ep in endpoints]: those of a list, the keys of a
    dict, the characters of a string.  Nothing else is iterable: [None]
    stands for the [TypeError]. *)
Definition iter_items (v : json) : option (list json) :=
  match v with
  | JList l => Some l
  | JDict d => Some (List.map (fun kv => JStr (fst kv)) d)
  | JStr s => Some (List.map JStr (chars s))
  | _ => None
  end.

(** [{**base_obj, "endpoints": eps}]. *)
Definition with_endpoints (base_obj : dict) (eps : list json) : dict :=
  dict_set "endpoints" (JList eps) base_obj.

(** [size_of_eps]. *)
Definition size_of_eps (base_obj : dict) (eps : list json) : Z :=
  byte_len (Json.dumps (JDict (with_endpoints base_obj eps))).

(** The greedy scan, lines 275-283: the state is [parts] and [chunk]. *)
Fixpoint split_loop (base_obj : dict) (endpoints : list json)
    (parts : list (list json)) (chunk : list json) : list (list json) :=
  match endpoints with
  | [] => match chunk with [] => parts | _ => parts ++ [chunk] end
  | ep :: rest =>
      let est := size_of_eps base_obj (chunk ++ [ep]) in
      if (KB_LIMIT <? est)%Z && negb (match chunk with [] => true | _ => false end)
      then split_loop base_obj rest (parts ++ [chunk]) [ep]
      else split_loop base_obj rest parts (chunk ++ [ep])
  end.

Definition split_parts (base_obj : dict) (endpoints : list json) :
  list (list json) :=
  split_loop base_obj endpoints [] [].

Definition nat_str (n : nat) : string := NilZero.string_of_uint (Nat.to_uint n).

(** [f"{base_path.stem}.part{idx}.json"]. *)
Definition part_name (base_path : path) (idx : nat) : string :=
  stem base_path +++ ".part" +++ nat_str idx +++ ".json".

Definition resources_path (file_name : string) : string :=
  OUT_ROOT +++ "/resources/" +++ file_name.

(** The first loop over the parts, lines 286-291: each part is written with
    an empty [parts] list; the file names are collected. *)
Fixpoint write_parts (base_path : path) (base_obj : dict) (idx : nat)
    (parts : list (list json)) (filenames : list string) (fs : files) :
    list string * files :=
  match parts with
  | [] => (filenames, fs)
  | eps :: rest =>
      let obj := dict_set "parts" (JList []) (with_endpoints base_obj eps) in
      let pname := part_name base_path idx in
      write_parts base_path base_obj (S idx) rest (filenames ++ [pname])
        (write_json (resources_path pname) (JDict obj) fs)
  end.

(** The second loop, lines 293-297: every part file is read back, given the
    whole list of file names, and written again. *)
Fixpoint update_parts (filenames : list string) (names : list string)
    (fs : files) : result files :=
  match names with
  | [] => Ok fs
  | nm :: rest =>
      let p := resources_path nm in
      match fs_read p fs with
      | None => Raise FileNotFoundError
      | Some text =>
          match Loads.loads text with
          | None => Raise JSONDecodeError
          | Some (JDict obj) =>
              let obj' := dict_set "parts" (JList (List.map JStr filenames)) obj in
              update_parts filenames rest (write_json p (JDict obj') fs)
          | Some _ => Raise TypeError
          end
      end
  end.

(** [split_if_large(base_path, base_obj)]: the returned file names and the
    file store afterwards. *)
Definition split_if_large (base_path : path) (base_obj : dict) (fs : files) :
    result (list string * files) :=
  let endpoints := get_endpoints base_obj in
  if negb (truthy endpoints) then
    Ok ([name base_path], write_json (path_str base_path) (JDict base_obj) fs)
  else if (byte_len (Json.dumps (JDict base_obj)) <=? KB_LIMIT)%Z then
    Ok ([name base_path], write_json (path_str base_path) (JDict base_obj) fs)
  else
    match iter_items endpoints with
    | None => Raise TypeError
    | Some eps =>
        let parts := split_parts base_obj eps in
        let '(filenames, fs1) := write_parts base_path base_obj 1 parts [] fs in
        match update_parts filenames filenames fs1 with
        | Ok fs2 => Ok (filenames, fs2)
        | Raise e => Raise e
        end
    end.

(* ================================================================= *)
(** ** Sample resource documents *)

Module Sample.

Definition users_path : path := Path "clean/resources" "users.json".

(** An endpoint record whose path is padded with [n] letters. *)
Definition endpoint (n : nat) : json :=
  JDict [("method", JStr "GET");
         ("path", JStr ("/users/" +++ Str.repeat "a" n))].

Definition A : json := endpoint 61358.
Definition B : json := endpoint 61359.
Definition C : json := endpoint 0.

(** Three endpoints: the first two measure exactly [KB_LIMIT] together. *)
Definition users_doc : dict :=
  [("title", JStr "Users"); ("endpoints", JList [A; B; C])].

Definition users_names : list string :=
  ["users.part1.json"; "users.part2.json"].

(** One endpoint, over the limit on its own, with a [<] in one string value
    and a [>] in a later one. *)
Definition big_endpoint : json :=
  JDict [("method", JStr "GET");
         ("path", JStr "/users");
         ("filtering", JList [JStr "<id_eq"]);
         ("notes", JStr ("id > 0 " +++ Str.repeat "a" 123000))].

Definition big_doc : dict :=
  [("title", JStr "Users"); ("endpoints", JList [big_endpoint])].

(** An endpoint whose notes carry markup, and the same without it. *)
Definition noted_endpoint (notes : string) : json :=
  JDict [("method", JStr "GET");
         ("path", JStr ("/users/" +++ Str.repeat "a" 61320));
         ("notes", JStr notes)].

Definition T : json := noted_endpoint "<b>x</b>".
Definition T_clean : json := noted_endpoint "x".

Definition tagged_doc : dict :=
  [("title", JStr "Users"); ("endpoints", JList [T; B; C])].

(** One endpoint over the limit without any angle bracket. *)
Definition plain_endpoint : json := endpoint 123000.

Definition plain_doc : dict :=
  [("title", JStr "Users"); ("endpoints", JList [plain_endpoint])].

End Sample.

(** The outcome of a run, observed: the names returned and one file. *)
Definition run_names (r : result (list string * files)) : option (list string) :=
  match r with Ok (names, _) => Some names | Raise _ => None end.

Definition run_file (p : string) (r : result (list string * files)) :
  option string :=
  match r with Ok (_, fs) => fs_read p fs | Raise _ => None end.

Definition text_is (expected : string) (o : option string) : bool :=
  match o with Some t => String.eqb t expected | None => false end.

(* ================================================================= *)
(** ** Equality test on JSON values *)

Fixpoint json_eqb (a b : json) {struct a} : bool :=
  match a, b with
  | JNull, JNull => true
  | JBool x, JBool y => Bool.eqb x y
  | JInt x, JInt y => Z.eqb x y
  | JStr x, JStr y => String.eqb x y
  | JList l1, JList l2 =>
      (fix go (l1 l2 : list json) {struct l1} : bool :=
         match l1, l2 with
         | [], [] => true
         | x :: r1, y :: r2 => json_eqb x y && go r1 r2
         | _, _ => false
         end) l1 l2
  | JDict d1, JDict d2 =>
      (fix go (d1 d2 : list (string * json)) {struct d1} : bool :=
         match d1, d2 with
         | [], [] => true
         | (k1, x) :: r1, (k2, y) :: r2 =>
             String.eqb k1 k2 && json_eqb x y && go r1 r2
         | _, _ => false
         end) d1 d2
  | _, _ => false
  end.

(** The part as first written, with an empty [parts] list, and as written
    again, with the file names. *)
Definition first_obj (base_obj : dict) (eps : list json) : dict :=
  dict_set "parts" (JList []) (with_endpoints base_obj eps).

Definition final_obj (base_obj : dict) (filenames : list string)
    (eps : list json) : dict :=
  dict_set "parts" (JList (List.map JStr filenames)) (with_endpoints base_obj eps).

(** The second loop reads every part file back.  [reread_ok] tells that
    each file, as first written, decodes to the object that was written. *)
Definition reread_part (base_obj : dict) (eps : list json) : bool :=
  match Loads.loads (write_json_text (JDict (first_obj base_obj eps))) with
  | Some v => json_eqb v (JDict (first_obj base_obj eps))
  | None => false
  end.

Definition reread_ok (base_obj : dict) (endpoints : list json) : bool :=
  forallb (reread_part base_obj) (split_parts base_obj endpoints).

(* ================================================================= *)
(** ** The parsed markup: BeautifulSoup trees *)

(** A node of the tree built by the parser: a string, a comment (a string
    that [get_text] leaves out), or a tag with its attributes and
    contents. *)
Inductive node : Type :=
| Text (s : string)
| Comment (s : string)
| Elem (tag : string) (attrs : list (string * string)) (contents : list node).

Module Soup.

(** [getattr(node, "name", None)]. *)
Definition name_of (n : node) : option string :=
  match n with
  | Elem tag _ _ => Some tag
  | _ => None
  end.

Definition has_name (nm : string) (n : node) : bool :=
  match n with
  | Elem tag _ _ => String.eqb tag nm
  | _ => false
  end.

Definition has_name_in (names : list string) (n : node) : bool :=
  existsb (fun nm => has_name nm n) names.

(** [node.children] of a tag. *)
Definition children (n : node) : list node :=
  match n with
  | Elem _ _ contents => contents
  | _ => []
  end.

Fixpoint attr_get (k : string) (attrs : list (string * string)) : option string :=
  match attrs with
  | [] => None
  | (k', v) :: rest => if String.eqb k k' then Some v else attr_get k rest
  end.

(** [node.get(k)] and [node.has_attr(k)]. *)
Definition get (k : string) (n : node) : option string :=
  match n with
  | Elem _ attrs _ => attr_get k attrs
  | _ => None
  end.

Definition has_attr (k : string) (n : node) : bool :=
  match get k n with Some _ => true | None => false end.

(** [node.get(k) or ""]. *)
Definition get_or_empty (k : string) (n : node) : string :=
  match get k n with Some v => v | None => "" end.

(** [node.descendants]: every node below [n], in document order. *)
Fixpoint descendants (n : node) : list node :=
  match n with
  | Elem _ _ contents =>
      (fix go (l : list node) : list node :=
         match l with
         | [] => []
         | c :: r => c :: descendants c ++ go r
         end) contents
  | _ => []
  end.

(** [node.find_all(names)], [node.find(name)] and
    [node.find_all(name, recursive=False)]. *)
Definition find_all (names : list string) (n : node) : list node :=
  List.filter (has_name_in names) (descendants n).

Definition find (nm : string) (n : node) : option node :=
  List.hd_error (find_all [nm] n).

Definition find_all_direct (nm : string) (n : node) : list node :=
  List.filter (has_name nm) (children n).

(** The strings below a node, in document order, comments left out. *)
Fixpoint strings (n : node) : list string :=
  match n with
  | Text s => [s]
  | Comment _ => []
  | Elem _ _ contents =>
      (fix go (l : list node) : list string :=
         match l with
         | [] => []
         | c :: r => strings c ++ go r
         end) contents
  end.

(** [node.get_text(separator, strip)]. *)
Definition get_text (separator : string) (strip : bool) (n : node) : string :=
  let strs :=
    if strip
    then List.filter (fun s => negb (Str.is_empty s)) (List.map Str.strip (strings n))
    else strings n in
  Str.join separator strs.

(** [for s in soup(\["script", "style"\]): s.decompose()]: every script and
    style tag is taken out of the tree. *)
Fixpoint decompose (n : node) : node :=
  match n with
  | Elem tag attrs contents =>
      Elem tag attrs
        ((fix go (l : list node) : list node :=
            match l with
            | [] => []
            | c :: r =>
                if has_name_in ["script"; "style"] c then go r
                else decompose c :: go r
            end) contents)
  | _ => n
  end.

Definition decompose_all (soup : list node) : list node :=
  children (decompose (Elem "[document]" [] soup)).

(** Python truthiness of a node: a tag is true, a string is true when it is
    not empty. *)
Definition truthy (n : node) : bool :=
  match n with
  | Text s | Comment s => negb (Str.is_empty s)
  | Elem _ _ _ => true
  end.

End Soup.

(* ================================================================= *)
(** ** Text helpers of [split_api_docs.py] *)

(** [re.sub(r"\[class\]+", rep, s)] for a class of bytes: every
    maximal run of characters of the class becomes [rep].  Where the class
    holds [\s], the text is passed with its white space outside ASCII
    written as spaces ([Str.spaces]). *)
Fixpoint sub_runs_from (in_run : bool) (cls : ascii -> bool) (rep : string)
    (s : string) : string :=
  match s with
  | EmptyString => ""
  | String c s' =>
      if cls c then
        if in_run then sub_runs_from true cls rep s'
        else rep +++ sub_runs_from true cls rep s'
      else String c (sub_runs_from false cls rep s')
  end.

Definition sub_runs (cls : ascii -> bool) (rep : string) (s : string) : string :=
  sub_runs_from false cls rep s.

Definition is_slug_char (c : ascii) : bool :=
  let n := nat_of_ascii c in
  ((97 <=? n) && (n <=? 122)) || ((48 <=? n) && (n <=? 57)) || Nat.eqb n 45.

(** [_slugify]: the runs of [\[\s/\]+] of the stripped text become [-],
    then the text is lower-cased, what is outside [a-z0-9-] is removed, and
    the runs of [-] become one. *)
Definition _slugify (s : string) : string :=
  if Str.is_empty s then ""
  else
    let s1 := sub_runs (fun c => Str.is_space c || Ascii.eqb c "/") "-"
                (Str.spaces (Str.strip s)) in
    let s2 := Str.lower s1 in
    let s3 := Str.filter is_slug_char s2 in
    sub_runs (fun c => Ascii.eqb c "-") "-" s3.

(** [_collapse_ws]: [re.sub(r"\s+", " ", text.strip())]. *)
Definition _collapse_ws (text : string) : string :=
  sub_runs Str.is_space " " (Str.spaces (Str.strip text)).

(** [slugify] of [build_split.py]. *)
Definition is_alnum_lower (c : ascii) : bool :=
  let n := nat_of_ascii c in
  ((97 <=? n) && (n <=? 122)) || ((48 <=? n) && (n <=? 57)).

Fixpoint replace_amp (s : string) : string :=
  match s with
  | EmptyString => ""
  | String c s' =>
      if Ascii.eqb c "&" then " and " +++ replace_amp s'
      else String c (replace_amp s')
  end.

Definition slugify (name : string) : string :=
  let s := Str.lower (Str.strip name) in
  let s := replace_amp s in
  let s := sub_runs (fun c => negb (is_alnum_lower c)) "-" s in
  Str.rstrip_by (fun c => Ascii.eqb c "-") (Str.lstrip_by (fun c => Ascii.eqb c "-") s).

(** [_node_to_text]. *)
Fixpoint _node_to_text (n : node) : string :=
  match n with
  | Text s | Comment s => _collapse_ws s
  | Elem tag _ contents =>
      let name := Str.lower tag in
      if String.eqb name "a" then
        let text := _collapse_ws (Soup.get_text "" true n) in
        let href := Str.strip (Soup.get_or_empty "href" n) in
        if negb (Str.is_empty href) then
          if negb (Str.is_empty text) && negb (String.eqb text href)
          then _collapse_ws (text +++ " (" +++ href +++ ")")
          else href
        else text
      else if String.eqb name "code" || String.eqb name "kbd"
              || String.eqb name "samp" then
        "`" +++ _collapse_ws (Soup.get_text "" false n) +++ "`"
      else if String.eqb name "br" then Json.newline
      else
        _collapse_ws (Str.join " " (List.map _node_to_text contents))
  end.

(** An inline run: the keys [link] and [code] are left out of the dict when
    they are [None] and [False]. *)
Record run : Type := Run {
  run_text : string;
  run_link : option string;
  run_code : bool
}.

(** [add_text]: nothing is added for an empty text; an empty link is left
    out. *)
Definition add_text (text : string) (link : option string) (code : bool) :
  list run :=
  if Str.is_empty text then []
  else
    [Run text
       (match link with
        | Some l => if Str.is_empty l then None else Some l
        | None => None
        end)
       code].

(** [_inline_runs]: the runs of the children of [n]. *)
Fixpoint _inline_runs (n : node) : list run :=
  match n with
  | Elem _ _ contents =>
      (fix go (l : list node) : list run :=
         match l with
         | [] => []
         | child :: r =>
             (match child with
              | Text s | Comment s => add_text (_collapse_ws s) None false
              | Elem tag _ _ =>
                  let name := Str.lower tag in
                  if String.eqb name "a" then
                    let text := _collapse_ws (Soup.get_text "" true child) in
                    let href := Str.strip (Soup.get_or_empty "href" child) in
                    add_text (if Str.is_empty text then href else text)
                      (if Str.is_empty href then None else Some href) false
                  else if String.eqb name "code" || String.eqb name "kbd"
                          || String.eqb name "samp" then
                    add_text (_collapse_ws (Soup.get_text "" false child)) None true
                  else if String.eqb name "br" then
                    add_text Json.newline None false
                  else _inline_runs child
              end) ++ go r
         end) contents
  | _ => []
  end.

(* ================================================================= *)
(** ** The block extractor: [html_to_blocks] *)

Record sub_item : Type := SubItem {
  sub_text : string;
  sub_runs_of : list run
}.

(** A nested list kept in [children]. *)
Record child_list : Type := ChildList {
  child_style : string;
  child_start : option Z;
  child_items : list sub_item
}.

Record list_item : Type := ListItem {
  item_text : string;
  item_runs : list run;
  item_children : option (list child_list)
}.

(** The blocks, by their [type] key. *)
Inductive block_body : Type :=
| Heading (level : nat) (text slug id : string)
| Paragraph (text : string) (runs : list run)
| Callout (variant text : string) (runs : list run)
| BList (style : string) (start : option Z) (items : list list_item)
| Code (text : string) (lang : option string)
| Blockquote (text : string)
| Table (header : list string) (rows : list (list string)) (align : list string)
| Separator.

Record block : Type := Block {
  body : block_body;
  block_id : string;
  order : nat
}.

(** [block.get("type", "block")]. *)
Definition type_of (b : block_body) : string :=
  match b with
  | Heading _ _ _ _ => "heading"
  | Paragraph _ _ => "paragraph"
  | Callout _ _ _ => "callout"
  | BList _ _ _ => "list"
  | Code _ _ => "code"
  | Blockquote _ => "blockquote"
  | Table _ _ _ => "table"
  | Separator => "separator"
  end.

(** [push_block]: the state is the list [blocks] and the counter
    [order]. *)
Definition base_id (b : block_body) (order : nat) : string :=
  match b with
  | Heading level text _ _ => "h" +++ nat_str level +++ "-" +++ _slugify text
  | _ => type_of b +++ "-" +++ nat_str order
  end.

Definition push_block (b : block_body) (st : list block * nat) :
  list block * nat :=
  let '(blocks, order) := st in
  (blocks ++ [Block b (base_id b order) order], S order).

(** The prefixes of the callout detection, in the order they are tried. *)
Definition callout_prefixes : list (string * string) :=
  [("note:", "note"); ("note :", "note"); ("warning:", "warning");
   ("tip:", "tip"); ("caution:", "caution")].

(** [runs\[0\]\["text"\] = runs\[0\]\["text"\]\[len(prefix):\].lstrip()], when
    the first run starts with the prefix. *)
Definition strip_first_run (prefix : string) (runs : list run) : list run :=
  match runs with
  | r :: rest =>
      if Str.startswith prefix (Str.lower (run_text r))
      then Run (Str.lstrip (Str.drop (String.length prefix) (run_text r)))
             (run_link r) (run_code r) :: rest
      else runs
  | [] => []
  end.

(** The loop over the prefixes, lines 216-223: the variant, text and runs
    at the first prefix that matches. *)
Fixpoint detect_callout (prefixes : list (string * string)) (text : string)
    (runs : list run) : option string * string * list run :=
  match prefixes with
  | [] => (None, text, runs)
  | (prefix, variant) :: rest =>
      if Str.startswith prefix (Str.lower text)
      then (Some variant,
            Str.lstrip (Str.drop (String.length prefix) text),
            strip_first_run prefix runs)
      else detect_callout rest text runs
  end.

(** [int(s)] of Python: white space around, a sign, digits with single
    underscores between them.  The digits are the ASCII ones; the decimal
    digits of other scripts, which [int] reads too, are not modelled. *)
Fixpoint int_digits (acc : Z) (after_digit : bool) (s : string) : option Z :=
  match s with
  | EmptyString => if after_digit then Some acc else None
  | String c s' =>
      if Loads.is_digit c
      then int_digits (acc * 10 + Z.of_nat (nat_of_ascii c - 48))%Z true s'
      else if Ascii.eqb c "_" && after_digit then
        match s' with
        | String c' _ => if Loads.is_digit c' then int_digits acc false s' else None
        | EmptyString => None
        end
      else None
  end.

Definition py_int (s : string) : option Z :=
  match Str.strip s with
  | String c r =>
      if Ascii.eqb c "-" then option_map Z.opp (int_digits 0%Z false r)
      else if Ascii.eqb c "+" then int_digits 0%Z false r
      else int_digits 0%Z false (String c r)
  | EmptyString => None
  end.

(** [start]: the [start] attribute of an [ol], when it reads as an
    integer. *)
Definition list_start (name : string) (el : node) : option Z :=
  if String.eqb name "ol" && Soup.has_attr "start" el
  then py_int (Soup.get_or_empty "start" el)
  else None.

Definition list_style (name : string) : string :=
  if String.eqb name "ul" then "unordered" else "ordered".

Definition is_list_node (n : node) : bool := Soup.has_name_in ["ul"; "ol"] n.

Fixpoint remove_nth (i : nat) (l : list node) : list node :=
  match l, i with
  | [], _ => []
  | _ :: r, O => r
  | x :: r, S i' => x :: remove_nth i' r
  end.

(** [for sn in sub_li.children: ... sub_container.append(sn)], lines
    265-269.  [children] iterates over the live contents of the tag by
    position, and [append] moves the node out of the tag it is in: the
    state is the contents of [sub_li], the position of the iterator and the
    contents of the container. *)
Fixpoint move_children (fuel : nat) (contents : list node) (pos : nat)
    (container : list node) : list node * list node :=
  match fuel with
  | O => (contents, container)
  | S fuel' =>
      match nth_error contents pos with
      | None => (contents, container)
      | Some sn =>
          if is_list_node sn
          then move_children fuel' contents (S pos) container
          else move_children fuel' (remove_nth pos contents) (S pos)
                 (container ++ [sn])
      end
  end.

(** The contents of [sub_container] after the loop. *)
Definition sub_container (sub_li : node) : node :=
  let contents := Soup.children sub_li in
  Elem "span" [] (snd (move_children (List.length contents) contents 0 [])).

(** The block of one nested list, lines 255-273. *)
Definition child_block (child : node) : child_list :=
  let name := Str.lower (match Soup.name_of child with Some t => t | None => "" end) in
  ChildList (list_style name) (list_start name child)
    (List.map
       (fun sub_li =>
          let c := sub_container sub_li in
          SubItem (_node_to_text c) (_inline_runs c))
       (Soup.find_all_direct "li" child)).

(** One item of a top-level list, lines 238-274: the nested lists go to
    [children], the other nodes to the container of the item. *)
Definition list_item_of (li : node) : list_item :=
  let children_lists := List.filter is_list_node (Soup.children li) in
  let li_text_nodes := List.filter (fun ch => negb (is_list_node ch)) (Soup.children li) in
  let li_container := Elem "span" [] li_text_nodes in
  let child_blocks := List.map child_block children_lists in
  ListItem (_node_to_text li_container) (_inline_runs li_container)
    (match child_blocks with [] => None | _ => Some child_blocks end).

Fixpoint take_while (f : ascii -> bool) (s : string) : string :=
  match s with
  | EmptyString => ""
  | String c s' => if f c then String c (take_while f s') else ""
  end.

Definition is_lang_char (c : ascii) : bool :=
  is_alnum_lower c || Ascii.eqb c "_" || Ascii.eqb c "+" || Ascii.eqb c "-".

(** [re.match(r"language-(\[a-z0-9_+-\]+)", c)], the group. *)
Definition match_language (c : string) : option string :=
  if Str.startswith "language-" c then
    let g := take_while is_lang_char (Str.drop 9 c) in
    if Str.is_empty g then None else Some g
  else None.

Fixpoint split_ws_from (cur : string) (s : string) : list string :=
  match s with
  | EmptyString => if Str.is_empty cur then [] else [Str.rev cur]
  | String c s' =>
      if Str.is_space c then
        if Str.is_empty cur then split_ws_from "" s'
        else Str.rev cur :: split_ws_from "" s'
      else split_ws_from (String c cur) s'
  end.

(** The values of a [class] attribute: the parser keeps what [\S+] finds
    in it. *)
Definition class_list (n : node) : list string :=
  split_ws_from "" (Str.spaces (Soup.get_or_empty "class" n)).

Fixpoint first_some (A B : Type) (f : A -> option B) (l : list A) : option B :=
  match l with
  | [] => None
  | x :: r => match f x with Some y => Some y | None => first_some f r end
  end.

Definition code_lang (el : node) : option string :=
  match Soup.find "code" el with
  | Some inner_code =>
      if Soup.has_attr "class" inner_code
      then first_some match_language (class_list inner_code)
      else None
  | None => None
  end.

Definition th_align (th : node) : string :=
  let style := Str.lower (Soup.get_or_empty "style" th) in
  if Str.contains "text-align:center" style then "center"
  else if Str.contains "text-align:right" style then "right"
  else "left".

Definition heading_level (name : string) : option nat :=
  if String.eqb name "h2" then Some 2
  else if String.eqb name "h3" then Some 3
  else if String.eqb name "h4" then Some 4
  else if String.eqb name "h5" then Some 5
  else if String.eqb name "h6" then Some 6
  else None.

(** The block that [handle_element] pushes for [el], if any. *)
Definition element_body (el : node) : option block_body :=
  let name := Str.lower (match Soup.name_of el with Some t => t | None => "" end) in
  match heading_level name with
  | Some level =>
      let text := _node_to_text el in
      Some (Heading level text (_slugify text) (_slugify text))
  | None =>
      if String.eqb name "p" then
        let '(callout_variant, text, runs) :=
          detect_callout callout_prefixes (_node_to_text el) (_inline_runs el) in
        match callout_variant with
        | Some variant => Some (Callout variant text runs)
        | None =>
            if Str.is_empty text then None else Some (Paragraph text runs)
        end
      else if String.eqb name "ul" || String.eqb name "ol" then
        Some (BList (list_style name) (list_start name el)
                (List.map list_item_of (Soup.find_all_direct "li" el)))
      else if String.eqb name "pre" then
        Some (Code (Str.rstrip_by (fun c => Ascii.eqb c "010")
                      (Soup.get_text Json.newline false el))
                (code_lang el))
      else if String.eqb name "blockquote" then
        let text := _node_to_text el in
        if Str.is_empty text then None else Some (Blockquote text)
      else if String.eqb name "table" then
        let header :=
          match Soup.find "thead" el with
          | Some thead => List.map _node_to_text (Soup.find_all ["th"] thead)
          | None => []
          end in
        let rows :=
          List.map (fun cells => List.map _node_to_text cells)
            (List.filter (fun cells => match cells with [] => false | _ => true end)
               (List.map (Soup.find_all ["th"; "td"]) (Soup.find_all ["tr"] el))) in
        Some (Table header rows (List.map th_align (Soup.find_all ["th"] el)))
      else if String.eqb name "hr" then Some Separator
      else None
  end.

(** [handle_element]. *)
Definition handle_element (el : node) (st : list block * nat) :
  list block * nat :=
  match element_body el with
  | Some b => push_block b st
  | None => st
  end.

(** The loop over the top-level nodes, lines 321-325. *)
Fixpoint handle_all (nodes : list node) (st : list block * nat) :
  list block * nat :=
  match nodes with
  | [] => st
  | child :: rest =>
      match Soup.name_of child with
      | None => handle_all rest st
      | Some _ => handle_all rest (handle_element child st)
      end
  end.

(** [html_to_blocks], on the parsed fragment. *)
Definition html_to_blocks (soup : list node) : list block :=
  fst (handle_all (Soup.decompose_all soup) ([], 1)).

(* ================================================================= *)
(** ** The section splitter: [extract_sections_from_html] *)

(** A section; the markup of its content, the [html] key, is kept as the
    nodes it is the text of. *)
Record section : Type := Section_ {
  sec_slug : string;
  sec_title : string;
  sec_content : list node
}.

(** Every [h1] below the nodes [l], in document order, each with the
    siblings that follow it. *)
Fixpoint h1_below (n : node) : list (node * list node) :=
  match n with
  | Elem _ _ contents =>
      (fix go (l : list node) : list (node * list node) :=
         match l with
         | [] => []
         | c :: r =>
             (if Soup.has_name "h1" c then [(c, r)] else [])
             ++ h1_below c ++ go r
         end) contents
  | _ => []
  end.

(** [while current and not (current.name == "h1")]: the tags among the
    siblings up to the next [h1]; an empty string ends the walk as the end
    of the siblings does. *)
Fixpoint until_h1 (siblings : list node) : list node :=
  match siblings with
  | [] => []
  | current :: rest =>
      if negb (Soup.truthy current) || Soup.has_name "h1" current then []
      else
        match Soup.name_of current with
        | Some _ => current :: until_h1 rest
        | None => until_h1 rest
        end
  end.

(** The tags before the first top-level [h1], lines 137-141. *)
Fixpoint intro_parts (siblings : list node) : list node :=
  match siblings with
  | [] => []
  | sib :: rest =>
      if Soup.has_name "h1" sib then []
      else
        match Soup.name_of sib with
        | Some _ => sib :: intro_parts rest
        | None => intro_parts rest
        end
  end.

(** [h1.get("id") or _slugify(h1.get_text()) or f"section-{idx+1}"]. *)
Definition section_slug (idx : nat) (h1 : node) : string :=
  let id := Soup.get_or_empty "id" h1 in
  if negb (Str.is_empty id) then id
  else
    let slug := _slugify (Soup.get_text "" false h1) in
    if negb (Str.is_empty slug) then slug
    else "section-" +++ nat_str (idx + 1).

Fixpoint h1_sections (idx : nat) (h1_tags : list (node * list node)) :
  list section :=
  match h1_tags with
  | [] => []
  | (h1, siblings) :: rest =>
      Section_ (section_slug idx h1)
        (Str.strip (Soup.get_text "" false h1))
        (until_h1 siblings)
      :: h1_sections (S idx) rest
  end.

(** [extract_sections_from_html], on the parsed document. *)
Definition extract_sections_from_html (soup : list node) : list section :=
  let document := Elem "[document]" [] soup in
  let root :=
    match Soup.find "body" document with
    | Some body => body
    | None => document
    end in
  let h1_tags := h1_below root in
  let intro :=
    match h1_tags with
    | [] => []
    | _ =>
        match intro_parts (Soup.children root) with
        | [] => []
        | parts => [Section_ "introduction" "Introduction" parts]
        end
    end in
  intro ++ h1_sections 0 h1_tags.

(* ================================================================= *)
(** ** Sample markup *)

Module Markup.

(** [<h2>Setup</h2><p>First.</p><h2>Setup</h2>]. *)
Definition repeated_heading : list node :=
  [Elem "h2" [] [Text "Setup"];
   Elem "p" [] [Text "First."];
   Elem "h2" [] [Text "Setup"]].

(** [<p>Warning: warning: hot surface</p>]. *)
Definition double_warning : node :=
  Elem "p" [] [Text "Warning: warning: hot surface"].

(** The no-break space U+00A0, what [&nbsp;] parses to. *)
Definition nbsp : string := String (ascii_of_nat 194) (String (ascii_of_nat 160) "").

(** [<p>Warning:&nbsp;hot&nbsp;surface</p>] and
    [<p>&nbsp;Warning: hot surface</p>]. *)
Definition nbsp_warning : node :=
  Elem "p" [] [Text ("Warning:" +++ nbsp +++ "hot" +++ nbsp +++ "surface")].

Definition nbsp_before_warning : node :=
  Elem "p" [] [Text (nbsp +++ "Warning: hot surface")].

(** [<p><b>Warning:</b> hot surface</p>]. *)
Definition bold_warning : node :=
  Elem "p" [] [Elem "b" [] [Text "Warning:"]; Text " hot surface"].

(** [<ul><li>Fields<ul><li><code>id</code> the <b>record</b> id
    <ul><li>deep</li></ul></li></ul></li></ul>]. *)
Definition nested_list : list node :=
  [Elem "ul" []
     [Elem "li" []
        [Text "Fields";
         Elem "ul" []
           [Elem "li" []
              [Elem "code" [] [Text "id"];
               Text " the ";
               Elem "b" [] [Text "record"];
               Text " id";
               Elem "ul" [] [Elem "li" [] [Text "deep"]]]]]]].

(** [<h1>GET /contacts/</h1><p>List the contacts.</p>]. *)
Definition contacts_page : list node :=
  [Elem "h1" [] [Text "GET /contacts/"];
   Elem "p" [] [Text "List the contacts."]].

End Markup.

(** What the blocks of a sequence are known to be: a heading has a level
    from 2 to 6. *)
Definition body_ok (b : block_body) : Prop :=
  match b with
  | Heading level _ _ _ => 2 <= level <= 6
  | _ => True
  end.

Definition is_heading (b : block_body) : bool :=
  match b with
  | Heading _ _ _ _ => true
  | _ => false
  end.

Definition heading_key (b : block_body) : option (nat * string) :=
  match b with
  | Heading level text _ _ => Some (level, _slugify text)
  | _ => None
  end.

(** What the scan guarantees of a part: it is a single endpoint, or its
    measured size is within the limit. *)
Definition measured_ok (base : dict) (part : list json) : Prop :=
  2 <= List.length part -> (size_of_eps base part <= KB_LIMIT)%Z.

(** The blocks from position [k] on carry the orders [k], [k+1], ... and
    the identifier computed from the body and the order. *)
Definition numbered (k : nat) (bs : list block) : Prop :=
  Forall2
    (fun i b => order b = i /\ block_id b = base_id (body b) i /\ body_ok (body b))
    (seq k (List.length bs)) bs.

(* ================================================================= *)
(** ** Well-formed JSON values *)

(** A Python dict has each key once: the keys of every dict of a value are
    pairwise different. *)
Fixpoint json_wf (v : json) : Prop :=
  match v with
  | JList l =>
      (fix go (l : list json) : Prop :=
         match l with
         | [] => True
         | x :: r => json_wf x /\ go r
         end) l
  | JDict d =>
      NoDup (List.map fst d)
      /\ (fix go (d : list (string * json)) : Prop :=
            match d with
            | [] => True
            | kv :: r => json_wf (snd kv) /\ go r
            end) d
  | _ => True
  end.

(** The nesting of decoder calls that a value needs. *)
Fixpoint weight (v : json) : nat :=
  match v with
  | JList l =>
      S ((fix go (l : list json) : nat :=
            match l with
            | [] => 0
            | x :: r => S (weight x + go r)
            end) l)
  | JDict d =>
      S ((fix go (d : list (string * json)) : nat :=
            match d with
            | [] => 0
            | kv :: r => S (weight (snd kv) + go r)
            end) d)
  | _ => 1
  end.

(** A text after which a number ends: it does not go on with a digit, a
    fraction or an exponent. *)
Definition ends_number (rest : string) : bool :=
  match rest with
  | EmptyString => true
  | String c _ => negb (Loads.is_digit c) && negb (Loads.starts_float rest)
  end.

(** No part, as first written, has a tag pattern in its serialization. *)
Definition tag_free (base_obj : dict) (endpoints : list json) : bool :=
  forallb
    (fun part => negb (Tag.search (Json.dumps (JDict (first_obj base_obj part)))))
    (split_parts base_obj endpoints).

(** A text that starts with a value: neither white space nor a closing
    bracket comes first. *)
Definition starts_value (s : string) : bool :=
  match s with
  | String c _ => negb (Loads.is_ws c) && negb (Ascii.eqb c "]")
  | EmptyString => false
  end.

Definition list_weight (l : list json) : nat :=
  fold_right (fun x n => S (weight x + n)) 0 l.

Definition dict_weight (d : list (string * json)) : nat :=
  fold_right (fun kv n => S (weight (snd kv) + n)) 0 d.

(** The separator between items at a level, and the text of one member of
    a dict. *)
Definition item_sep (level : nat) : string := "," +++ Json.newline_indent level.

Definition member_text (level : nat) (kv : string * json) : string :=
  Json.encode_str (fst kv) +++ ": " +++ Json.encode level (snd kv).

(** What the decoder is shown to do on the serialization of [v]. *)
Definition decodes (v : json) : Prop :=
  forall level fuel rest,
    weight v <= fuel -> ends_number rest = true ->
    Loads.parse_value fuel (Json.encode level v +++ rest) = Some (v, rest).

(* ================================================================= *)
(** ** Further predicates on the parts of a split *)

(** Every part but the last was closed because the endpoint that opens the
    next part did not fit into it. *)
Fixpoint closed_when_full (base : dict) (parts : list (list json)) : Prop :=
  match parts with
  | [] => True
  | p :: rest =>
      match rest with
      | [] => True
      | q :: _ =>
          match q with
          | ep :: _ => (KB_LIMIT < size_of_eps base (p ++ [ep]))%Z
          | [] => False
          end
      end /\ closed_when_full base rest
  end.

(* ================================================================= *)
(** ** Shapes of normalized text *)

Module Shape.

(** Every character of [s] passes [f]. *)
Fixpoint all (f : ascii -> bool) (s : string) : bool :=
  match s with
  | EmptyString => true
  | String c s' => f c && all f s'
  end.

(** The number of characters of [s] that pass [f]. *)
Fixpoint count (f : ascii -> bool) (s : string) : nat :=
  match s with
  | EmptyString => 0
  | String c s' => (if f c then 1 else 0) + count f s'
  end.

(** [s] does not start with a character of the class. *)
Definition head_ok (cls : ascii -> bool) (s : string) : bool :=
  match s with
  | String c _ => negb (cls c)
  | EmptyString => true
  end.

(** [s] does not end with a character of the class. *)
Fixpoint last_ok (cls : ascii -> bool) (s : string) : bool :=
  match s with
  | EmptyString => true
  | String c s' =>
      match s' with
      | EmptyString => negb (cls c)
      | _ => last_ok cls s'
      end
  end.

(** Every character of the class in [s] is [sep], and no two of them are
    next to each other. *)
Fixpoint single_seps (cls : ascii -> bool) (sep : ascii) (s : string) : bool :=
  match s with
  | EmptyString => true
  | String c s' =>
      (if cls c then Ascii.eqb c sep && head_ok cls s' else true)
      && single_seps cls sep s'
  end.

(** Runs of characters outside the class, with one [sep] between them:
    nothing of the class at either end, and inside only single [sep]s. *)
Definition separated (cls : ascii -> bool) (sep : ascii) (s : string) : bool :=
  head_ok cls s && single_seps cls sep s && last_ok cls s.

End Shape.

(** The number of bytes of the white-space character that [s] starts with,
    and 0 when it starts with another character. *)
Definition space_len (s : string) : nat :=
  match s with
  | String c1 r1 =>
      if Str.is_space c1 then 1
      else
        match r1 with
        | String c2 r2 =>
            if Str.is_space2 c1 c2 then 2
            else
              match r2 with
              | String c3 _ => if Str.is_space3 c1 c2 c3 then 3 else 0
              | EmptyString => 0
              end
        | EmptyString => 0
        end
  | EmptyString => 0
  end.

(** Text with normalized white space: no white space at either end, and
    between words one space.  The white space meant is that of ASCII; that
    a text holds no white-space character outside ASCII is
    [Str.spaces s = s]. *)
Definition ws_normal (s : string) : bool :=
  Shape.separated Str.is_space " " s.

Definition is_hyphen (c : ascii) : bool := Ascii.eqb c "-".

(** The shape of a slug of [slugify]: lower-case letters and digits, with
    single hyphens between them and none at either end. *)
Definition is_slug (s : string) : bool :=
  Shape.separated (fun c => negb (is_alnum_lower c)) "-" s.

(** The shape of a slug of [_slugify]: lower-case letters, digits and
    hyphens, no two hyphens next to each other. *)
Definition is_loose_slug (s : string) : bool :=
  Shape.all is_slug_char s && Shape.single_seps is_hyphen "-" s.

(* ================================================================= *)
(** ** The texts and the bodies of a block sequence *)



(** The bodies that the top-level nodes give, in order: a string gives
    none, a tag at most one. *)
Definition node_bodies (nodes : list node) : list block_body :=
  flat_map
    (fun child =>
       match Soup.name_of child with
       | Some _ =>
           match element_body child with
           | Some b => [b]
           | None => []
           end
       | None => []
       end)
    nodes.

(** What [add_text] guarantees of a run: its text is not empty, a link is
    not empty, and a run of code has no link. *)
Definition run_ok (r : run) : bool :=
  negb (Str.is_empty (run_text r))
  && match run_link r with
     | Some l => negb (Str.is_empty l) && negb (run_code r)
     | None => true
     end.

(** The tag names that [_node_to_text] treats on their own; the text of any
    other tag is the collapsed texts of its children. *)
Definition inline_name (name : string) : bool :=
  String.eqb name "a" || String.eqb name "code" || String.eqb name "kbd"
  || String.eqb name "samp" || String.eqb name "br".

(** The tag names that [handle_element] has a branch for. *)
Definition block_tags : list string :=
  ["h2"; "h3"; "h4"; "h5"; "h6"; "p"; "ul"; "ol"; "pre"; "blockquote";
   "table"; "hr"].

(** The block tags that give a block whatever they contain, with the type
    of that block. *)
Definition sure_block_type (name : string) : option string :=
  if existsb (String.eqb name) ["h2"; "h3"; "h4"; "h5"; "h6"] then Some "heading"
  else if existsb (String.eqb name) ["ul"; "ol"] then Some "list"
  else if String.eqb name "pre" then Some "code"
  else if String.eqb name "table" then Some "table"
  else if String.eqb name "hr" then Some "separator"
  else None.

(** No [script] and no [style] tag at or below a node. *)
Fixpoint script_free (n : node) : bool :=
  negb (Soup.has_name_in ["script"; "style"] n)
  && match n with
     | Elem _ _ contents => forallb script_free contents
     | _ => true
     end.

(** The children of a nested item that the walk of lines 265-269 moves to
    the container: a list is passed over; any other node is taken, and the
    node that follows a taken node is skipped, whatever it is. *)
Fixpoint taken_nodes (skip : bool) (l : list node) : list node :=
  match l with
  | [] => []
  | n :: rest =>
      if skip then taken_nodes false rest
      else if is_list_node n then taken_nodes false rest
      else n :: taken_nodes true rest
  end.

(* ================================================================= *)
(** ** Text helpers of [build_split.py] *)

(** [x or ""]. *)
Definition or_empty (x : option string) : string :=
  match x with
  | Some s => s
  | None => ""
  end.

(** [_strip_tags(x)]: [_tag_re.sub("", x or "")]. *)
Definition _strip_tags (x : option string) : string := Tag.sub (or_empty x).

(** [re.split(r"\s+", s)], on a text with its white space outside ASCII
    written as spaces ([Str.spaces]): the pieces between the runs of white
    space; a run at either end leaves an empty piece there.  [in_run] tells
    that the character before was white space. *)
Fixpoint re_split_ws (in_run : bool) (s : string) : list string :=
  match s with
  | EmptyString => [""]
  | String c s' =>
      if Str.is_space c then
        if in_run then re_split_ws true s' else "" :: re_split_ws true s'
      else
        match re_split_ws false s' with
        | w :: ws => String c w :: ws
        | [] => [String c ""]
        end
  end.

(** [one_line_summary(text, fallback)]. *)
Definition one_line_summary (text fallback : option string) : string :=
  let t := Str.strip (or_empty text) in
  let t := if Str.is_empty t then or_empty fallback else t in
  let words := re_split_ws false (Str.spaces t) in
  Str.strip (Str.join " " (firstn 12 words)).

(* ================================================================= *)
(** ** The request helpers of [build_split.py] *)

Module Req.

(** The exceptions of these helpers: a value without [get], and a value
    that is not iterable or not a string where one is needed. *)
Inductive error : Type :=
| AttributeError
| TypeError.

Inductive outcome (A : Type) : Type :=
| Return (a : A)
| Fail (e : error).
Arguments Return {A} a.
Arguments Fail {A} e.

Definition bind (A B : Type) (m : outcome A) (f : A -> outcome B) : outcome B :=
  match m with
  | Return a => f a
  | Fail e => Fail e
  end.

Notation "x <- m ;; f" := (bind m (fun x => f))
  (at level 61, m at next level, right associativity).

(** A comprehension over a list, stopping at the first exception. *)
Fixpoint map_m (A B : Type) (f : A -> outcome B) (l : list A) : outcome (list B) :=
  match l with
  | [] => Return []
  | x :: r => y <- f x ;; ys <- map_m f r ;; Return (y :: ys)
  end.

(** [d.get(k)] of a dict, [None] for a missing key. *)
Definition dict_get_none (k : string) (d : dict) : json :=
  match dict_get k d with
  | Some v => v
  | None => JNull
  end.

(** [v.get(k)]: only a dict has [get]. *)
Definition get (k : string) (v : json) : outcome json :=
  match v with
  | JDict d => Return (dict_get_none k d)
  | _ => Fail AttributeError
  end.

(** [x or default]. *)
Definition or_else (x default : json) : json :=
  if truthy x then x else default.

(** [for it in v]: the items of a list, the keys of a dict, the characters
    of a string; nothing else is iterable. *)
Definition iter (v : json) : outcome (list json) :=
  match v with
  | JList l => Return l
  | JDict d => Return (List.map (fun kv => JStr (fst kv)) d)
  | JStr s => Return (List.map JStr (chars s))
  | _ => Fail TypeError
  end.

(** [\[(it.get("key") or "") for it in
      (req.get("urlObject", {}).get("query") or \[\])\]], the first line of
    [detect_pagination], [detect_filtering] and [detect_ordering]: the
    default [{}] stands in for a missing [urlObject] only. *)
Definition query_keys (req : dict) : outcome (list json) :=
  let url :=
    match dict_get "urlObject" req with
    | Some v => v
    | None => JDict []
    end in
  q <- get "query" url ;;
  items <- iter (or_else q (JList [])) ;;
  map_m (fun it => k <- get "key" it ;; Return (or_else k (JStr ""))) items.

(** [k in q] for a string [k]. *)
Definition mem_key (k : string) (q : list json) : bool :=
  existsb (fun v => match v with JStr s => String.eqb s k | _ => false end) q.

(** [detect_pagination]. *)
Definition detect_pagination (req : dict) : outcome json :=
  q <- query_keys req ;;
  Return
    (if existsb (fun k => mem_key k q) ["page"; "per_page"] then
       JDict [("supported", JBool true);
              ("style", JStr "page");
              ("params",
               JList (List.map JStr
                        (List.filter (fun k => mem_key k q) ["page"; "per_page"])))]
     else if existsb (fun k => mem_key k q) ["limit"; "next"; "cursor"] then
       JDict [("supported", JBool true);
              ("style", JStr "cursor");
              ("params",
               JList (List.map JStr
                        (List.filter (fun k => mem_key k q)
                           ["limit"; "next"; "cursor"])))]
     else JDict [("supported", JBool false)]).

(** [detect_ordering]. *)
Definition detect_ordering (req : dict) : outcome (list string) :=
  keys <- query_keys req ;;
  Return ((if mem_key "order" keys then ["order"] else [])
          ++ (if mem_key "direction" keys then ["direction"] else [])).

(** The pattern [_(eq|cont|lt|lte|gt|gte|in|not_in|starts|ends)$]: [$] is
    the end of the text or a line feed that ends it. *)
Definition filter_suffixes : list string :=
  ["eq"; "cont"; "lt"; "lte"; "gt"; "gte"; "in"; "not_in"; "starts"; "ends"].

Definition at_end (s : string) : bool :=
  match s with
  | EmptyString => true
  | String c EmptyString => Ascii.eqb c "010"
  | _ => false
  end.

Definition match_filter_here (s : string) : bool :=
  match s with
  | String c r =>
      Ascii.eqb c "_"
      && existsb
           (fun alt => Str.startswith alt r
                       && at_end (Str.drop (String.length alt) r))
           filter_suffixes
  | EmptyString => false
  end.

(** [re.search] of the pattern, as a truth value. *)
Fixpoint search_filter (s : string) : bool :=
  match_filter_here s
  || match s with
     | String _ s' => search_filter s'
     | EmptyString => false
     end.

(** [sorted(set(l))]: the strings of [l], each once, in ascending order;
    the order of [str], by code point, is the order of the UTF-8 bytes. *)
Fixpoint insert (k : string) (l : list string) : list string :=
  match l with
  | [] => [k]
  | x :: r =>
      match String.compare k x with
      | Lt => k :: l
      | Eq => l
      | Gt => x :: insert k r
      end
  end.

Definition sorted_set (l : list string) : list string := fold_right insert [] l.

(** [detect_filtering]: [re.search] takes a string only. *)
Definition detect_filtering (req : dict) : outcome (list string) :=
  keys <- query_keys req ;;
  filt <- map_m
            (fun k =>
               match k with
               | JStr s => Return (if search_filter s then [s] else [])
               | _ => Fail TypeError
               end)
            keys ;;
  Return (sorted_set (concat filt)).

(** The pattern of [extract_path_from_url]: [http], an optional [s],
    [://], one or more characters other than [/], and the group: a [/] with
    what follows it up to the first [?]. *)
Fixpoint from_char (c : ascii) (s : string) : option string :=
  match s with
  | EmptyString => None
  | String x s' => if Ascii.eqb x c then Some s else from_char c s'
  end.

Fixpoint until_char (c : ascii) (s : string) : string :=
  match s with
  | EmptyString => ""
  | String x s' => if Ascii.eqb x c then "" else String x (until_char c s')
  end.

(** The host and the group at the head of [s]: the group. *)
Definition match_host_path (s : string) : option string :=
  match s with
  | String c _ =>
      if Ascii.eqb c "/" then None
      else
        match from_char "/" s with
        | Some (String _ r) => Some (String "/" (until_char "?" r))
        | _ => None
        end
  | EmptyString => None
  end.

Definition match_rest (s : string) : option string :=
  match Loads.expect "://" s with
  | Some h => match_host_path h
  | None => None
  end.

(** The pattern at the head of [s]; [s?] is tried with the [s] first. *)
Definition match_url_here (s : string) : option string :=
  match Loads.expect "http" s with
  | Some r =>
      match
        match r with
        | String c r1 => if Ascii.eqb c "s" then match_rest r1 else None
        | EmptyString => None
        end
      with
      | Some g => Some g
      | None => match_rest r
      end
  | None => None
  end.

(** [re.search]: the group of the leftmost match. *)
Fixpoint search_url (s : string) : option string :=
  match match_url_here s with
  | Some g => Some g
  | None =>
      match s with
      | String _ s' => search_url s'
      | EmptyString => None
      end
  end.

(** [extract_path_from_url]. *)
Definition extract_path_from_url (req : dict) : outcome string :=
  let url := or_else (dict_get_none "urlObject" req) (JDict []) in
  p <- get "path" url ;;
  let path_parts := or_else p (JList []) in
  if truthy path_parts then
    items <- iter path_parts ;;
    segs <- map_m
              (fun v =>
                 match v with
                 | JStr s => Return s
                 | _ => Fail TypeError
                 end)
              (List.filter truthy items) ;;
    Return ("/" +++ Str.join "/" segs)
  else
    match or_else (dict_get_none "url" req) (JStr "") with
    | JStr raw =>
        Return (match search_url raw with Some g => g | None => raw end)
    | _ => Fail TypeError
    end.

(** The body of the loop of [extract_headers]: the record of one header,
    or nothing when it has no name. *)
Definition header_record (h : json) : outcome (list json) :=
  key <- get "key" h ;;
  name <- (if truthy key then Return key else get "name" h) ;;
  if truthy name then
    val <- get "value" h ;;
    Return [JDict [("name", name);
                   ("required", JBool false);
                   ("summary", or_else val (JStr ""))]]
  else Return [].

(** [extract_headers]. *)
Definition extract_headers (item_request : dict) : outcome (list json) :=
  let header :=
    match dict_get "header" item_request with
    | Some v => v
    | None => JList []
    end in
  hs <- iter (or_else header (JList [])) ;;
  found <- map_m header_record hs ;;
  Return (concat found).

End Req.

(* ================================================================= *)
(** ** [clean_html_content] and [write_json] of [split_api_docs.py] *)

Definition block_level : list string :=
  ["p"; "li"; "pre"; "h1"; "h2"; "h3"; "h4"; "h5"; "h6"; "blockquote"].

(** The line that one block-level tag gives, lines 105-111. *)
Definition clean_line (el : node) : list string :=
  if Soup.has_name "pre" el then
    [Str.rstrip_by (fun c => Ascii.eqb c "010") (Soup.get_text Json.newline false el)]
  else
    let text := _node_to_text el in
    if Str.is_empty text then [] else [text].

(** [clean_html_content], on the parsed content. *)
Definition clean_html_content (soup : list node) : string :=
  let document := Elem "[document]" [] (Soup.decompose_all soup) in
  let lines := flat_map clean_line (Soup.find_all block_level document) in
  match lines with
  | [] => _collapse_ws (Soup.get_text " " true document)
  | _ => Str.join (Json.newline +++ Json.newline) lines
  end.

(** Strings in strictly ascending order. *)
Fixpoint ascending (l : list string) : bool :=
  match l with
  | [] => true
  | x :: r =>
      match r with
      | [] => true
      | y :: _ =>
          match String.compare x y with
          | Lt => true
          | _ => false
          end
      end && ascending r
  end.

(** What [extract_headers] makes of a header that is a dict: its name is
    the [key], or else the [name], and a header of which neither is truthy
    has no record. *)
Definition header_name (h : dict) : json :=
  Req.or_else (Req.dict_get_none "key" h) (Req.dict_get_none "name" h).

Definition header_named (h : dict) : bool := truthy (header_name h).

Definition header_entry (h : dict) : json :=
  JDict [("name", header_name h);
         ("required", JBool false);
         ("summary", Req.or_else (Req.dict_get_none "value" h) (JStr ""))].

(* ================================================================= *)
(** ** The part files, read back and put together again *)

(** No part, as written first and as written last, has a match of the tag
    pattern in its serialization: [write_json] writes the parts as they
    are. *)
Definition parts_tag_free (base_path : path) (base_obj : dict)
    (endpoints : list json) : bool :=
  let parts := split_parts base_obj endpoints in
  let names := List.map (part_name base_path) (seq 1 (List.length parts)) in
  tag_free base_obj endpoints
  && forallb
       (fun part =>
          negb (Tag.search (Json.dumps (JDict (final_obj base_obj names part)))))
       parts.

(** The object that a part file holds. *)
Definition read_part (fs : files) (nm : string) : option dict :=
  match fs_read (resources_path nm) fs with
  | Some text =>
      match Loads.loads text with
      | Some (JDict obj) => Some obj
      | _ => None
      end
  | None => None
  end.

(** The endpoint slice of a part. *)
Definition part_slice (obj : dict) : option (list json) :=
  match dict_get "endpoints" obj with
  | Some (JList l) => Some l
  | _ => None
  end.

Fixpoint map_opt (A B : Type) (f : A -> option B) (l : list A) :
  option (list B) :=
  match l with
  | [] => Some []
  | x :: r =>
      match f x, map_opt f r with
      | Some y, Some ys => Some (y :: ys)
      | _, _ => None
      end
  end.

(** [d] without the key [k]. *)
Fixpoint dict_remove (k : string) (d : dict) : dict :=
  match d with
  | [] => []
  | (k', v) :: r => if String.eqb k k' then r else (k', v) :: dict_remove k r
  end.

(** The parts put together again: the slices of the part files, in the
    order of their names, and the document that holds them as one list of
    endpoints, in the shape the parts came from (the first part without its
    list of parts). *)
Definition reassemble (fs : files) (names : list string) :
  option (dict * list (list json)) :=
  match map_opt (read_part fs) names with
  | Some (obj :: rest) =>
      match map_opt part_slice (obj :: rest) with
      | Some slices =>
          Some (dict_remove "parts"
                  (dict_set "endpoints" (JList (concat slices)) obj),
                slices)
      | None => None
      end
  | _ => None
  end.

(** The numbers of endpoints of the parts that a run leaves behind. *)
Definition run_boundaries (r : result (list string * files)) :
  option (list nat) :=
  match r with
  | Ok (names, fs) =>
      option_map (fun p => List.map (@List.length json) (snd p))
        (reassemble fs names)
  | Raise _ => None
  end.

(** The run on the parts of a run, put together again. *)
Definition resplit (base_path : path) (r : result (list string * files)) :
  result (list string * files) :=
  match r with
  | Ok (names, fs) =>
      match reassemble fs names with
      | Some (doc, _) => split_if_large base_path doc fs
      | None => Raise JSONDecodeError
      end
  | Raise e => Raise e
  end.

Module Resplit.

(** Three endpoints, the first with 30000 bytes of markup in its notes:
    with the markup the first two do not fit together, without it they
    do. *)
Definition marked (notes : string) : json :=
  JDict [("method", JStr "GET");
         ("path", JStr ("/users/" +++ Str.repeat "a" 45000));
         ("notes", JStr notes)].

Definition U : json := marked ("<" +++ Str.repeat "b" 30000 +++ ">").
Definition V : json := Sample.endpoint 50000.
Definition W : json := Sample.endpoint 60000.

Definition marked_doc : dict :=
  [("title", JStr "Users"); ("endpoints", JList [U; V; W])].

(** A document within the limit, with markup in its title. *)
Definition small_doc (title : string) : dict :=
  [("title", JStr title); ("endpoints", JList [Sample.C])].

End Resplit.

(* ================================================================= *)
(** * Properties *)

Module StrFacts.

Lemma append_nil_r (s : string) : s +++ "" = s.
Proof. induction s as [|c s IH]; simpl; [reflexivity | now rewrite IH]. Qed.

Lemma append_assoc (a b c : string) : (a +++ b) +++ c = a +++ (b +++ c).
Proof. induction a as [|x a IH]; simpl; [reflexivity | now rewrite IH]. Qed.

Lemma length_append (a b : string) :
  String.length (a +++ b) = String.length a + String.length b.
Proof. induction a as [|x a IH]; simpl; [reflexivity | now rewrite IH]. Qed.

End StrFacts.

(* ================================================================= *)
(** ** The tag pattern *)

Module TagFacts.
Import Tag.

Lemma after_gt_length s r :
  after_gt s = Some r -> String.length r < String.length s.
Proof.
  induction s as [|c s IH]; cbn [after_gt String.length]; [discriminate|].
  destruct (Ascii.eqb c gt_char).
  - intros [= <-]. lia.
  - intros H. apply IH in H. lia.
Qed.

Lemma after_gt_none s : after_gt s = None <-> Str.mem gt_char s = false.
Proof.
  induction s as [|c s IH]; cbn [after_gt Str.mem]; [tauto|].
  rewrite (Ascii.eqb_sym gt_char c).
  destruct (Ascii.eqb c gt_char); cbn [orb]; [split; discriminate | exact IH].
Qed.

(** A match consumes at least three characters. *)
Lemma match_tag_length s r :
  match_tag s = Some r -> String.length r + 3 <= String.length s.
Proof.
  destruct s as [|c [|c1 s]]; cbn [match_tag String.length]; try discriminate.
  destruct (Ascii.eqb c lt_char && negb (Ascii.eqb c1 gt_char)); [|discriminate].
  intros H. apply after_gt_length in H. lia.
Qed.

(** Without any [>] nothing matches, and the substitution copies the text. *)
Lemma match_tag_no_gt s : Str.mem gt_char s = false -> match_tag s = None.
Proof.
  destruct s as [|c [|c1 s]]; cbn [match_tag Str.mem]; try reflexivity.
  intros H. apply orb_false_iff in H as [_ H]. apply orb_false_iff in H as [_ H].
  apply after_gt_none in H. rewrite H.
  now destruct (Ascii.eqb c lt_char && negb (Ascii.eqb c1 gt_char)).
Qed.

Lemma sub_fuel_no_gt n s : Str.mem gt_char s = false -> sub_fuel n s = s.
Proof.
  revert s. induction n as [|n IH]; intros s H; cbn [sub_fuel]; [reflexivity|].
  rewrite (match_tag_no_gt _ H).
  destruct s as [|c s]; [reflexivity|].
  cbn [Str.mem] in H. apply orb_false_iff in H as [_ H]. now rewrite IH.
Qed.

Lemma search_cons c s :
  search (String c s) = is_some (match_tag (String c s)) || search s.
Proof. reflexivity. Qed.

Lemma search_false_sub_fuel n s : search s = false -> sub_fuel n s = s.
Proof.
  revert s. induction n as [|n IH]; intros s H; cbn [sub_fuel]; [reflexivity|].
  destruct s as [|c s].
  - reflexivity.
  - rewrite search_cons in H. apply orb_false_iff in H as [H1 H2].
    destruct (match_tag (String c s)); [discriminate|].
    now rewrite IH.
Qed.

(** The head of a text that did not match still does not match after the
    substitution has been applied to its tail. *)
Lemma match_tag_head_stable n c s :
  String.length s <= n ->
  match_tag (String c s) = None ->
  match_tag (String c (sub_fuel n s)) = None.
Proof.
  intros Hn H.
  destruct s as [|c1 s].
  - destruct n; reflexivity.
  - cbn [match_tag] in H.
    destruct (Ascii.eqb c lt_char) eqn:Hc; cbn [andb] in H.
    + destruct (Ascii.eqb c1 gt_char) eqn:Hc1; cbn [negb] in H.
      * (* "<>": the [>] is copied as it is *)
        destruct n as [|n]; [cbn in Hn; lia|].
        cbn [sub_fuel].
        replace (match_tag (String c1 s)) with (@None string).
        -- cbn [match_tag]. rewrite Hc, Hc1. reflexivity.
        -- destruct s as [|c2 s]; cbn [match_tag]; [reflexivity|].
           apply Ascii.eqb_eq in Hc1. subst c1. reflexivity.
      * (* no [>] in the rest of the text *)
        assert (Hm : Str.mem gt_char (String c1 s) = false).
        { cbn [Str.mem]. rewrite (Ascii.eqb_sym gt_char c1), Hc1.
          now apply after_gt_none. }
        rewrite (sub_fuel_no_gt _ _ Hm). cbn [match_tag]. rewrite Hc, Hc1.
        exact H.
    + destruct (sub_fuel n (String c1 s)) as [|d t]; cbn [match_tag];
        [reflexivity | now rewrite Hc].
Qed.

(** After the substitution the pattern matches nowhere. *)
Lemma search_sub_fuel n s :
  String.length s <= n -> search (sub_fuel n s) = false.
Proof.
  revert s. induction n as [|n IH]; intros s Hn.
  - destruct s; [reflexivity | cbn in Hn; lia].
  - cbn [sub_fuel]. destruct (match_tag s) as [r|] eqn:Hm.
    + apply IH. apply match_tag_length in Hm. lia.
    + destruct s as [|c s]; [reflexivity|].
      cbn [String.length] in Hn.
      rewrite search_cons, IH by lia.
      rewrite match_tag_head_stable; [reflexivity | lia | exact Hm].
Qed.

Lemma sub_fuel_length n s : String.length (sub_fuel n s) <= String.length s.
Proof.
  revert s. induction n as [|n IH]; intros s; cbn [sub_fuel]; [lia|].
  destruct (match_tag s) as [r|] eqn:Hm.
  - apply match_tag_length in Hm. specialize (IH r). lia.
  - destruct s as [|c s]; cbn [String.length]; [lia|]. specialize (IH s). lia.
Qed.


Lemma after_gt_split s r :
  after_gt s = Some r ->
  exists m, s = m +++ String gt_char r /\ Str.mem gt_char m = false.
Proof.
  revert r. induction s as [|c s IH]; intros r; cbn [after_gt]; [discriminate|].
  destruct (Ascii.eqb c gt_char) eqn:Hc.
  - intros [= <-]. apply Ascii.eqb_eq in Hc. subst c. now exists "".
  - intros H. destruct (IH _ H) as (m & -> & Hm).
    exists (String c m). split; [reflexivity|].
    cbn [Str.mem]. now rewrite (Ascii.eqb_sym gt_char c), Hc.
Qed.

Lemma after_gt_app m r :
  Str.mem gt_char m = false -> after_gt (m +++ String gt_char r) = Some r.
Proof.
  induction m as [|c m IH]; cbn [Str.mem String.append after_gt].
  - now rewrite Ascii.eqb_refl.
  - intros H. apply orb_false_iff in H as [Hc Hm].
    rewrite (Ascii.eqb_sym c gt_char), Hc. now apply IH.
Qed.

(** [search] decides the declarative reading of the pattern. *)
Lemma search_has_tag s : search s = true <-> has_tag s.
Proof.
  split.
  - induction s as [|c s IH]; [discriminate|].
    rewrite search_cons. intros H. apply orb_true_iff in H as [H|H].
    + destruct s as [|c1 s]; [discriminate|]. cbn [match_tag] in H.
      destruct (Ascii.eqb c lt_char) eqn:Hc; [|discriminate].
      destruct (Ascii.eqb c1 gt_char) eqn:Hc1; [discriminate|].
      cbn [andb negb] in H.
      destruct (after_gt s) as [r|] eqn:Hr; [|discriminate].
      destruct (after_gt_split _ Hr) as (m & -> & Hm).
      apply Ascii.eqb_eq in Hc. subst c.
      exists "", (String c1 m), r. repeat split.
      * discriminate.
      * cbn [Str.mem]. now rewrite (Ascii.eqb_sym gt_char c1), Hc1.
    + destruct (IH H) as (pre & mid & post & -> & Hne & Hm).
      now exists (String c pre), mid, post.
  - intros (pre & mid & post & -> & Hne & Hm).
    induction pre as [|c pre IH].
    + destruct mid as [|c1 m]; [congruence|].
      cbn [String.append]. rewrite search_cons. apply orb_true_iff. left.
      cbn [match_tag Str.mem] in *. apply orb_false_iff in Hm as [Hc1 Hm].
      rewrite Ascii.eqb_refl, (Ascii.eqb_sym c1 gt_char), Hc1. cbn [andb negb].
      now rewrite after_gt_app.
    + cbn [String.append]. rewrite search_cons, IH. apply orb_true_r.
Qed.

Lemma search_sub s : search (sub s) = false.
Proof. apply search_sub_fuel. apply Nat.le_refl. Qed.


End TagFacts.



(* ================================================================= *)
(** ** The greedy scan *)

Module SplitFacts.

Lemma dict_set_twice k v1 v2 (d : dict) :
  dict_set k v2 (dict_set k v1 d) = dict_set k v2 d.
Proof.
  induction d as [|[k' v'] d IH]; cbn [dict_set].
  - now rewrite String.eqb_refl.
  - destruct (String.eqb k k') eqn:E; cbn [dict_set]; rewrite E; [reflexivity|].
    now rewrite IH.
Qed.

Lemma dict_set_same k v (d : dict) :
  dict_get k d = Some v -> dict_set k v d = d.
Proof.
  induction d as [|[k' v'] d IH]; cbn [dict_get dict_set]; [discriminate|].
  destruct (String.eqb k k') eqn:E.
  - now intros [= ->].
  - intros H. now rewrite IH.
Qed.

Lemma with_endpoints_twice base eps1 eps2 :
  with_endpoints (with_endpoints base eps1) eps2 = with_endpoints base eps2.
Proof. apply dict_set_twice. Qed.

Lemma size_of_eps_with_endpoints base eps0 eps :
  size_of_eps (with_endpoints base eps0) eps = size_of_eps base eps.
Proof. unfold size_of_eps. now rewrite with_endpoints_twice. Qed.

(** The scan depends on the document only through [size_of_eps]. *)
Lemma split_loop_ext base base' eps parts chunk :
  (forall l, size_of_eps base l = size_of_eps base' l) ->
  split_loop base eps parts chunk = split_loop base' eps parts chunk.
Proof.
  intros H. revert parts chunk.
  induction eps as [|ep rest IH]; intros parts chunk; cbn [split_loop];
    [reflexivity|].
  rewrite H. destruct (_ && _); apply IH.
Qed.

(** Order is kept within and across parts: the parts, in order, concatenate
    to the scanned list. *)
Lemma split_loop_concat base eps parts chunk :
  concat (split_loop base eps parts chunk) = concat parts ++ chunk ++ eps.
Proof.
  revert parts chunk.
  induction eps as [|ep rest IH]; intros parts chunk; cbn [split_loop].
  - destruct chunk as [|c chunk].
    + now rewrite app_nil_r.
    + now rewrite concat_app, app_nil_r; cbn [concat]; rewrite app_nil_r.
  - destruct (_ && _); rewrite IH.
    + rewrite concat_app. cbn [concat]. now rewrite app_nil_r, <- app_assoc.
    + now rewrite <- app_assoc.
Qed.

Lemma split_parts_concat base eps : concat (split_parts base eps) = eps.
Proof. unfold split_parts. now rewrite split_loop_concat. Qed.

(** No part is empty. *)
Lemma split_loop_nonempty base eps parts chunk :
  Forall (fun p => p <> []) parts ->
  Forall (fun p => p <> []) (split_loop base eps parts chunk).
Proof.
  revert parts chunk.
  induction eps as [|ep rest IH]; intros parts chunk Hp; cbn [split_loop].
  - destruct chunk; [exact Hp|].
    apply Forall_app. split; [exact Hp|]. constructor; [discriminate|constructor].
  - destruct chunk as [|c chunk]; cbn [negb andb].
    + rewrite andb_false_r. now apply IH.
    + destruct (_ && _); apply IH; [|exact Hp].
      apply Forall_app. split; [exact Hp|].
      constructor; [discriminate|constructor].
Qed.

Lemma split_loop_measured base eps parts chunk :
  Forall (measured_ok base) parts -> measured_ok base chunk ->
  Forall (measured_ok base) (split_loop base eps parts chunk).
Proof.
  revert parts chunk.
  induction eps as [|ep rest IH]; intros parts chunk Hp Hc; cbn [split_loop].
  - destruct chunk; [exact Hp|].
    apply Forall_app. split; [exact Hp | now constructor].
  - destruct (KB_LIMIT <? size_of_eps base (chunk ++ [ep]))%Z eqn:E; cbn [andb].
    + destruct chunk as [|c chunk]; cbn [negb].
      * apply IH; [exact Hp|]. intros H. cbn in H. lia.
      * apply IH.
        -- apply Forall_app. split; [exact Hp | now constructor].
        -- intros H. cbn in H. lia.
    + apply IH; [exact Hp|]. intros _. now apply Z.ltb_ge.
Qed.

Lemma split_parts_measured base eps :
  Forall (measured_ok base) (split_parts base eps).
Proof.
  apply split_loop_measured; [constructor|]. intros H. cbn in H. lia.
Qed.

End SplitFacts.

(* ================================================================= *)
(** ** JSON equality, file store, part names *)

Module JsonFacts.

Section Induction.
Variable P : json -> Prop.
Hypothesis Hnull : P JNull.
Hypothesis Hbool : forall b, P (JBool b).
Hypothesis Hint : forall z, P (JInt z).
Hypothesis Hstr : forall s, P (JStr s).
Hypothesis Hlist : forall l, Forall P l -> P (JList l).
Hypothesis Hdict : forall d, Forall (fun kv => P (snd kv)) d -> P (JDict d).

(** Induction on a JSON value, with the hypothesis on every item of a list
    and every value of a dict. *)
Lemma json_rect' : forall v, P v.
Proof.
  fix IH 1. intros [| b | z | s | l | d].
  - exact Hnull.
  - apply Hbool.
  - apply Hint.
  - apply Hstr.
  - apply Hlist. induction l as [|x r IHr]; constructor; [apply IH | exact IHr].
  - apply Hdict. induction d as [|kv r IHr]; constructor; [apply IH | exact IHr].
Qed.
End Induction.

Lemma json_eqb_eq a : forall b, json_eqb a b = true -> a = b.
Proof.
  induction a using json_rect'; intros []; cbn [json_eqb];
    try discriminate; try reflexivity.
  - intros E. apply Bool.eqb_prop in E. now subst.
  - intros E. apply Z.eqb_eq in E. now subst.
  - intros E. apply String.eqb_eq in E. now subst.
  - rename l0 into l'. revert l'.
    induction H as [|x r Hx Hr IH]; intros [|y r2]; try discriminate;
      [reflexivity|].
    intros E. apply andb_true_iff in E as [E1 E2].
    apply Hx in E1. apply IH in E2. injection E2 as E2. now subst.
  - rename d0 into d'. revert d'.
    induction H as [|[k x] r Hx Hr IH]; intros [|[k2 y] r2];
      try discriminate; [reflexivity|].
    intros E. apply andb_true_iff in E as [E E3].
    apply andb_true_iff in E as [E1 E2].
    cbn [snd] in Hx.
    apply String.eqb_eq in E1. apply Hx in E2. apply IH in E3.
    injection E3 as E3. now subst.
Qed.

End JsonFacts.

Module FsFacts.

Lemma fs_read_write_same p text fs : fs_read p (fs_write p text fs) = Some text.
Proof.
  induction fs as [|[q old] fs IH]; cbn [fs_write fs_read].
  - now rewrite String.eqb_refl.
  - destruct (String.eqb p q) eqn:E; cbn [fs_read]; rewrite E; [reflexivity|].
    exact IH.
Qed.

Lemma fs_read_write_other p q text fs :
  p <> q -> fs_read p (fs_write q text fs) = fs_read p fs.
Proof.
  intros Hpq. induction fs as [|[r old] fs IH]; cbn [fs_write fs_read].
  - apply String.eqb_neq in Hpq. now rewrite Hpq.
  - destruct (String.eqb q r) eqn:E; cbn [fs_read].
    + apply String.eqb_eq in E. subst r.
      apply String.eqb_neq in Hpq. now rewrite Hpq.
    + destruct (String.eqb p r); [reflexivity | exact IH].
Qed.

Lemma append_inv_head a b c : a +++ b = a +++ c -> b = c.
Proof.
  induction a as [|x a IH]; cbn [String.append]; [trivial|].
  intros [= H]. now apply IH.
Qed.

Lemma append_inv_tail c a : forall b, a +++ c = b +++ c -> a = b.
Proof.
  induction a as [|x a IH]; intros [|y b]; cbn [String.append]; intros H.
  - reflexivity.
  - apply (f_equal String.length) in H. cbn [String.length] in H.
    rewrite StrFacts.length_append in H. lia.
  - apply (f_equal String.length) in H. cbn [String.length] in H.
    rewrite StrFacts.length_append in H. lia.
  - injection H as -> H. f_equal. now apply IH.
Qed.

Lemma to_uint_nonnil n : Nat.to_uint n <> Decimal.Nil.
Proof.
  rewrite <- (DecimalNat.Unsigned.of_to n) at 1.
  rewrite DecimalNat.Unsigned.to_of. apply DecimalFacts.unorm_nonnil.
Qed.

Lemma nat_str_inj n m : nat_str n = nat_str m -> n = m.
Proof.
  unfold nat_str. intros H.
  apply (f_equal NilZero.uint_of_string) in H.
  rewrite !NilZero.usu in H by apply to_uint_nonnil.
  injection H as H. now apply DecimalNat.Unsigned.to_uint_inj.
Qed.

Lemma part_name_inj bp i j : part_name bp i = part_name bp j -> i = j.
Proof.
  unfold part_name. intros H.
  apply append_inv_head in H. apply append_inv_head in H.
  apply append_inv_tail in H. now apply nat_str_inj.
Qed.

Lemma resources_path_inj a b : resources_path a = resources_path b -> a = b.
Proof.
  unfold resources_path. intros H.
  apply append_inv_head in H. now apply append_inv_head in H.
Qed.

Lemma part_names_NoDup bp idx n :
  NoDup (List.map (part_name bp) (seq idx n)).
Proof.
  apply Finite.Injective_map_NoDup; [|apply seq_NoDup].
  intros i j. apply part_name_inj.
Qed.

End FsFacts.

(* ================================================================= *)
(** ** The two loops over the parts *)

Module PartsFacts.
Import FsFacts.

Lemma write_parts_names bp base parts : forall idx acc fs,
  fst (write_parts bp base idx parts acc fs)
  = acc ++ List.map (part_name bp) (seq idx (List.length parts)).
Proof.
  induction parts as [|eps rest IH]; intros idx acc fs; cbn [write_parts].
  - cbn. now rewrite app_nil_r.
  - rewrite IH. cbn [List.length seq List.map]. now rewrite <- app_assoc.
Qed.

(** A path that is not a part file from [idx] on is left as it was. *)
Lemma write_parts_other bp base p parts : forall idx acc fs,
  (forall j, idx <= j -> p <> resources_path (part_name bp j)) ->
  fs_read p (snd (write_parts bp base idx parts acc fs)) = fs_read p fs.
Proof.
  induction parts as [|eps rest IH]; intros idx acc fs Hp; cbn [write_parts].
  - reflexivity.
  - rewrite IH by (intros j Hj; apply Hp; lia).
    unfold write_json. apply fs_read_write_other. apply Hp. lia.
Qed.

(** After the first loop every part file holds its part with an empty
    [parts] list. *)
Lemma write_parts_files bp base parts : forall idx acc fs,
  Forall2
    (fun nm part =>
       fs_read (resources_path nm) (snd (write_parts bp base idx parts acc fs))
       = Some (write_json_text (JDict (first_obj base part))))
    (List.map (part_name bp) (seq idx (List.length parts))) parts.
Proof.
  induction parts as [|eps rest IH]; intros idx acc fs;
    cbn [write_parts List.length seq List.map]; constructor.
  - rewrite write_parts_other.
    + unfold write_json. apply fs_read_write_same.
    + intros j Hj E. apply resources_path_inj, part_name_inj in E. lia.
  - apply IH.
Qed.

(** The second loop, when every file read back decodes to a dict. *)
Lemma update_parts_files filenames names objs : forall fs,
  NoDup names ->
  Forall2
    (fun nm obj =>
       exists text, fs_read (resources_path nm) fs = Some text
                    /\ Loads.loads text = Some (JDict obj))
    names objs ->
  exists fs2,
    update_parts filenames names fs = Ok fs2
    /\ Forall2
         (fun nm obj =>
            fs_read (resources_path nm) fs2
            = Some (write_json_text
                      (JDict (dict_set "parts" (JList (List.map JStr filenames)) obj))))
         names objs
    /\ (forall p, ~ In p (List.map resources_path names) ->
                  fs_read p fs2 = fs_read p fs).
Proof.
  intros fs Hnd H. revert objs fs Hnd H.
  induction names as [|nm rest IH]; intros objs fs Hnd H; inversion H; subst.
  - exists fs. cbn [update_parts]. split; [reflexivity|]. split; [constructor | trivial].
  - rename y into obj, l' into objs'.
    destruct H2 as (text & Hread & Hload).
    cbn [update_parts]. rewrite Hread, Hload.
    inversion Hnd as [|? ? Hnotin Hnd']; subst.
    set (fs1 := write_json (resources_path nm)
                  (JDict (dict_set "parts" (JList (List.map JStr filenames)) obj)) fs).
    assert (Hrest : Forall2
              (fun nm0 obj0 =>
                 exists text0, fs_read (resources_path nm0) fs1 = Some text0
                               /\ Loads.loads text0 = Some (JDict obj0))
              rest objs').
    { clear IH. revert Hnotin. clear Hnd Hnd' H.
      induction H4 as [|nm0 obj0 rest0 objs0 (t0 & Hr0 & Hl0) Hf IHf];
        intros Hnotin; constructor.
      - exists t0. split; [|exact Hl0]. unfold fs1, write_json.
        rewrite fs_read_write_other; [exact Hr0|].
        intros E. apply resources_path_inj in E. apply Hnotin. now left.
      - apply IHf. intros Hin. apply Hnotin. now right. }
    destruct (IH objs' fs1 Hnd' Hrest) as (fs2 & Hup & Hfiles & Hother).
    exists fs2. split; [exact Hup|]. split.
    + constructor; [|exact Hfiles].
      rewrite Hother.
      * unfold fs1, write_json. apply fs_read_write_same.
      * intros Hin. apply in_map_iff in Hin as (nm' & E & Hin).
        apply resources_path_inj in E. subst nm'. now apply Hnotin.
    + intros p Hp. rewrite Hother.
      * unfold fs1, write_json. apply fs_read_write_other.
        intros E. apply Hp. left. now symmetry.
      * intros Hin. apply Hp. now right.
Qed.

Lemma Forall2_map_right (A B C : Type) (R : A -> C -> Prop) (f : B -> C) l2 :
  forall l1, Forall2 R l1 (List.map f l2) -> Forall2 (fun a b => R a (f b)) l1 l2.
Proof.
  induction l2 as [|b l2 IH]; intros l1 H; inversion H; subst; constructor;
    auto.
Qed.

Lemma reread_part_loads base part :
  reread_part base part = true ->
  Loads.loads (write_json_text (JDict (first_obj base part)))
  = Some (JDict (first_obj base part)).
Proof.
  unfold reread_part.
  destruct (Loads.loads _) as [v|]; [|discriminate].
  intros H. apply JsonFacts.json_eqb_eq in H. now subst.
Qed.

Lemma final_obj_first_obj base names part :
  dict_set "parts" (JList (List.map JStr names)) (first_obj base part)
  = final_obj base names part.
Proof. apply SplitFacts.dict_set_twice. Qed.

(** The split branch of [split_if_large], from the parts on. *)
Lemma split_branch bp base parts fs :
  forallb (reread_part base) parts = true ->
  let names := List.map (part_name bp) (seq 1 (List.length parts)) in
  let '(filenames, fs1) := write_parts bp base 1 parts [] fs in
  filenames = names
  /\ exists fs2,
       update_parts filenames filenames fs1 = Ok fs2
       /\ Forall2
            (fun nm part =>
               fs_read (resources_path nm) fs2
               = Some (write_json_text (JDict (final_obj base names part))))
            names parts.
Proof.
  intros Hre names.
  pose proof (write_parts_names bp base parts 1 [] fs) as Hn.
  pose proof (write_parts_files bp base parts 1 [] fs) as Hf.
  destruct (write_parts bp base 1 parts [] fs) as [filenames fs1].
  cbn [fst snd app] in Hn, Hf. fold names in Hn, Hf. subst filenames.
  split; [reflexivity|].
  assert (Hobjs : Forall2
            (fun nm obj =>
               exists text, fs_read (resources_path nm) fs1 = Some text
                            /\ Loads.loads text = Some (JDict obj))
            names (List.map (first_obj base) parts)).
  { rewrite forallb_forall in Hre. revert Hre.
    induction Hf as [|nm part ns ps Hr Hf IH]; intros Hre; cbn [List.map];
      constructor.
    - eexists. split; [exact Hr|]. apply reread_part_loads, Hre. now left.
    - apply IH. intros x Hx. apply Hre. now right. }
  destruct (@update_parts_files names names _ fs1
              (part_names_NoDup bp 1 (List.length parts)) Hobjs)
    as (fs2 & Hup & Hfiles & _).
  exists fs2. split; [exact Hup|].
  apply Forall2_map_right in Hfiles.
  revert Hfiles. apply Forall2_impl.
  intros nm part ->. now rewrite final_obj_first_obj.
Qed.

End PartsFacts.

(* ================================================================= *)
(** ** [split_if_large] *)

Module RunFacts.

Lemma text_is_true e o : text_is e o = true -> o = Some e.
Proof.
  destruct o as [t|]; cbn [text_is]; [|discriminate].
  intros H. apply String.eqb_eq in H. now subst.
Qed.

Lemma text_is_false e o : text_is e o = false -> o <> Some e.
Proof.
  intros H ->. cbn [text_is] in H. now rewrite String.eqb_refl in H.
Qed.

(** The first part, from the lengths of the parts. *)
Lemma first_part (ps : list (list json)) eps n lens :
  List.map (@List.length json) ps = n :: lens -> concat ps = eps ->
  exists rest, ps = firstn n eps :: rest.
Proof.
  destruct ps as [|p ps]; [discriminate|].
  cbn [List.map concat]. intros [= Hn _] <-.
  exists ps. f_equal. subst n.
  now rewrite firstn_app, Nat.sub_diag, firstn_all, firstn_O, app_nil_r.
Qed.

(** An endpoint is accepted into an empty part whatever its size. *)
Lemma split_loop_empty_chunk base ep rest parts :
  split_loop base (ep :: rest) parts [] = split_loop base rest parts [ep].
Proof. cbn [split_loop negb app]. now rewrite andb_false_r. Qed.

Lemma split_parts_single base ep : split_parts base [ep] = [[ep]].
Proof. unfold split_parts. now rewrite split_loop_empty_chunk. Qed.

(** The split branch, for a document over the limit. *)
Lemma split_if_large_split bp base fs eps :
  truthy (get_endpoints base) = true ->
  (KB_LIMIT < byte_len (Json.dumps (JDict base)))%Z ->
  iter_items (get_endpoints base) = Some eps ->
  split_if_large bp base fs
  = let '(filenames, fs1) :=
      write_parts bp base 1 (split_parts base eps) [] fs in
    match update_parts filenames filenames fs1 with
    | Ok fs2 => Ok (filenames, fs2)
    | Raise e => Raise e
    end.
Proof.
  intros Ht Hs Hi. unfold split_if_large. rewrite Ht, Hi. cbn [negb].
  apply Z.leb_gt in Hs. now rewrite Hs.
Qed.

(** One endpoint over the limit: one part, made of that endpoint, when its
    file is read back as written. *)
Lemma single_endpoint_one_part bp base fs ep :
  get_endpoints base = JList [ep] ->
  (KB_LIMIT < byte_len (Json.dumps (JDict base)))%Z ->
  reread_part base [ep] = true ->
  exists fs',
    split_if_large bp base fs = Ok ([part_name bp 1], fs')
    /\ fs_read (resources_path (part_name bp 1)) fs'
       = Some (write_json_text (JDict (final_obj base [part_name bp 1] [ep]))).
Proof.
  intros He Hs Hre.
  rewrite (@split_if_large_split bp base fs [ep]); [| now rewrite He | exact Hs | now rewrite He].
  rewrite split_parts_single.
  pose proof (@PartsFacts.split_branch bp base [[ep]] fs) as H.
  cbn [forallb] in H. rewrite Hre in H. specialize (H eq_refl).
  cbn zeta in H. cbn [List.length seq List.map] in H.
  destruct (write_parts bp base 1 [[ep]] [] fs) as [filenames fs1].
  destruct H as (-> & fs2 & Hup & Hfiles).
  exists fs2. rewrite Hup. split; [reflexivity|].
  now inversion Hfiles.
Qed.

End RunFacts.

(** C4, as the code has it: when a document is split and every part file of
    the first loop is read back as the object that was written, the call
    returns the part names [stem.part1.json], [stem.part2.json], ... and
    every part file holds, written through [write_json], the document with
    [endpoints] replaced by the slice of that part and [parts] set to the
    whole ordered list of part names; the slices, in part order, concatenate
    to the original [endpoints]. *)
Theorem C4_parts_carry_slice_and_names
    (base_path : path) (base_obj : dict) (fs : files) (eps : list json) :
  truthy (get_endpoints base_obj) = true ->
  (KB_LIMIT < byte_len (Json.dumps (JDict base_obj)))%Z ->
  iter_items (get_endpoints base_obj) = Some eps ->
  reread_ok base_obj eps = true ->
  let parts := split_parts base_obj eps in
  let names := List.map (part_name base_path) (seq 1 (List.length parts)) in
  concat parts = eps
  /\ exists fs',
       split_if_large base_path base_obj fs = Ok (names, fs')
       /\ Forall2
            (fun nm part =>
               fs_read (resources_path nm) fs'
               = Some (write_json_text (JDict (final_obj base_obj names part))))
            names parts.
Proof.
  intros Ht Hs Hi Hre parts names.
  split; [apply SplitFacts.split_parts_concat|].
  rewrite (@RunFacts.split_if_large_split base_path base_obj fs eps Ht Hs Hi).
  pose proof (@PartsFacts.split_branch base_path base_obj (split_parts base_obj eps) fs Hre)
    as H.
  cbn zeta in H. fold parts in H |- *. fold names in H.
  destruct (write_parts base_path base_obj 1 parts [] fs) as [filenames fs1].
  destruct H as (-> & fs2 & Hup & Hfiles).
  exists fs2. rewrite Hup. split; [reflexivity | exact Hfiles].
Qed.

Lemma C4_parts_carry_slice_and_names_witness :
  concat (split_parts Sample.users_doc [Sample.A; Sample.B; Sample.C])
  = [Sample.A; Sample.B; Sample.C]
  /\ exists fs',
       split_if_large Sample.users_path Sample.users_doc []
       = Ok (List.map (part_name Sample.users_path)
               (seq 1 (List.length
                         (split_parts Sample.users_doc
                            [Sample.A; Sample.B; Sample.C]))), fs')
       /\ Forall2
            (fun nm part =>
               fs_read (resources_path nm) fs'
               = Some (write_json_text
                         (JDict (final_obj Sample.users_doc
                                   (List.map (part_name Sample.users_path)
                                      (seq 1 (List.length
                                                (split_parts Sample.users_doc
                                                   [Sample.A; Sample.B; Sample.C]))))
                                   part))))
            (List.map (part_name Sample.users_path)
               (seq 1 (List.length
                         (split_parts Sample.users_doc
                            [Sample.A; Sample.B; Sample.C]))))
            (split_parts Sample.users_doc [Sample.A; Sample.B; Sample.C]).
Proof.
  apply (@C4_parts_carry_slice_and_names Sample.users_path Sample.users_doc []
           [Sample.A; Sample.B; Sample.C]).
  - reflexivity.
  - vm_compute. reflexivity.
  - reflexivity.
  - vm_compute. reflexivity.
Defined.

(** C4 as stated fails on a document whose endpoint carries markup: the
    first part is the slice of the first two endpoints, but its file holds
    the endpoint with the markup removed, not the endpoint of the slice. *)
Lemma C4_counterexample :
  truthy (get_endpoints Sample.tagged_doc) = true
  /\ (KB_LIMIT < byte_len (Json.dumps (JDict Sample.tagged_doc)))%Z
  /\ (exists rest,
        split_parts Sample.tagged_doc [Sample.T; Sample.B; Sample.C]
        = [Sample.T; Sample.B] :: rest)
  /\ run_names (split_if_large Sample.users_path Sample.tagged_doc [])
     = Some Sample.users_names
  /\ run_file "clean/resources/users.part1.json"
       (split_if_large Sample.users_path Sample.tagged_doc [])
     = Some (Json.dumps
               (JDict (final_obj Sample.tagged_doc Sample.users_names
                         [Sample.T_clean; Sample.B])))
  /\ run_file "clean/resources/users.part1.json"
       (split_if_large Sample.users_path Sample.tagged_doc [])
     <> Some (Json.dumps
                (JDict (final_obj Sample.tagged_doc Sample.users_names
                          [Sample.T; Sample.B])))
  /\ Sample.T_clean <> Sample.T.
Proof.
  split; [reflexivity|].
  split; [vm_compute; reflexivity|].
  split.
  { change [Sample.T; Sample.B]
      with (firstn 2 [Sample.T; Sample.B; Sample.C]).
    apply (@RunFacts.first_part _ [Sample.T; Sample.B; Sample.C] 2 [1]);
      [vm_compute; reflexivity | apply SplitFacts.split_parts_concat]. }
  split; [vm_compute; reflexivity|].
  split; [apply RunFacts.text_is_true; vm_compute; reflexivity|].
  split; [apply RunFacts.text_is_false; vm_compute; reflexivity|].
  intros H.
  apply (f_equal (fun v => match v with
                           | JDict (_ :: _ :: (_, JStr n) :: _) => n
                           | _ => EmptyString
                           end)) in H.
  discriminate H.
Qed.

(** C1 at a document of three endpoints of which the first two measure
    exactly [KB_LIMIT] together: the scan keeps them in one part, and the
    part file, which also carries the [parts] list, is 65 bytes over the
    limit. *)
Theorem C1_two_endpoint_part_over_limit :
  (KB_LIMIT < byte_len (Json.dumps (JDict Sample.users_doc)))%Z
  /\ (exists rest,
        split_parts Sample.users_doc [Sample.A; Sample.B; Sample.C]
        = [Sample.A; Sample.B] :: rest)
  /\ size_of_eps Sample.users_doc [Sample.A; Sample.B] = KB_LIMIT
  /\ run_names (split_if_large Sample.users_path Sample.users_doc [])
     = Some Sample.users_names
  /\ run_file "clean/resources/users.part1.json"
       (split_if_large Sample.users_path Sample.users_doc [])
     = Some (Json.dumps
               (JDict (final_obj Sample.users_doc Sample.users_names
                         [Sample.A; Sample.B])))
  /\ byte_len (Json.dumps
                 (JDict (final_obj Sample.users_doc Sample.users_names
                           [Sample.A; Sample.B])))
     = (KB_LIMIT + 65)%Z.
Proof.
  split; [vm_compute; reflexivity|].
  split.
  { change [Sample.A; Sample.B]
      with (firstn 2 [Sample.A; Sample.B; Sample.C]).
    apply (@RunFacts.first_part _ [Sample.A; Sample.B; Sample.C] 2 [1]);
      [vm_compute; reflexivity | apply SplitFacts.split_parts_concat]. }
  split; [vm_compute; reflexivity|].
  split; [vm_compute; reflexivity|].
  split; [apply RunFacts.text_is_true; vm_compute; reflexivity|].
  vm_compute; reflexivity.
Qed.

(** C2 at a document with one endpoint that is over the limit on its own:
    the scan makes one part of that endpoint, but the part file, from which
    [write_json] has removed the text between a [<] in one string and a [>]
    in a later one, does not decode when the second loop reads it back, and
    the call raises. *)
Theorem C2_single_oversized_endpoint_reread_fails :
  get_endpoints Sample.big_doc = JList [Sample.big_endpoint]
  /\ (KB_LIMIT < size_of_eps Sample.big_doc [Sample.big_endpoint])%Z
  /\ split_parts Sample.big_doc [Sample.big_endpoint] = [[Sample.big_endpoint]]
  /\ split_if_large Sample.users_path Sample.big_doc [] = Raise JSONDecodeError.
Proof.
  split; [reflexivity|].
  split; [vm_compute; reflexivity|].
  split; [apply RunFacts.split_parts_single|].
  vm_compute; reflexivity.
Qed.

(* ================================================================= *)
(** ** The block extractor *)

Module BlockFacts.

Lemma heading_level_range name level :
  heading_level name = Some level -> 2 <= level <= 6.
Proof.
  unfold heading_level.
  repeat match goal with
         | |- (if ?c then _ else _) = _ -> _ => destruct c
         end; intros [= <-]; lia.
Qed.

Lemma element_body_ok el b : element_body el = Some b -> body_ok b.
Proof.
  unfold element_body.
  destruct (heading_level _) as [level|] eqn:Hl.
  - intros [= <-]. cbn [body_ok]. now apply heading_level_range in Hl.
  - destruct (detect_callout _ _ _) as [[v t] r].
    repeat match goal with
           | |- (if ?c then _ else _) = _ -> _ => destruct c
           | |- match ?o with Some _ => _ | None => _ end = _ -> _ => destruct o
           end; intros [= <-]; exact I.
Qed.

Lemma numbered_snoc k bs b :
  numbered k bs ->
  order b = k + List.length bs ->
  block_id b = base_id (body b) (k + List.length bs) ->
  body_ok (body b) ->
  numbered k (bs ++ [b]).
Proof.
  unfold numbered. intros H Ho Hi Hb.
  rewrite length_app, seq_app. cbn [List.length seq].
  apply Forall2_app; [exact H|]. constructor; [|constructor]. auto.
Qed.

Lemma handle_element_numbered el bs :
  numbered 1 bs ->
  let st := handle_element el (bs, S (List.length bs)) in
  numbered 1 (fst st) /\ snd st = S (List.length (fst st)).
Proof.
  intros H. unfold handle_element.
  destruct (element_body el) as [b|] eqn:Hb; cbn [push_block fst snd].
  - split.
    + apply numbered_snoc; cbn [order block_id body]; auto.
      now apply element_body_ok in Hb.
    + rewrite length_app. cbn [List.length]. lia.
  - auto.
Qed.

Lemma handle_all_numbered nodes : forall bs,
  numbered 1 bs ->
  numbered 1 (fst (handle_all nodes (bs, S (List.length bs)))).
Proof.
  induction nodes as [|child rest IH]; intros bs H; cbn [handle_all].
  - exact H.
  - destruct (Soup.name_of child); [|now apply IH].
    destruct (handle_element_numbered child H) as [H1 H2].
    destruct (handle_element child (bs, S (List.length bs))) as [bs' n'].
    cbn [fst snd] in H1, H2. subst n'. now apply IH.
Qed.

Lemma html_to_blocks_numbered soup : numbered 1 (html_to_blocks soup).
Proof.
  unfold html_to_blocks.
  apply (handle_all_numbered (Soup.decompose_all soup) (bs:=[])). constructor.
Qed.

Lemma numbered_orders k bs : numbered k bs -> List.map order bs = seq k (List.length bs).
Proof.
  unfold numbered. remember (seq k (List.length bs)) as idxs eqn:E.
  intros H. clear E. induction H as [|i b idxs bs (Ho & _) _ IH]; cbn [List.map];
    [reflexivity | now rewrite Ho, IH].
Qed.

Lemma numbered_nth k bs i b :
  numbered k bs -> nth_error bs i = Some b ->
  order b = k + i /\ block_id b = base_id (body b) (k + i) /\ body_ok (body b).
Proof.
  unfold numbered. revert k i.
  induction bs as [|b0 bs IH]; intros k i H Hn; [destruct i; discriminate|].
  cbn [List.length seq] in H. apply Forall2_cons_iff in H as [(Ho & Hi & Hb) Hrest].
  destruct i as [|i]; cbn [nth_error] in Hn.
  - injection Hn as <-. rewrite Nat.add_0_r. auto.
  - destruct (IH (S k) i Hrest Hn) as (Ho' & Hi' & Hb').
    rewrite Nat.add_succ_r. auto.
Qed.

Lemma type_of_not_h b o s : is_heading b = false -> base_id b o <> String "h" s.
Proof. destruct b; cbn; intros; discriminate. Qed.

(** Two blocks of different orders have the same identifier only when both
    are headings of the same level and slug. *)
Lemma base_id_clash b1 o1 b2 o2 :
  body_ok b1 -> body_ok b2 -> o1 <> o2 ->
  base_id b1 o1 = base_id b2 o2 ->
  exists key, heading_key b1 = Some key /\ heading_key b2 = Some key.
Proof.
  intros H1 H2 Ho E.
  destruct (is_heading b1) eqn:T1; destruct (is_heading b2) eqn:T2.
  - destruct b1 as [l1 t1 s1 d1| | | | | | |]; try discriminate.
    destruct b2 as [l2 t2 s2 d2| | | | | | |]; try discriminate.
    cbn [body_ok] in H1, H2. cbn [base_id heading_key] in *.
    assert (L1 : l1 = 2 \/ l1 = 3 \/ l1 = 4 \/ l1 = 5 \/ l1 = 6) by lia.
    assert (L2 : l2 = 2 \/ l2 = 3 \/ l2 = 4 \/ l2 = 5 \/ l2 = 6) by lia.
    destruct L1 as [-> | [-> | [-> | [-> | ->]]]];
      destruct L2 as [-> | [-> | [-> | [-> | ->]]]];
      cbn in E; try discriminate E;
      injection E as E; rewrite E; eexists; split; reflexivity.
  - exfalso. destruct b1 as [l1 t1 s1 d1| | | | | | |]; try discriminate.
    symmetry in E. revert E. cbn [base_id String.append]. now apply type_of_not_h.
  - exfalso. destruct b2 as [l2 t2 s2 d2| | | | | | |]; try discriminate.
    revert E. cbn [base_id String.append]. now apply type_of_not_h.
  - exfalso. apply Ho.
    destruct b1; try discriminate; destruct b2; try discriminate;
      cbn [base_id type_of String.append] in E; try discriminate E;
      injection E as E; apply FsFacts.append_inv_head with (a := "-") in E
      || idtac; now apply FsFacts.nat_str_inj.
Qed.

End BlockFacts.

(** C5, as the code has it: in the block sequence of one fragment the
    [order] values are exactly 1..N in document order, and two different
    blocks have the same [block_id] only when both are headings of the same
    level and the same slug; such headings do share it. *)
Theorem C5_order_and_block_id (soup : list node) :
  let bs := html_to_blocks soup in
  List.map order bs = seq 1 (List.length bs)
  /\ (forall i j bi bj,
        nth_error bs i = Some bi -> nth_error bs j = Some bj -> i <> j ->
        block_id bi = block_id bj ->
        exists key,
          heading_key (body bi) = Some key /\ heading_key (body bj) = Some key)
  /\ (forall i j bi bj key,
        nth_error bs i = Some bi -> nth_error bs j = Some bj ->
        heading_key (body bi) = Some key -> heading_key (body bj) = Some key ->
        block_id bi = block_id bj).
Proof.
  cbn zeta. pose proof (BlockFacts.html_to_blocks_numbered soup) as H.
  split; [now apply BlockFacts.numbered_orders|]. split.
  - intros i j bi bj Hi Hj Hne E.
    destruct (@BlockFacts.numbered_nth 1 _ i bi H Hi) as (_ & Ei & Bi).
    destruct (@BlockFacts.numbered_nth 1 _ j bj H Hj) as (_ & Ej & Bj).
    rewrite Ei, Ej in E.
    apply (@BlockFacts.base_id_clash _ (1 + i) _ (1 + j)); auto; lia.
  - intros i j bi bj key Hi Hj Ki Kj.
    destruct (@BlockFacts.numbered_nth 1 _ i bi H Hi) as (_ & -> & _).
    destruct (@BlockFacts.numbered_nth 1 _ j bj H Hj) as (_ & -> & _).
    destruct (body bi); try discriminate. destruct (body bj); try discriminate.
    cbn [heading_key base_id] in *. injection Ki as <-. injection Kj as E1 E2.
    now rewrite E1, E2.
Qed.

(** C5 as stated fails on a fragment that repeats a heading: the first and
    the third block both get the identifier [h2-setup]. *)
Lemma C5_counterexample :
  List.map block_id (html_to_blocks Markup.repeated_heading)
  = ["h2-setup"; "paragraph-2"; "h2-setup"]
  /\ ~ NoDup (List.map block_id (html_to_blocks Markup.repeated_heading)).
Proof.
  assert (E : List.map block_id (html_to_blocks Markup.repeated_heading)
              = ["h2-setup"; "paragraph-2"; "h2-setup"]) by (vm_compute; reflexivity).
  split; [exact E|]. rewrite E. intros H.
  inversion H as [|x l Hnotin _]; subst. apply Hnotin. right. now left.
Qed.

Module CalloutFacts.

Lemma detect_first_match pre prefix variant post text runs :
  (forall q, In q pre -> Str.startswith (fst q) (Str.lower text) = false) ->
  Str.startswith prefix (Str.lower text) = true ->
  detect_callout (pre ++ (prefix, variant) :: post) text runs
  = (Some variant,
     Str.lstrip (Str.drop (String.length prefix) text),
     strip_first_run prefix runs).
Proof.
  intros Hpre Hp. induction pre as [|[p v] pre IH]; cbn [app detect_callout].
  - now rewrite Hp.
  - pose proof (Hpre (p, v) (or_introl eq_refl)) as Hpv. cbn [fst] in Hpv.
    rewrite Hpv. apply IH. intros q Hq. apply Hpre. now right.
Qed.

Lemma element_body_p tag attrs contents :
  Str.lower tag = "p" ->
  element_body (Elem tag attrs contents)
  = let '(callout_variant, text, runs) :=
      detect_callout callout_prefixes
        (_node_to_text (Elem tag attrs contents))
        (_inline_runs (Elem tag attrs contents)) in
    match callout_variant with
    | Some variant => Some (Callout variant text runs)
    | None => if Str.is_empty text then None else Some (Paragraph text runs)
    end.
Proof.
  intros H. unfold element_body. cbn [Soup.name_of]. rewrite H. reflexivity.
Qed.

(** A text that starts with [warning:] starts with neither [note:] nor
    [note :]. *)
Lemma warning_not_note s :
  Str.startswith "warning:" s = true ->
  Str.startswith "note:" s = false /\ Str.startswith "note :" s = false.
Proof.
  destruct s as [|c s]; [discriminate|]. cbn [Str.startswith].
  destruct (Ascii.eqb_spec "w" c) as [<-|]; [|discriminate].
  intros _. split; reflexivity.
Qed.

End CalloutFacts.

(** C6, as the code has it: a paragraph whose text starts with [warning:],
    compared in lower case, becomes a [Callout] of variant [warning]; its
    text is the text with these leading eight characters and the white
    space after them removed (a later occurrence of the prefix stays); the
    same is done to the text of the first run exactly when that run starts
    with the prefix in lower case; and the five prefixes are tried in the
    order note:, note :, warning:, tip:, caution:, the first that matches
    deciding the variant. *)
Theorem C6_callout_prefix
    (tag : string) (attrs : list (string * string)) (contents : list node) :
  Str.lower tag = "p" ->
  let el := Elem tag attrs contents in
  let text := _node_to_text el in
  let runs := _inline_runs el in
  (Str.startswith "warning:" (Str.lower text) = true ->
   element_body el
   = Some (Callout "warning" (Str.lstrip (Str.drop 8 text))
             (strip_first_run "warning:" runs)))
  /\ (forall prefix r rest,
        strip_first_run prefix (r :: rest)
        = if Str.startswith prefix (Str.lower (run_text r))
          then Run (Str.lstrip (Str.drop (String.length prefix) (run_text r)))
                 (run_link r) (run_code r) :: rest
          else r :: rest)
  /\ callout_prefixes
     = [("note:", "note"); ("note :", "note"); ("warning:", "warning");
        ("tip:", "tip"); ("caution:", "caution")]
  /\ (forall pre prefix variant post,
        callout_prefixes = pre ++ (prefix, variant) :: post ->
        (forall q, In q pre -> Str.startswith (fst q) (Str.lower text) = false) ->
        Str.startswith prefix (Str.lower text) = true ->
        element_body el
        = Some (Callout variant
                  (Str.lstrip (Str.drop (String.length prefix) text))
                  (strip_first_run prefix runs))).
Proof.
  intros Hp el text runs.
  assert (Hgen : forall pre prefix variant post,
             callout_prefixes = pre ++ (prefix, variant) :: post ->
             (forall q, In q pre -> Str.startswith (fst q) (Str.lower text) = false) ->
             Str.startswith prefix (Str.lower text) = true ->
             element_body el
             = Some (Callout variant
                       (Str.lstrip (Str.drop (String.length prefix) text))
                       (strip_first_run prefix runs))).
  { intros pre prefix variant post E Hpre Hm.
    unfold el. rewrite (@CalloutFacts.element_body_p tag attrs contents Hp).
    fold el. fold text. fold runs. rewrite E.
    now rewrite (@CalloutFacts.detect_first_match pre prefix variant post text runs Hpre Hm). }
  split; [|split; [reflexivity | split; [reflexivity | exact Hgen]]].
  intros Hw.
  apply (Hgen [("note:", "note"); ("note :", "note")] "warning:" "warning"
           [("tip:", "tip"); ("caution:", "caution")]); [reflexivity | | exact Hw].
  destruct (@CalloutFacts.warning_not_note _ Hw) as [H1 H2].
  intros q [<- | [<- | []]]; assumption.
Qed.

Lemma C6_callout_prefix_witness :
  element_body Markup.bold_warning
  = Some (Callout "warning" "hot surface"
            [Run "" None false; Run "hot surface" None false]).
Proof.
  refine (eq_trans
            (proj1 (@C6_callout_prefix "p" []
                      [Elem "b" [] [Text "Warning:"]; Text " hot surface"]
                      eq_refl) _) _).
  - vm_compute. reflexivity.
  - vm_compute. reflexivity.
Defined.

(** C6 as stated fails on a paragraph that repeats the prefix: the text of
    the callout still contains [warning:]. *)
Lemma C6_counterexample :
  Str.startswith "warning:" (Str.lower (_node_to_text Markup.double_warning)) = true
  /\ element_body Markup.double_warning
     = Some (Callout "warning" "warning: hot surface"
               [Run "warning: hot surface" None false])
  /\ Str.contains "warning:" (Str.lower "warning: hot surface") = true.
Proof. repeat split; vm_compute; reflexivity. Qed.

(** A no-break space is white space to [_collapse_ws], [strip()] and
    [lstrip()]: after the prefix it is trimmed, inside the text it becomes
    a space, and before the prefix it does not hide it. *)
Lemma callout_no_break_space :
  element_body Markup.nbsp_warning
  = Some (Callout "warning" "hot surface" [Run "hot surface" None false])
  /\ element_body Markup.nbsp_before_warning
     = Some (Callout "warning" "hot surface" [Run "hot surface" None false]).
Proof. split; vm_compute; reflexivity. Qed.

Module ListFacts.

(** Whatever the walk over the live contents skips, it never moves a list
    into the container: a list nested in a nested list reaches no text. *)
Lemma move_children_no_list fuel : forall contents pos container,
  Forall (fun n => is_list_node n = false) container ->
  Forall (fun n => is_list_node n = false)
    (snd (move_children fuel contents pos container)).
Proof.
  induction fuel as [|fuel IH]; intros contents pos container H;
    cbn [move_children]; [exact H|].
  destruct (nth_error contents pos) as [sn|]; [|exact H].
  destruct (is_list_node sn) eqn:E; apply IH; [exact H|].
  apply Forall_app. split; [exact H|]. now constructor.
Qed.

Lemma sub_container_no_list sub_li :
  Forall (fun n => is_list_node n = false) (Soup.children (sub_container sub_li)).
Proof. apply move_children_no_list. constructor. Qed.

End ListFacts.

(** C7 at a list whose nested item has several inline nodes: the nested
    list is kept as [children] and the list nested in it appears nowhere,
    but the walk over the live contents of the nested item skips the node
    after each node it moves, so the text and runs of the item lose the
    strings [the] and [id]; the inline nodes of the item read
    [`id` the record id]. *)
Theorem C7_nested_item_loses_nodes :
  html_to_blocks Markup.nested_list
  = [Block
       (BList "unordered" None
          [ListItem "Fields" [Run "Fields" None false]
             (Some
                [ChildList "unordered" None
                   [SubItem "`id` record"
                      [Run "id" None true; Run "record" None false]]])])
       "list-1" 1]
  /\ _node_to_text
       (Elem "span" []
          [Elem "code" [] [Text "id"]; Text " the ";
           Elem "b" [] [Text "record"]; Text " id"])
     = "`id` the record id".
Proof. split; vm_compute; reflexivity. Qed.

Module SectionFacts.

(** The slug of a section: the [id] attribute when it is not empty, else the
    slug of the title when that is not empty, else [section-<n>], counted
    from 1. *)
Lemma section_slug_chain idx h1 :
  section_slug idx h1
  = if negb (Str.is_empty (Soup.get_or_empty "id" h1))
    then Soup.get_or_empty "id" h1
    else if negb (Str.is_empty (_slugify (Soup.get_text "" false h1)))
         then _slugify (Soup.get_text "" false h1)
         else "section-" +++ nat_str (idx + 1).
Proof. reflexivity. Qed.

(** The sections of the [h1] tags are numbered from [idx] on. *)
Lemma h1_sections_nth idx tags : forall i h1 sibs,
  nth_error tags i = Some (h1, sibs) ->
  option_map sec_slug (nth_error (h1_sections idx tags) i)
  = Some (section_slug (idx + i) h1).
Proof.
  revert idx. induction tags as [|[h s] tags IH]; intros idx i h1 sibs H;
    [destruct i; discriminate|].
  destruct i as [|i]; cbn [nth_error h1_sections option_map] in *.
  - injection H as -> _. now rewrite Nat.add_0_r.
  - rewrite (IH (S idx) i h1 sibs H). f_equal. f_equal. lia.
Qed.

End SectionFacts.

(** C8 at a page whose [h1] reads [GET /contacts/]: the slug of the
    section, from [_slugify], keeps the hyphen that stands for the final
    slash, where [slugify] of [build_split.py] trims it. *)
Theorem C8_slug_keeps_edge_hyphen :
  List.map sec_slug (extract_sections_from_html Markup.contacts_page)
  = ["get-contacts-"]
  /\ _slugify "GET /contacts/" = "get-contacts-"
  /\ slugify "GET /contacts/" = "get-contacts".
Proof. repeat split; vm_compute; reflexivity. Qed.

(* ================================================================= *)
(** ** [json.loads] inverts [json.dumps] *)

Module LoadsFacts.
Import Loads.

Lemma scan_string_escape_char c tail :
  scan_string (Json.escape_char c +++ tail) = cons_result c (scan_string tail).
Proof.
  destruct c as [[] [] [] [] [] [] [] []]; reflexivity.
Qed.

(** A string literal is read back as the string. *)
Lemma scan_string_escape s rest :
  scan_string (Json.escape s +++ Json.quote +++ rest) = Some (s, rest).
Proof.
  induction s as [|c s IH]; cbn [Json.escape].
  - reflexivity.
  - rewrite StrFacts.append_assoc, scan_string_escape_char, IH. reflexivity.
Qed.

Lemma ends_number_scan_digits acc rest :
  ends_number rest = true -> scan_digits acc rest = (acc, rest).
Proof.
  destruct rest as [|c rest]; [reflexivity|].
  cbn [ends_number scan_digits]. intros H. apply andb_true_iff in H as [H _].
  now destruct (is_digit c).
Qed.

Lemma ends_number_not_float rest : ends_number rest = true -> starts_float rest = false.
Proof.
  destruct rest as [|c rest]; [reflexivity|].
  cbn [ends_number]. intros H. apply andb_true_iff in H as [_ H].
  now destruct (starts_float (String c rest)).
Qed.

(** The digits of a decimal number are folded back into its value. *)
Lemma scan_digits_uint d : forall acc rest,
  ends_number rest = true ->
  scan_digits (Zpos acc) (NilEmpty.string_of_uint d +++ rest)
  = (Zpos (Pos.of_uint_acc d acc), rest).
Proof.
  induction d; intros acc rest Hr;
    cbn [NilEmpty.string_of_uint String.append Pos.of_uint_acc];
    [now apply ends_number_scan_digits | ..];
    cbn [scan_digits is_digit]; rewrite <- IHd by exact Hr; f_equal.
  all: match goal with
       | |- context [Z.of_nat ?n] =>
           let v := eval vm_compute in (Z.of_nat n) in
           change (Z.of_nat n) with v
       end; lia.
Qed.

Lemma to_uint_head p :
  exists c s, NilEmpty.string_of_uint (Pos.to_uint p) = String c s
              /\ is_digit c = true /\ Ascii.eqb c "0" = false
              /\ forall rest, ends_number rest = true ->
                   scan_digits 0%Z (String c s +++ rest) = (Zpos p, rest).
Proof.
  pose proof (DecimalPos.Unsigned.of_to p) as Hof.
  pose proof (DecimalPos.Unsigned.to_of (Pos.to_uint p)) as Hto.
  rewrite Hof in Hto. cbn [N.to_uint] in Hto.
  pose proof (DecimalPos.Unsigned.to_uint_nonnil p) as Hnn.
  destruct (Pos.to_uint p) as [|d|d|d|d|d|d|d|d|d|d] eqn:E; [congruence | ..].
  1: { exfalso. unfold Decimal.unorm in Hto. cbn [Decimal.nzhead] in Hto.
       destruct (Decimal.nzhead d) as [|d'|d'|d'|d'|d'|d'|d'|d'|d'|d'] eqn:En;
         try discriminate Hto.
       - injection Hto as Hd. subst d.
         now apply (DecimalPos.Unsigned.to_uint_nonzero p).
       - now apply (DecimalFacts.nzhead_nonzero d d'). }
  all: eexists _, _; split; [reflexivity|]; split; [reflexivity|];
    split; [reflexivity|]; intros rest Hr;
    cbn [String.append scan_digits is_digit];
    cbn [Pos.of_uint] in Hof; injection Hof as Hof; rewrite <- Hof;
    rewrite <- (@scan_digits_uint d _ rest Hr); f_equal.
Qed.

(** A serialized integer is read back as the integer. *)
Lemma scan_int_encode_int z rest :
  ends_number rest = true ->
  scan_int (Json.encode_int z +++ rest) = Some (z, rest).
Proof.
  intros Hr. unfold Json.encode_int.
  destruct z as [|p|p]; cbn [Z.to_int NilZero.string_of_int].
  - cbn. now rewrite (@ends_number_not_float _ Hr).
  - destruct (to_uint_head p) as (c & s & E & Hd & H0 & Hs).
    unfold NilZero.string_of_uint.
    destruct (Pos.to_uint p) eqn:Ep;
      [now apply DecimalPos.Unsigned.to_uint_nonnil in Ep | ..];
      rewrite E; cbn [String.append scan_int];
      (destruct (Ascii.eqb_spec c "-") as [->|_]; [discriminate Hd|]);
      cbn [scan_nat]; rewrite H0, Hd;
      change (String c (s +++ rest)) with (String c s +++ rest);
      rewrite (Hs _ Hr), (@ends_number_not_float _ Hr); reflexivity.
  - destruct (to_uint_head p) as (c & s & E & Hd & H0 & Hs).
    unfold NilZero.string_of_uint.
    destruct (Pos.to_uint p) eqn:Ep;
      [now apply DecimalPos.Unsigned.to_uint_nonnil in Ep | ..];
      rewrite E; cbn [String.append scan_int Ascii.eqb Bool.eqb];
      cbn [scan_nat]; rewrite H0, Hd;
      change (String c (s +++ rest)) with (String c s +++ rest);
      rewrite (Hs _ Hr), (@ends_number_not_float _ Hr); reflexivity.
Qed.

Lemma skip_ws_value s : starts_value s = true -> skip_ws s = s.
Proof.
  destruct s as [|c s]; [discriminate|]. cbn [starts_value skip_ws].
  intros H. apply andb_true_iff in H as [H _]. now destruct (is_ws c).
Qed.

Lemma skip_ws_indent n s : skip_ws (Str.repeat "  " n +++ s) = skip_ws s.
Proof.
  induction n as [|n IH];
    cbn [Str.repeat String.append skip_ws is_ws Ascii.eqb Bool.eqb orb andb];
    [reflexivity | exact IH].
Qed.

Lemma skip_ws_newline_indent n s :
  skip_ws (Json.newline_indent n +++ s) = skip_ws s.
Proof.
  unfold Json.newline_indent, Json.newline.
  cbn [String.append skip_ws is_ws Ascii.eqb Bool.eqb orb andb].
  apply skip_ws_indent.
Qed.

Lemma ends_number_newline_indent n s :
  ends_number (Json.newline_indent n +++ s) = true.
Proof. reflexivity. Qed.

Lemma weight_list l : weight (JList l) = S (list_weight l).
Proof. reflexivity. Qed.

Lemma weight_dict d : weight (JDict d) = S (dict_weight d).
Proof. reflexivity. Qed.

Lemma encode_list level x r :
  Json.encode level (JList (x :: r))
  = "[" +++ Json.newline_indent (S level)
    +++ Str.join (item_sep (S level)) (List.map (Json.encode (S level)) (x :: r))
    +++ Json.newline_indent level +++ "]".
Proof. reflexivity. Qed.

Lemma encode_dict level kv r :
  Json.encode level (JDict (kv :: r))
  = "{" +++ Json.newline_indent (S level)
    +++ Str.join (item_sep (S level)) (List.map (member_text (S level)) (kv :: r))
    +++ Json.newline_indent level +++ "}".
Proof. reflexivity. Qed.

(** The first character of a serialized integer. *)
Lemma encode_int_head z :
  exists c s, Json.encode_int z = String c s
              /\ (is_digit c = true \/ c = "-"%char).
Proof.
  unfold Json.encode_int. destruct z as [|p|p]; cbn [Z.to_int NilZero.string_of_int].
  - eexists _, _. split; [reflexivity | now left].
  - destruct (to_uint_head p) as (c & s & E & Hd & _).
    exists c, s. split; [|now left].
    unfold NilZero.string_of_uint.
    destruct (Pos.to_uint p); [discriminate E | ..]; exact E.
  - eexists _, _. split; [reflexivity | now right].
Qed.

Lemma number_head_dispatch c s fuel :
  is_digit c = true \/ c = "-"%char ->
  parse_value (S fuel) (String c s)
  = match scan_int (String c s) with
    | Some (z, rest) => Some (JInt z, rest)
    | None => None
    end.
Proof.
  intros [H | ->]; [|reflexivity].
  destruct c as [[] [] [] [] [] [] [] []]; try discriminate H; reflexivity.
Qed.

Lemma number_head_value c s :
  is_digit c = true \/ c = "-"%char -> starts_value (String c s) = true.
Proof.
  intros [H | ->]; [|reflexivity].
  destruct c as [[] [] [] [] [] [] [] []]; try discriminate H; reflexivity.
Qed.

(** A serialized value starts with neither white space nor [\]]. *)
Lemma encode_starts_value level v rest :
  starts_value (Json.encode level v +++ rest) = true.
Proof.
  destruct v as [| [] | z | s | [|x r] | [|kv r]]; try reflexivity.
  cbn [Json.encode].
  destruct (encode_int_head z) as (c & s & -> & H).
  cbn [String.append]. now apply number_head_value.
Qed.

Lemma parse_elems_step fuel s :
  parse_elems (S fuel) s
  = match parse_value fuel s with
    | Some (v, rest) =>
        match skip_ws rest with
        | String c r1 =>
            if Ascii.eqb c "]" then Some ([v], r1)
            else if Ascii.eqb c "," then
              match parse_elems fuel (skip_ws r1) with
              | Some (l, rest') => Some (v :: l, rest')
              | None => None
              end
            else None
        | EmptyString => None
        end
    | None => None
    end.
Proof. reflexivity. Qed.

Lemma parse_value_list fuel s :
  parse_value (S fuel) (String "[" s)
  = match skip_ws s with
    | String c1 s1 =>
        if Ascii.eqb c1 "]" then Some (JList [], s1)
        else
          match parse_elems fuel (String c1 s1) with
          | Some (l, rest) => Some (JList l, rest)
          | None => None
          end
    | EmptyString => None
    end.
Proof. reflexivity. Qed.

Lemma join_cons sep x l tail :
  exists tail', Str.join sep (x :: l) +++ tail = x +++ tail'
                /\ tail' = match l with
                           | [] => tail
                           | _ => sep +++ Str.join sep l +++ tail
                           end.
Proof.
  destruct l as [|y l]; cbn [Str.join].
  - now exists tail.
  - eexists. split; [|reflexivity]. now rewrite !StrFacts.append_assoc.
Qed.

Lemma join_encode_starts_value sep level x l tail :
  starts_value
    (Str.join sep (List.map (Json.encode level) (x :: l)) +++ tail) = true.
Proof.
  cbn [List.map].
  destruct (join_cons sep (Json.encode level x) (List.map (Json.encode level) l) tail)
    as (tail' & -> & _).
  apply encode_starts_value.
Qed.

(** The items of a list, up to the closing bracket. *)
Lemma parse_elems_ok level l :
  Forall decodes l -> l <> [] ->
  forall fuel rest,
    list_weight l <= fuel ->
    parse_elems fuel
      (Str.join (item_sep (S level)) (List.map (Json.encode (S level)) l)
       +++ Json.newline_indent level +++ String "]" rest)
    = Some (l, rest).
Proof.
  induction 1 as [|x r Hx Hr IH]; [congruence|].
  intros _ fuel rest Hw. cbn [list_weight fold_right] in Hw. fold (list_weight r) in Hw.
  destruct fuel as [|fuel]; [lia|].
  rewrite parse_elems_step. cbn [List.map].
  destruct (join_cons (item_sep (S level)) (Json.encode (S level) x)
              (List.map (Json.encode (S level)) r)
              (Json.newline_indent level +++ String "]" rest)) as (tail & -> & Et).
  destruct r as [|y r]; cbn [List.map] in Et; subst tail.
  - rewrite (Hx (S level) fuel); [| lia | reflexivity].
    rewrite skip_ws_newline_indent. reflexivity.
  - rewrite (Hx (S level) fuel); [| lia | reflexivity].
    unfold item_sep at 1.
    cbn [String.append skip_ws is_ws Ascii.eqb Bool.eqb orb andb].
    rewrite skip_ws_newline_indent.
    rewrite skip_ws_value by apply (join_encode_starts_value _ _ y r).
    change (Json.encode (S level) y :: List.map (Json.encode (S level)) r)
      with (List.map (Json.encode (S level)) (y :: r)).
    rewrite IH; [reflexivity | discriminate | lia].
Qed.

Lemma parse_members_step fuel s :
  parse_members (S fuel) s
  = match scan_string s with
    | Some (key, r0) =>
        match skip_ws r0 with
        | String c r1 =>
            if Ascii.eqb c ":" then
              match parse_value fuel (skip_ws r1) with
              | Some (v, r2) =>
                  match skip_ws r2 with
                  | String c2 r3 =>
                      if Ascii.eqb c2 "}" then Some ([(key, v)], r3)
                      else if Ascii.eqb c2 "," then
                        match skip_ws r3 with
                        | String c3 r4 =>
                            if Ascii.eqb c3 "034" then
                              match parse_members fuel r4 with
                              | Some (d, rest') => Some ((key, v) :: d, rest')
                              | None => None
                              end
                            else None
                        | EmptyString => None
                        end
                      else None
                  | EmptyString => None
                  end
              | None => None
              end
            else None
        | EmptyString => None
        end
    | None => None
    end.
Proof. reflexivity. Qed.

Lemma parse_value_dict fuel s :
  parse_value (S fuel) (String "{" s)
  = match skip_ws s with
    | String c1 s1 =>
        if Ascii.eqb c1 "}" then Some (JDict [], s1)
        else if Ascii.eqb c1 "034" then
          match parse_members fuel s1 with
          | Some (d, rest) => Some (JDict d, rest)
          | None => None
          end
        else None
    | EmptyString => None
    end.
Proof. reflexivity. Qed.

Lemma member_text_split level k v tail :
  member_text level (k, v) +++ tail
  = String "034" (Json.escape k +++ Json.quote
                  +++ String ":" (String " " (Json.encode level v +++ tail))).
Proof.
  unfold member_text, Json.encode_str. cbn [fst snd Json.quote String.append].
  now rewrite !StrFacts.append_assoc.
Qed.

(** The members of a dict, from the first key to the closing brace. *)
Lemma parse_members_ok level d :
  Forall (fun kv => decodes (snd kv)) d -> d <> [] ->
  forall fuel rest,
    dict_weight d <= fuel ->
    exists s1,
      Str.join (item_sep (S level)) (List.map (member_text (S level)) d)
      +++ Json.newline_indent level +++ String "}" rest
      = String "034" s1
      /\ parse_members fuel s1 = Some (d, rest).
Proof.
  induction 1 as [|[k v] r Hx Hr IH]; [congruence|].
  intros _ fuel rest Hw. cbn [dict_weight fold_right snd] in Hw.
  fold (dict_weight r) in Hw. cbn [snd] in Hx.
  destruct fuel as [|fuel]; [lia|].
  cbn [List.map].
  destruct (join_cons (item_sep (S level)) (member_text (S level) (k, v))
              (List.map (member_text (S level)) r)
              (Json.newline_indent level +++ String "}" rest)) as (tail & -> & Et).
  rewrite member_text_split. eexists. split; [reflexivity|].
  rewrite parse_members_step, scan_string_escape.
  cbn [skip_ws is_ws Ascii.eqb Bool.eqb orb andb].
  rewrite skip_ws_value by apply encode_starts_value.
  destruct r as [|y r]; cbn [List.map] in Et; subst tail.
  - rewrite (Hx (S level) fuel); [| lia | reflexivity].
    rewrite skip_ws_newline_indent. reflexivity.
  - rewrite (Hx (S level) fuel); [| lia | reflexivity].
    unfold item_sep at 1.
    cbn [String.append skip_ws is_ws Ascii.eqb Bool.eqb orb andb].
    rewrite skip_ws_newline_indent.
    change (member_text (S level) y :: List.map (member_text (S level)) r)
      with (List.map (member_text (S level)) (y :: r)).
    destruct (IH ltac:(discriminate) fuel rest ltac:(lia)) as (s1 & -> & Hs1).
    cbn [skip_ws is_ws Ascii.eqb Bool.eqb orb andb].
    now rewrite Hs1.
Qed.

Lemma list_dispatch fuel s :
  starts_value s = true ->
  match s with
  | String c1 s1 =>
      if Ascii.eqb c1 "]" then Some (JList [], s1)
      else
        match parse_elems fuel (String c1 s1) with
        | Some (l, rest) => Some (JList l, rest)
        | None => None
        end
  | EmptyString => None
  end
  = match parse_elems fuel s with
    | Some (l, rest) => Some (JList l, rest)
    | None => None
    end.
Proof.
  destruct s as [|c s]; [discriminate|]. cbn [starts_value].
  destruct (Ascii.eqb c "]"); [|reflexivity].
  rewrite andb_false_r. discriminate.
Qed.

(** The decoder reads the serialization of every value back, whatever
    follows it. *)
Theorem decodes_all v : decodes v.
Proof.
  induction v using JsonFacts.json_rect'; intros level fuel rest Hw Hr.
  - destruct fuel; [cbn in Hw; lia | reflexivity].
  - destruct fuel; [cbn in Hw; lia | destruct b; reflexivity].
  - destruct fuel; [cbn in Hw; lia |]. cbn [Json.encode].
    destruct (encode_int_head z) as (c & s & E & H).
    pose proof (@scan_int_encode_int z rest Hr) as Hs. rewrite E in *.
    cbn [String.append] in *.
    rewrite number_head_dispatch by exact H. now rewrite Hs.
  - destruct fuel; [cbn in Hw; lia |]. cbn [Json.encode].
    unfold Json.encode_str. cbn [Json.quote String.append].
    rewrite StrFacts.append_assoc.
    change (parse_value (S fuel) (String "034" ?x))
      with (match scan_string x with
            | Some (str, r) => Some (JStr str, r)
            | None => None
            end).
    now rewrite scan_string_escape.
  - rewrite weight_list in Hw. destruct fuel as [|fuel]; [lia|].
    destruct l as [|x r]; [reflexivity|].
    rewrite encode_list. cbn [String.append]. rewrite !StrFacts.append_assoc.
    cbn [String.append].
    rewrite parse_value_list, skip_ws_newline_indent.
    rewrite skip_ws_value by apply join_encode_starts_value.
    rewrite list_dispatch by apply join_encode_starts_value.
    rewrite (@parse_elems_ok level (x :: r) H ltac:(discriminate) fuel rest);
      [reflexivity | lia].
  - rewrite weight_dict in Hw. destruct fuel as [|fuel]; [lia|].
    destruct d as [|kv r]; [reflexivity|].
    rewrite encode_dict. cbn [String.append]. rewrite !StrFacts.append_assoc.
    cbn [String.append].
    rewrite parse_value_dict, skip_ws_newline_indent.
    destruct (@parse_members_ok level (kv :: r) H ltac:(discriminate) fuel rest
                ltac:(lia)) as (s1 & -> & Hs1).
    cbn [skip_ws is_ws Ascii.eqb Bool.eqb orb andb].
    now rewrite Hs1.
Qed.

(** *** The fuel: the length of the text is enough *)

Lemma length_join_weight (A : Type) (f : A -> string) (w : A -> nat) sep l :
  1 <= String.length sep ->
  Forall (fun x => w x <= String.length (f x)) l ->
  fold_right (fun x n => S (w x + n)) 0 l
  <= S (String.length (Str.join sep (List.map f l))).
Proof.
  intros Hsep. induction 1 as [|x r Hx Hr IH]; cbn [fold_right]; [lia|].
  destruct r as [|y r].
  - cbn [fold_right List.map Str.join]. lia.
  - cbn [List.map Str.join] in *. rewrite !StrFacts.length_append. lia.
Qed.

Lemma length_newline_indent n : 1 <= String.length (Json.newline_indent n).
Proof. unfold Json.newline_indent. cbn. lia. Qed.

Lemma weight_le_length v : forall level,
  weight v <= String.length (Json.encode level v).
Proof.
  induction v using JsonFacts.json_rect'; intros level.
  - cbn. lia.
  - destruct b; cbn; lia.
  - destruct (encode_int_head z) as (c & s & E & _).
    cbn [Json.encode weight]. rewrite E. cbn. lia.
  - cbn. lia.
  - rewrite weight_list. destruct l as [|x r]; [cbn; lia|].
    rewrite encode_list. cbn [String.append String.length].
    rewrite !StrFacts.length_append.
    pose proof (@length_join_weight json (Json.encode (S level)) weight
                  (item_sep (S level)) (x :: r)) as Hj.
    unfold list_weight. cbn [String.length].
    pose proof (length_newline_indent level).
    pose proof (length_newline_indent (S level)).
    assert (1 <= String.length (item_sep (S level))) by (cbn; lia).
    assert (Hf : Forall (fun x => weight x <= String.length (Json.encode (S level) x))
                   (x :: r)).
    { revert H. apply Forall_impl. intros a Ha. apply Ha. }
    specialize (Hj ltac:(assumption) Hf). lia.
  - rewrite weight_dict. destruct d as [|kv r]; [cbn; lia|].
    rewrite encode_dict. cbn [String.append String.length].
    rewrite !StrFacts.length_append.
    pose proof (@length_join_weight (string * json) (member_text (S level))
                  (fun kv => weight (snd kv))
                  (item_sep (S level)) (kv :: r)) as Hj.
    unfold dict_weight. cbn [String.length].
    pose proof (length_newline_indent level).
    pose proof (length_newline_indent (S level)).
    assert (1 <= String.length (item_sep (S level))) by (cbn; lia).
    assert (Hf : Forall (fun kv => weight (snd kv)
                                   <= String.length (member_text (S level) kv))
                   (kv :: r)).
    { revert H. apply Forall_impl. intros a Ha. unfold member_text.
      rewrite !StrFacts.length_append. specialize (Ha (S level)). lia. }
    specialize (Hj ltac:(assumption) Hf). lia.
Qed.

(** *** Dicts with pairwise different keys *)

Lemma json_wf_list l : json_wf (JList l) <-> Forall json_wf l.
Proof.
  cbn [json_wf]. induction l as [|x r IH].
  - split; [constructor | trivial].
  - split.
    + intros [Hx Hr]. constructor; [exact Hx | now apply IH].
    + intros H. inversion H; subst. split; [assumption | now apply IH].
Qed.

Lemma json_wf_dict d :
  json_wf (JDict d)
  <-> NoDup (List.map fst d) /\ Forall (fun kv => json_wf (snd kv)) d.
Proof.
  cbn [json_wf]. apply and_iff_compat_l. induction d as [|x r IH].
  - split; [constructor | trivial].
  - split.
    + intros [Hx Hr]. constructor; [exact Hx | now apply IH].
    + intros H. inversion H; subst. split; [assumption | now apply IH].
Qed.

Lemma dict_set_fresh k v (d : dict) :
  ~ In k (List.map fst d) -> dict_set k v d = d ++ [(k, v)].
Proof.
  induction d as [|[k' v'] d IH]; cbn [dict_set List.map fst In app]; [reflexivity|].
  intros H. destruct (String.eqb_spec k k') as [->|_].
  - exfalso. apply H. now left.
  - rewrite IH; [reflexivity|]. intros Hin. apply H. now right.
Qed.

Lemma dict_of_pairs_fresh d : forall acc,
  NoDup (List.map fst (acc ++ d)) -> dict_of_pairs d acc = acc ++ d.
Proof.
  induction d as [|[k v] d IH]; intros acc H; cbn [dict_of_pairs].
  - now rewrite app_nil_r.
  - assert (Hk : ~ In k (List.map fst acc)).
    { rewrite map_app in H. cbn [List.map fst] in H.
      apply NoDup_remove_2 in H. intros Hin. apply H.
      apply in_or_app. now left. }
    rewrite (@dict_set_fresh k v acc Hk).
    rewrite IH; rewrite <- app_assoc; [reflexivity | exact H].
Qed.

(** [dict(pairs)] keeps a list of pairs with different keys as it is. *)
Lemma normalize_wf v : json_wf v -> normalize v = v.
Proof.
  induction v using JsonFacts.json_rect'; try reflexivity.
  - intros Hwf. apply json_wf_list in Hwf. cbn [normalize]. f_equal.
    induction H as [|x r Hx Hr IH]; [reflexivity|].
    inversion Hwf; subst. cbn [List.map]. f_equal; auto.
  - intros Hwf. apply json_wf_dict in Hwf as [Hnd Hwf]. cbn [normalize]. f_equal.
    assert (E : List.map (fun kv => (fst kv, normalize (snd kv))) d = d).
    { clear Hnd. induction H as [|[k x] r Hx Hr IH]; [reflexivity|].
      inversion Hwf; subst. cbn [List.map fst snd] in *. f_equal; auto.
      f_equal. auto. }
    rewrite E. now apply (dict_of_pairs_fresh d []).
Qed.

Lemma skip_ws_encode v : skip_ws (Json.encode 0 v) = Json.encode 0 v.
Proof.
  apply skip_ws_value.
  rewrite <- (StrFacts.append_nil_r (Json.encode 0 v)).
  apply encode_starts_value.
Qed.

(** What [json.dumps] writes, [json.loads] reads back. *)
Lemma loads_dumps v : json_wf v -> loads (Json.dumps v) = Some v.
Proof.
  intros Hwf. unfold loads, Json.dumps. rewrite skip_ws_encode.
  rewrite <- (StrFacts.append_nil_r (Json.encode 0 v)) at 2.
  rewrite (@decodes_all v 0 (S (String.length (Json.encode 0 v))) "");
    [| pose proof (weight_le_length v 0); lia | reflexivity].
  cbn [skip_ws]. now rewrite normalize_wf.
Qed.

Lemma json_eqb_refl v : json_eqb v v = true.
Proof.
  induction v using JsonFacts.json_rect'; cbn [json_eqb]; try reflexivity.
  - apply Bool.eqb_reflx.
  - apply Z.eqb_refl.
  - apply String.eqb_refl.
  - induction H as [|x r Hx Hr IH]; [reflexivity|]. now rewrite Hx, IH.
  - induction H as [|[k x] r Hx Hr IH]; [reflexivity|].
    cbn [snd] in Hx. now rewrite String.eqb_refl, Hx, IH.
Qed.

End LoadsFacts.

(* ================================================================= *)
(** ** The decoder on the serializer's output *)

(** X1: what [json.dumps(obj, ensure_ascii=False, indent=2)] writes,
    [json.loads] reads back as [obj], for every value made of [None],
    booleans, integers, strings, lists and dicts (a dict has each key
    once).  This is the text the second loop of [split_if_large] reads when
    [write_json] found nothing to strip. *)
Theorem X1_loads_dumps_round_trip (v : json) :
  json_wf v -> Loads.loads (Json.dumps v) = Some v.
Proof. apply LoadsFacts.loads_dumps. Qed.

Lemma X1_loads_dumps_round_trip_witness :
  Loads.loads
    (Json.dumps
       (JDict [("title", JStr "Users \ 1");
               ("endpoints", JList [JDict [("id", JInt (-42)); ("ok", JBool true)];
                                    JNull; JList []; JDict []])]))
  = Some (JDict [("title", JStr "Users \ 1");
                 ("endpoints", JList [JDict [("id", JInt (-42)); ("ok", JBool true)];
                                      JNull; JList []; JDict []])]).
Proof.
  apply X1_loads_dumps_round_trip.
  cbn. repeat split; repeat constructor; cbn; intuition discriminate.
Defined.

(* ================================================================= *)
(** ** More on the greedy scan and the two loops *)

Module SplitMore.
Import FsFacts PartsFacts.

Lemma closed_when_full_snoc base parts p q :
  closed_when_full base (parts ++ [p]) ->
  match q with
  | ep :: _ => (KB_LIMIT < size_of_eps base (p ++ [ep]))%Z
  | [] => False
  end ->
  closed_when_full base ((parts ++ [p]) ++ [q]).
Proof.
  induction parts as [|a parts IH]; intros H Hq.
  - cbn. auto.
  - cbn [app] in *. destruct (parts ++ [p]) as [|b r] eqn:E.
    + destruct parts; discriminate.
    + cbn [closed_when_full app] in *. destruct H as [H1 H2].
      split; [exact H1|]. now apply IH.
Qed.

(** The last part keeps its first endpoint when one more is added. *)
Lemma closed_when_full_grow base parts c chunk ep :
  closed_when_full base (parts ++ [c :: chunk]) ->
  closed_when_full base (parts ++ [(c :: chunk) ++ [ep]]).
Proof.
  induction parts as [|a parts IH]; intros H.
  - cbn. auto.
  - cbn [app] in *.
    destruct parts as [|b r].
    + cbn [app closed_when_full] in *. tauto.
    + cbn [app closed_when_full] in *. destruct H as [H1 H2].
      split; [exact H1|]. now apply IH.
Qed.

Lemma split_loop_closed base eps : forall parts chunk,
  closed_when_full base (parts ++ [chunk]) ->
  (chunk = [] -> parts = []) ->
  closed_when_full base (split_loop base eps parts chunk).
Proof.
  induction eps as [|ep rest IH]; intros parts chunk H Hc; cbn [split_loop].
  - destruct chunk; [rewrite Hc by reflexivity; exact I | exact H].
  - destruct chunk as [|c chunk]; cbn [negb andb].
    + rewrite andb_false_r. rewrite Hc by reflexivity.
      apply IH; [cbn; auto | discriminate].
    + rewrite andb_true_r.
      destruct (KB_LIMIT <? size_of_eps base ((c :: chunk) ++ [ep]))%Z eqn:E.
      * apply IH; [|discriminate].
        apply closed_when_full_snoc; [exact H | now apply Z.ltb_lt].
      * apply IH; [|discriminate]. now apply closed_when_full_grow.
Qed.

Lemma closed_when_full_at base pre p q post :
  closed_when_full base (pre ++ p :: q :: post) ->
  exists ep rest, q = ep :: rest
                  /\ (KB_LIMIT < size_of_eps base (p ++ [ep]))%Z.
Proof.
  induction pre as [|a pre IH]; intros H.
  - cbn [app closed_when_full] in H. destruct H as [H _].
    destruct q as [|ep rest]; [contradiction|]. now exists ep, rest.
  - apply IH. cbn [app] in H. destruct (pre ++ p :: q :: post) eqn:E.
    + destruct pre; discriminate.
    + now destruct H.
Qed.

Lemma parts_length_le (parts : list (list json)) :
  Forall (fun p => p <> []) parts ->
  List.length parts <= List.length (concat parts).
Proof.
  induction 1 as [|p r Hp Hr IH]; cbn [concat List.length]; [lia|].
  rewrite length_app. destruct p; [congruence | cbn [List.length]; lia].
Qed.

(** The first loop writes the part files and nothing else. *)
Lemma write_parts_frame bp base p parts : forall idx acc fs,
  (forall nm, In nm (List.map (part_name bp) (seq idx (List.length parts))) ->
              p <> resources_path nm) ->
  fs_read p (snd (write_parts bp base idx parts acc fs)) = fs_read p fs.
Proof.
  induction parts as [|eps rest IH]; intros idx acc fs Hp; cbn [write_parts].
  - reflexivity.
  - cbn [List.length seq List.map In] in Hp.
    rewrite IH by (intros nm Hn; apply Hp; now right).
    unfold write_json. apply fs_read_write_other. apply Hp. now left.
Qed.

(** The second loop, when it returns: it wrote the files it was given, each
    from a dict with the whole list of names under [parts], and nothing
    else. *)
Lemma update_parts_ok filenames names : forall fs fs2,
  NoDup names ->
  update_parts filenames names fs = Ok fs2 ->
  Forall
    (fun nm =>
       exists obj,
         fs_read (resources_path nm) fs2
         = Some (write_json_text
                   (JDict (dict_set "parts" (JList (List.map JStr filenames)) obj))))
    names
  /\ (forall p, (forall nm, In nm names -> p <> resources_path nm) ->
                fs_read p fs2 = fs_read p fs).
Proof.
  induction names as [|nm rest IH]; intros fs fs2 Hnd H; cbn [update_parts] in H.
  - injection H as <-. split; [constructor | reflexivity].
  - destruct (fs_read (resources_path nm) fs) as [text|]; [|discriminate].
    destruct (Loads.loads text) as [[| | | | |obj]|]; try discriminate.
    inversion Hnd as [|? ? Hnotin Hnd']; subst.
    destruct (IH _ _ Hnd' H) as [Hfiles Hother]. split.
    + constructor; [|exact Hfiles].
      exists obj. rewrite Hother.
      * unfold write_json. apply fs_read_write_same.
      * intros nm' Hin E. apply resources_path_inj in E. now subst nm'.
    + intros p Hp. rewrite Hother by (intros nm' Hin; apply Hp; now right).
      unfold write_json. apply fs_read_write_other. apply Hp. now left.
Qed.

(** The three ways [split_if_large] returns. *)
Lemma split_if_large_cases bp base fs names fs' :
  split_if_large bp base fs = Ok (names, fs') ->
  (names = [name bp]
   /\ fs' = write_json (path_str bp) (JDict base) fs
   /\ (truthy (get_endpoints base) = false
       \/ (byte_len (Json.dumps (JDict base)) <= KB_LIMIT)%Z))
  \/ (exists eps,
        truthy (get_endpoints base) = true
        /\ (KB_LIMIT < byte_len (Json.dumps (JDict base)))%Z
        /\ iter_items (get_endpoints base) = Some eps
        /\ names = List.map (part_name bp)
                     (seq 1 (List.length (split_parts base eps)))
        /\ update_parts names names
             (snd (write_parts bp base 1 (split_parts base eps) [] fs))
           = Ok fs').
Proof.
  unfold split_if_large.
  destruct (truthy (get_endpoints base)) eqn:Ht; cbn [negb].
  - destruct (byte_len (Json.dumps (JDict base)) <=? KB_LIMIT)%Z eqn:Hs.
    + intros [= <- <-]. left. apply Z.leb_le in Hs.
      split; [reflexivity|]. split; [reflexivity|]. now right.
    + destruct (iter_items (get_endpoints base)) as [eps|]; [|discriminate].
      pose proof (write_parts_names bp base (split_parts base eps) 1 [] fs) as Hn.
      destruct (write_parts bp base 1 (split_parts base eps) [] fs)
        as [filenames fs1] eqn:Hw.
      cbn [fst snd app] in *. subst filenames.
      destruct (update_parts _ _ fs1) as [fs2|e] eqn:Hup; [|discriminate].
      intros [= <- <-]. right. exists eps. apply Z.leb_gt in Hs.
      rewrite Hw. cbn [snd]. repeat split; auto.
  - intros [= <- <-]. left.
    split; [reflexivity|]. split; [reflexivity|]. now left.
Qed.

(** A value stored in a well-formed dict is well-formed. *)
Lemma dict_get_wf k (d : dict) v :
  Forall (fun kv => json_wf (snd kv)) d -> dict_get k d = Some v -> json_wf v.
Proof.
  induction 1 as [|[k' v'] r Hx Hr IH]; cbn [dict_get]; [discriminate|].
  destruct (String.eqb k k'); [intros [= <-]; exact Hx | exact IH].
Qed.

Lemma dict_set_keys k v (d : dict) :
  List.map fst (dict_set k v d)
  = if existsb (String.eqb k) (List.map fst d)
    then List.map fst d else List.map fst d ++ [k].
Proof.
  induction d as [|[k' v'] d IH]; cbn [dict_set List.map fst existsb app];
    [reflexivity|].
  destruct (String.eqb k k') eqn:E; cbn [orb List.map fst]; [reflexivity|].
  rewrite IH. now destruct (existsb _ _).
Qed.

Lemma dict_set_wf k v (d : dict) :
  json_wf v -> json_wf (JDict d) -> json_wf (JDict (dict_set k v d)).
Proof.
  intros Hv Hd. apply LoadsFacts.json_wf_dict in Hd as [Hnd Hd].
  apply LoadsFacts.json_wf_dict. split.
  - rewrite dict_set_keys. destruct (existsb _ _) eqn:E; [exact Hnd|].
    apply NoDup_app; [exact Hnd | repeat constructor; intros [] |].
    intros x Hx [Ex|[]]. subst x.
    assert (existsb (String.eqb k) (List.map fst d) = true); [|congruence].
    apply existsb_exists. exists k. split; [exact Hx | apply String.eqb_refl].
  - clear Hnd. induction Hd as [|[k' v'] r Hx Hr IH]; cbn [dict_set].
    + now repeat constructor.
    + destruct (String.eqb k k'); constructor; auto.
Qed.

Lemma chars_nonnil c s : chars (String c s) <> [].
Proof.
  unfold chars. cbn [chars_from]. destruct (chars_from s) as [pre l].
  destruct (is_continuation c); cbn [Str.is_empty]; discriminate.
Qed.

Lemma iter_items_wf v eps :
  json_wf v -> iter_items v = Some eps -> Forall json_wf eps.
Proof.
  destruct v; try discriminate; intros Hwf [= <-].
  - apply Forall_map. apply Forall_forall. intros; exact I.
  - now apply LoadsFacts.json_wf_list.
  - apply Forall_map. apply Forall_forall. intros; exact I.
Qed.

Lemma get_endpoints_wf base :
  json_wf (JDict base) -> json_wf (get_endpoints base).
Proof.
  intros H. apply LoadsFacts.json_wf_dict in H as [_ H]. unfold get_endpoints.
  destruct (dict_get "endpoints" base) as [v|] eqn:E; [|exact I].
  destruct (truthy v); [|exact I]. now apply (dict_get_wf _ H E).
Qed.

Lemma first_obj_wf base part :
  json_wf (JDict base) -> Forall json_wf part ->
  json_wf (JDict (first_obj base part)).
Proof.
  intros Hb Hp. unfold first_obj, with_endpoints.
  apply dict_set_wf; [exact I|].
  apply dict_set_wf; [now apply LoadsFacts.json_wf_list | exact Hb].
Qed.

Lemma in_concat_Forall (A : Type) (P : A -> Prop) (ls : list (list A)) :
  Forall P (concat ls) -> Forall (Forall P) ls.
Proof.
  induction ls as [|l ls IH]; cbn [concat]; intros H; constructor.
  - apply Forall_app in H. tauto.
  - apply IH. apply Forall_app in H. tauto.
Qed.

(** A part whose serialization has no tag is read back as it was
    written. *)
Lemma tag_free_reread base eps :
  json_wf (JDict base) -> Forall json_wf eps ->
  tag_free base eps = true -> reread_ok base eps = true.
Proof.
  intros Hb He. unfold tag_free, reread_ok. rewrite !forallb_forall.
  intros H part Hin. specialize (H part Hin).
  apply negb_true_iff in H. unfold reread_part, write_json_text. rewrite H.
  rewrite LoadsFacts.loads_dumps; [apply LoadsFacts.json_eqb_refl|].
  apply first_obj_wf; [exact Hb|].
  pose proof (@in_concat_Forall json json_wf (split_parts base eps)) as Hc.
  rewrite SplitFacts.split_parts_concat in Hc. specialize (Hc He).
  rewrite Forall_forall in Hc. now apply Hc.
Qed.

Lemma split_parts_nonnil base eps : eps <> [] -> split_parts base eps <> [].
Proof.
  intros He Hp.
  pose proof (SplitFacts.split_parts_concat base eps) as Hc.
  rewrite Hp in Hc. cbn in Hc. congruence.
Qed.

(** Two parts, from their lengths. *)
Lemma two_parts (ps : list (list json)) eps n m :
  List.map (@List.length json) ps = [n; m] -> concat ps = eps ->
  ps = [] ++ firstn n eps :: skipn n eps :: [].
Proof.
  destruct ps as [|p [|q [|r ps]]]; try discriminate.
  cbn [List.map concat app]. intros [= Hn Hm] <-. rewrite app_nil_r. subst n.
  rewrite firstn_app, Nat.sub_diag, firstn_all, firstn_O, app_nil_r.
  now rewrite skipn_app, Nat.sub_diag, skipn_all, skipn_O.
Qed.

End SplitMore.

(** X2: a document that is split and of which no part, as first written,
    has a tag pattern in its serialization: the second loop reads every
    part file back as the object that was written, [split_if_large]
    returns the names [stem.part1.json], ..., and every part file holds,
    written through [write_json], the document with the slice of the part
    under [endpoints] and the whole list of names under [parts]. *)
Theorem X2_split_returns_when_no_tag
    (base_path : path) (base_obj : dict) (fs : files) (eps : list json) :
  json_wf (JDict base_obj) ->
  truthy (get_endpoints base_obj) = true ->
  (KB_LIMIT < byte_len (Json.dumps (JDict base_obj)))%Z ->
  iter_items (get_endpoints base_obj) = Some eps ->
  tag_free base_obj eps = true ->
  let parts := split_parts base_obj eps in
  let names := List.map (part_name base_path) (seq 1 (List.length parts)) in
  reread_ok base_obj eps = true
  /\ exists fs',
       split_if_large base_path base_obj fs = Ok (names, fs')
       /\ Forall2
            (fun nm part =>
               fs_read (resources_path nm) fs'
               = Some (write_json_text (JDict (final_obj base_obj names part))))
            names parts.
Proof.
  intros Hwf Ht Hs Hi Hfree parts names.
  assert (Hre : reread_ok base_obj eps = true).
  { apply SplitMore.tag_free_reread; [exact Hwf | | exact Hfree].
    apply (@SplitMore.iter_items_wf (get_endpoints base_obj)); [|exact Hi].
    now apply SplitMore.get_endpoints_wf. }
  split; [exact Hre|].
  rewrite (@RunFacts.split_if_large_split base_path base_obj fs eps Ht Hs Hi).
  pose proof (@PartsFacts.split_branch base_path base_obj
                (split_parts base_obj eps) fs Hre) as H.
  cbn zeta in H. fold parts in H |- *. fold names in H.
  destruct (write_parts base_path base_obj 1 parts [] fs) as [filenames fs1].
  destruct H as (-> & fs2 & Hup & Hfiles).
  exists fs2. rewrite Hup. split; [reflexivity | exact Hfiles].
Qed.

Lemma X2_split_returns_when_no_tag_witness :
  reread_ok Sample.users_doc [Sample.A; Sample.B; Sample.C] = true
  /\ exists fs',
       split_if_large Sample.users_path Sample.users_doc []
       = Ok (List.map (part_name Sample.users_path)
               (seq 1 (List.length
                         (split_parts Sample.users_doc
                            [Sample.A; Sample.B; Sample.C]))), fs')
       /\ Forall2
            (fun nm part =>
               fs_read (resources_path nm) fs'
               = Some (write_json_text
                         (JDict (final_obj Sample.users_doc
                                   (List.map (part_name Sample.users_path)
                                      (seq 1 (List.length
                                                (split_parts Sample.users_doc
                                                   [Sample.A; Sample.B; Sample.C]))))
                                   part))))
            (List.map (part_name Sample.users_path)
               (seq 1 (List.length
                         (split_parts Sample.users_doc
                            [Sample.A; Sample.B; Sample.C]))))
            (split_parts Sample.users_doc [Sample.A; Sample.B; Sample.C]).
Proof.
  apply (@X2_split_returns_when_no_tag Sample.users_path Sample.users_doc []
           [Sample.A; Sample.B; Sample.C]).
  - unfold Sample.users_doc, Sample.A, Sample.B, Sample.C, Sample.endpoint.
    cbn [json_wf List.map fst snd].
    repeat split; repeat constructor; cbn [In]; intuition discriminate.
  - reflexivity.
  - vm_compute. reflexivity.
  - reflexivity.
  - vm_compute. reflexivity.
Defined.

(** X3: the scan of [split_if_large] makes no empty part: there are at most
    as many parts as endpoints, at least one when there is an endpoint, and
    the parts, in order, are the endpoints. *)
Theorem X3_no_empty_part (base_obj : dict) (endpoints : list json) :
  let parts := split_parts base_obj endpoints in
  Forall (fun part => part <> []) parts
  /\ List.length parts <= List.length endpoints
  /\ (endpoints <> [] -> parts <> [])
  /\ concat parts = endpoints.
Proof.
  cbn zeta.
  assert (Hne : Forall (fun p : list json => p <> []) (split_parts base_obj endpoints)).
  { apply SplitFacts.split_loop_nonempty. constructor. }
  split; [exact Hne|]. split; [|split].
  - rewrite <- (SplitFacts.split_parts_concat base_obj endpoints) at 2.
    now apply SplitMore.parts_length_le.
  - apply SplitMore.split_parts_nonnil.
  - apply SplitFacts.split_parts_concat.
Qed.

(** X4: a part of two or more endpoints is within the limit as the scan
    measures it: the serialization of the document with the slice under
    [endpoints], without the [parts] field that the part files also
    carry. *)
Theorem X4_part_measured_within_limit
    (base_obj : dict) (endpoints part : list json) :
  In part (split_parts base_obj endpoints) ->
  2 <= List.length part ->
  (size_of_eps base_obj part <= KB_LIMIT)%Z.
Proof.
  intros Hin Hlen.
  pose proof (SplitFacts.split_parts_measured base_obj endpoints) as H.
  rewrite Forall_forall in H. now apply (H part Hin).
Qed.

Lemma X4_part_measured_within_limit_witness :
  (size_of_eps [("title", JStr "Users"); ("endpoints", JList [JStr "a"; JStr "b"])]
     [JStr "a"; JStr "b"] <= KB_LIMIT)%Z.
Proof.
  apply (@X4_part_measured_within_limit
           [("title", JStr "Users"); ("endpoints", JList [JStr "a"; JStr "b"])]
           [JStr "a"; JStr "b"]).
  - vm_compute. left. reflexivity.
  - cbn. lia.
Defined.

(** X5: the scan is greedy: a part is closed only when the endpoint that
    opens the next part did not fit, that is, when the part with that
    endpoint added measures more than the limit. *)
Theorem X5_part_closed_only_when_full
    (base_obj : dict) (endpoints : list json)
    (pre : list (list json)) (p q : list json) (post : list (list json)) :
  split_parts base_obj endpoints = pre ++ p :: q :: post ->
  exists ep rest,
    q = ep :: rest /\ (KB_LIMIT < size_of_eps base_obj (p ++ [ep]))%Z.
Proof.
  intros E. apply (@SplitMore.closed_when_full_at base_obj pre p q post).
  rewrite <- E. unfold split_parts.
  apply SplitMore.split_loop_closed; [exact (conj I I) | reflexivity].
Qed.

Lemma X5_part_closed_only_when_full_witness :
  exists ep rest,
    [Sample.C] = ep :: rest
    /\ (KB_LIMIT < size_of_eps Sample.users_doc ([Sample.A; Sample.B] ++ [ep]))%Z.
Proof.
  apply (@X5_part_closed_only_when_full Sample.users_doc
           [Sample.A; Sample.B; Sample.C] [] [Sample.A; Sample.B] [Sample.C] []).
  apply (@SplitMore.two_parts _ [Sample.A; Sample.B; Sample.C] 2 1);
    [vm_compute; reflexivity | apply SplitFacts.split_parts_concat].
Defined.

(** X6: when [split_if_large] returns from a split, the names it returns
    are pairwise different, there is at least one, and under each of them
    [clean/resources] holds a file that [write_json] wrote from a dict
    whose [parts] is the whole returned list. *)
Theorem X6_every_part_file_lists_all_names
    (base_path : path) (base_obj : dict) (fs : files)
    (names : list string) (fs' : files) :
  truthy (get_endpoints base_obj) = true ->
  (KB_LIMIT < byte_len (Json.dumps (JDict base_obj)))%Z ->
  split_if_large base_path base_obj fs = Ok (names, fs') ->
  NoDup names
  /\ names <> []
  /\ Forall
       (fun nm =>
          exists obj,
            fs_read (resources_path nm) fs'
            = Some (write_json_text
                      (JDict (dict_set "parts" (JList (List.map JStr names)) obj))))
       names.
Proof.
  intros Ht Hs H.
  apply SplitMore.split_if_large_cases in H
    as [(_ & _ & [Hf | Hsmall]) | (eps & _ & _ & Hi & -> & Hup)];
    [congruence | lia |].
  assert (Hnd : NoDup (List.map (part_name base_path)
                         (seq 1 (List.length (split_parts base_obj eps)))))
    by apply FsFacts.part_names_NoDup.
  split; [exact Hnd|]. split.
  - assert (He : eps <> []).
    { destruct (get_endpoints base_obj) as [| | |s|l|d]; try discriminate;
        injection Hi as <-; [destruct s | destruct l | destruct d];
        try discriminate.
      intros E. apply map_eq_nil in E. now apply SplitMore.chars_nonnil in E. }
    pose proof (@SplitMore.split_parts_nonnil base_obj eps He) as Hp.
    destruct (split_parts base_obj eps); [congruence | discriminate].
  - now destruct (@SplitMore.update_parts_ok _ _ _ _ Hnd Hup).
Qed.

Lemma X6_every_part_file_lists_all_names_witness :
  run_names (split_if_large Sample.users_path Sample.users_doc [])
  = Some Sample.users_names
  /\ match split_if_large Sample.users_path Sample.users_doc [] with
     | Ok (names, fs') =>
         NoDup names
         /\ names <> []
         /\ Forall
              (fun nm =>
                 exists obj,
                   fs_read (resources_path nm) fs'
                   = Some (write_json_text
                             (JDict (dict_set "parts"
                                       (JList (List.map JStr names)) obj))))
              names
     | Raise _ => False
     end.
Proof.
  assert (Hn : run_names (split_if_large Sample.users_path Sample.users_doc [])
               = Some Sample.users_names) by (vm_compute; reflexivity).
  split; [exact Hn|].
  destruct (split_if_large Sample.users_path Sample.users_doc [])
    as [[names fs']|e] eqn:E; [|discriminate Hn].
  apply (@X6_every_part_file_lists_all_names Sample.users_path Sample.users_doc
           [] names fs'); [reflexivity | vm_compute; reflexivity | exact E].
Defined.

(** X7: [split_if_large] writes the file of the document or the part files
    and nothing else: a path that is neither that of the document nor that
    of a returned name under [clean/resources] reads after the call as it
    did before. *)
Theorem X7_other_files_untouched
    (base_path : path) (base_obj : dict) (fs : files)
    (names : list string) (fs' : files) (p : string) :
  split_if_large base_path base_obj fs = Ok (names, fs') ->
  p <> path_str base_path ->
  (forall nm, In nm names -> p <> resources_path nm) ->
  fs_read p fs' = fs_read p fs.
Proof.
  intros H Hp Hn.
  apply SplitMore.split_if_large_cases in H
    as [(_ & -> & _) | (eps & _ & _ & _ & -> & Hup)].
  - unfold write_json. now apply FsFacts.fs_read_write_other.
  - destruct (@SplitMore.update_parts_ok _ _ _ _
                (FsFacts.part_names_NoDup base_path 1 _) Hup) as [_ Hother].
    rewrite Hother by exact Hn. now apply SplitMore.write_parts_frame.
Qed.

Lemma X7_other_files_untouched_witness :
  fs_read "clean/meta/manifest.json"
    (write_json "clean/resources/users.json"
       (JDict [("title", JStr "Users"); ("endpoints", JList [JStr "a"])])
       [("clean/meta/manifest.json", "{}")])
  = fs_read "clean/meta/manifest.json" [("clean/meta/manifest.json", "{}")].
Proof.
  apply (@X7_other_files_untouched (Path "clean/resources" "users.json")
           [("title", JStr "Users"); ("endpoints", JList [JStr "a"])]
           [("clean/meta/manifest.json", "{}")] ["users.json"]).
  - vm_compute. reflexivity.
  - discriminate.
  - intros nm [<- | []]. discriminate.
Defined.

(* ================================================================= *)
(** ** The part files read back: splitting again *)

Module ResplitFacts.

Lemma dict_get_set_same k v (d : dict) : dict_get k (dict_set k v d) = Some v.
Proof.
  induction d as [|[k' v'] d IH]; cbn [dict_set dict_get].
  - now rewrite String.eqb_refl.
  - destruct (String.eqb k k') eqn:E; cbn [dict_get]; now rewrite E.
Qed.

Lemma dict_get_set_other k k' v (d : dict) :
  k <> k' -> dict_get k (dict_set k' v d) = dict_get k d.
Proof.
  intros Hk. apply String.eqb_neq in Hk.
  induction d as [|[k0 v0] d IH]; cbn [dict_set dict_get].
  - now rewrite Hk.
  - destruct (String.eqb k' k0) eqn:E; cbn [dict_get]; [|now rewrite IH].
    apply String.eqb_eq in E. subst k0. now rewrite Hk.
Qed.

(** Assigning to a key that is there and to another key, in either
    order. *)
Lemma dict_set_comm k1 k2 v w (d : dict) :
  k1 <> k2 -> dict_get k1 d <> None ->
  dict_set k1 v (dict_set k2 w d) = dict_set k2 w (dict_set k1 v d).
Proof.
  intros Hk. induction d as [|[k0 v0] d IH]; cbn [dict_get]; [congruence|].
  intros H. cbn [dict_set].
  destruct (String.eqb k1 k0) eqn:E1.
  - apply String.eqb_eq in E1. subst k0.
    assert (E2 : String.eqb k2 k1 = false)
      by (apply String.eqb_neq; congruence).
    rewrite E2. cbn [dict_set]. now rewrite String.eqb_refl, E2.
  - destruct (String.eqb k2 k0) eqn:E2; cbn [dict_set]; rewrite E1, ?E2;
      [reflexivity|].
    now rewrite (IH H).
Qed.

Lemma dict_remove_set k v (d : dict) :
  dict_get k d = None -> dict_remove k (dict_set k v d) = d.
Proof.
  induction d as [|[k' v'] d IH]; cbn [dict_get dict_set dict_remove].
  - now rewrite String.eqb_refl.
  - destruct (String.eqb k k') eqn:E; [discriminate|].
    intros H. cbn [dict_remove]. now rewrite E, (IH H).
Qed.

(** A part as written last, with all the endpoints in place of its slice
    and without its list of parts, is the document. *)
Lemma final_obj_rebuild base names part endpoints :
  dict_get "endpoints" base = Some (JList endpoints) ->
  dict_get "parts" base = None ->
  dict_remove "parts"
    (dict_set "endpoints" (JList endpoints) (final_obj base names part))
  = base.
Proof.
  intros He Hp. unfold final_obj, with_endpoints.
  rewrite dict_set_comm;
    [|discriminate | now rewrite dict_get_set_same].
  rewrite SplitFacts.dict_set_twice, (SplitFacts.dict_set_same _ _ He).
  now apply dict_remove_set.
Qed.

Lemma final_obj_slice base names part :
  part_slice (final_obj base names part) = Some part.
Proof.
  unfold part_slice, final_obj, with_endpoints.
  rewrite dict_get_set_other by discriminate. now rewrite dict_get_set_same.
Qed.

Lemma final_obj_wf base names part :
  json_wf (JDict base) -> Forall json_wf part ->
  json_wf (JDict (final_obj base names part)).
Proof.
  intros Hb Hp. unfold final_obj, with_endpoints.
  apply SplitMore.dict_set_wf.
  - apply LoadsFacts.json_wf_list. apply Forall_map, Forall_forall.
    intros; exact I.
  - apply SplitMore.dict_set_wf; [now apply LoadsFacts.json_wf_list | exact Hb].
Qed.

(** Part files that hold the parts as serialized are read back as the
    parts. *)
Lemma read_parts base names0 fs' : forall names parts,
  json_wf (JDict base) -> Forall (Forall json_wf) parts ->
  forallb
    (fun part =>
       negb (Tag.search (Json.dumps (JDict (final_obj base names0 part)))))
    parts = true ->
  Forall2
    (fun nm part =>
       fs_read (resources_path nm) fs'
       = Some (write_json_text (JDict (final_obj base names0 part))))
    names parts ->
  map_opt (read_part fs') names
  = Some (List.map (final_obj base names0) parts).
Proof.
  intros names parts Hb Hwf Hfree H. revert Hwf Hfree.
  induction H as [|nm part names parts Hr H IH]; intros Hwf Hfree;
    [reflexivity|].
  inversion Hwf as [|? ? Hp Hps]; subst. cbn [forallb] in Hfree.
  apply andb_true_iff in Hfree as [Hf Hfs]. apply negb_true_iff in Hf.
  cbn [map_opt List.map]. rewrite (IH Hps Hfs).
  unfold read_part. rewrite Hr. unfold write_json_text. rewrite Hf.
  rewrite LoadsFacts.loads_dumps by now apply final_obj_wf.
  reflexivity.
Qed.

Lemma part_slices base names0 parts :
  map_opt part_slice (List.map (final_obj base names0) parts) = Some parts.
Proof.
  induction parts as [|part parts IH]; [reflexivity|].
  cbn [List.map map_opt]. now rewrite final_obj_slice, IH.
Qed.

(** A run on a document that is split, whose parts [write_json] writes as
    they are: the part files, read back and put together, give the
    document and the parts of the scan. *)
Lemma split_then_reassemble bp base fs endpoints :
  json_wf (JDict base) ->
  dict_get "endpoints" base = Some (JList endpoints) ->
  endpoints <> [] ->
  dict_get "parts" base = None ->
  (KB_LIMIT < byte_len (Json.dumps (JDict base)))%Z ->
  parts_tag_free bp base endpoints = true ->
  let parts := split_parts base endpoints in
  let names := List.map (part_name bp) (seq 1 (List.length parts)) in
  exists fs',
    split_if_large bp base fs = Ok (names, fs')
    /\ reassemble fs' names = Some (base, parts).
Proof.
  intros Hwf He Hne Hp Hs Hfree parts names.
  unfold parts_tag_free in Hfree. fold parts in Hfree. fold names in Hfree.
  apply andb_true_iff in Hfree as [Hfirst Hlast].
  assert (Hg : get_endpoints base = JList endpoints).
  { unfold get_endpoints. rewrite He. now destruct endpoints. }
  assert (Ht : truthy (get_endpoints base) = true)
    by (rewrite Hg; now destruct endpoints).
  assert (Hi : iter_items (get_endpoints base) = Some endpoints)
    by now rewrite Hg.
  assert (Hweps : Forall json_wf endpoints).
  { apply (@SplitMore.iter_items_wf (get_endpoints base)); [|exact Hi].
    now apply SplitMore.get_endpoints_wf. }
  assert (Hre : reread_ok base endpoints = true)
    by now apply SplitMore.tag_free_reread.
  rewrite (@RunFacts.split_if_large_split bp base fs endpoints Ht Hs Hi).
  pose proof (@PartsFacts.split_branch bp base (split_parts base endpoints) fs Hre)
    as H.
  cbn zeta in H. fold parts in H |- *. fold names in H.
  destruct (write_parts bp base 1 parts [] fs) as [filenames fs1].
  destruct H as (-> & fs2 & Hup & Hfiles).
  exists fs2. rewrite Hup. split; [reflexivity|].
  assert (Hwparts : Forall (Forall json_wf) parts).
  { apply SplitMore.in_concat_Forall. unfold parts.
    now rewrite SplitFacts.split_parts_concat. }
  unfold reassemble.
  rewrite (@read_parts base names fs2 names parts Hwf Hwparts Hlast Hfiles).
  assert (Hnil : parts <> []) by now apply SplitMore.split_parts_nonnil.
  destruct parts as [|part rest] eqn:Eparts; [congruence|].
  cbn [List.map]. rewrite <- (map_cons (final_obj base names)).
  rewrite part_slices. f_equal. f_equal.
  rewrite <- Eparts. unfold parts. rewrite SplitFacts.split_parts_concat.
  now apply final_obj_rebuild.
Qed.

End ResplitFacts.

(** C9, as the code has it.  For a document that is split, that carries no
    [parts] of its own and whose parts [write_json] writes as they are (no
    match of the tag pattern in their serializations): the part files,
    read back, hold the slices of the scan; put together in the shape they
    came from, the first part without its list of parts and with all the
    endpoints, they give the document again; and splitting that document
    once more returns the same file names and leaves part files with the
    same slices. *)
Theorem C9_resplit_same_parts
    (base_path : path) (base_obj : dict) (fs : files) (endpoints : list json) :
  json_wf (JDict base_obj) ->
  dict_get "endpoints" base_obj = Some (JList endpoints) ->
  endpoints <> [] ->
  dict_get "parts" base_obj = None ->
  (KB_LIMIT < byte_len (Json.dumps (JDict base_obj)))%Z ->
  parts_tag_free base_path base_obj endpoints = true ->
  exists names fs',
    split_if_large base_path base_obj fs = Ok (names, fs')
    /\ reassemble fs' names = Some (base_obj, split_parts base_obj endpoints)
    /\ forall doc slices,
         reassemble fs' names = Some (doc, slices) ->
         exists fs'',
           split_if_large base_path doc fs' = Ok (names, fs'')
           /\ reassemble fs'' names = Some (doc, slices).
Proof.
  intros Hwf He Hne Hp Hs Hfree.
  destruct (@ResplitFacts.split_then_reassemble base_path base_obj fs endpoints
              Hwf He Hne Hp Hs Hfree) as (fs' & Hrun & Hre).
  eexists _, fs'. split; [exact Hrun|]. split; [exact Hre|].
  intros doc slices H. rewrite Hre in H. injection H as <- <-.
  apply (@ResplitFacts.split_then_reassemble base_path base_obj fs' endpoints
           Hwf He Hne Hp Hs Hfree).
Qed.

Lemma C9_resplit_same_parts_witness :
  exists names fs',
    split_if_large Sample.users_path Sample.users_doc [] = Ok (names, fs')
    /\ reassemble fs' names
       = Some (Sample.users_doc,
               split_parts Sample.users_doc [Sample.A; Sample.B; Sample.C])
    /\ forall doc slices,
         reassemble fs' names = Some (doc, slices) ->
         exists fs'',
           split_if_large Sample.users_path doc fs' = Ok (names, fs'')
           /\ reassemble fs'' names = Some (doc, slices).
Proof.
  apply (@C9_resplit_same_parts Sample.users_path Sample.users_doc []
           [Sample.A; Sample.B; Sample.C]).
  - unfold Sample.users_doc, Sample.A, Sample.B, Sample.C, Sample.endpoint.
    cbn [json_wf List.map fst snd].
    repeat split; repeat constructor; cbn [In]; intuition discriminate.
  - reflexivity.
  - discriminate.
  - reflexivity.
  - vm_compute. reflexivity.
  - vm_compute. reflexivity.
Defined.

(** C9 as stated fails on a document with markup in an endpoint.  The
    first endpoint measures too much to share a part with the second, so
    the parts hold one and two endpoints; [write_json] removes the markup
    from the part file; and the parts, read back, put together and split
    again, hold two endpoints and one. *)
Lemma C9_counterexample :
  run_boundaries (split_if_large Sample.users_path Resplit.marked_doc [])
  = Some [1; 2]
  /\ run_boundaries
       (resplit Sample.users_path
          (split_if_large Sample.users_path Resplit.marked_doc []))
     = Some [2; 1].
Proof. split; vm_compute; reflexivity. Qed.

(** The boundaries also move when the parts are put together in the shape
    of a part, its list of parts included: the list adds to every measure,
    and the first two endpoints, which filled the limit exactly, no longer
    fit together. *)
Lemma resplit_in_part_shape :
  List.map (@List.length json)
    (split_parts Sample.users_doc [Sample.A; Sample.B; Sample.C])
  = [2; 1]
  /\ List.map (@List.length json)
       (split_parts
          (final_obj Sample.users_doc Sample.users_names [Sample.A; Sample.B])
          [Sample.A; Sample.B; Sample.C])
     = [1; 2].
Proof. split; vm_compute; reflexivity. Qed.

(** C3, as the code has it.  A document without endpoints, or within the
    limit as a whole, is written once, under its own path, and the name of
    that path is the one name returned; no other file changes.  The file
    holds what [write_json] makes of the document: its serialization, from
    which every match of the tag pattern is removed.  When there is no
    match the file is the serialization of the document itself, and reads
    back as the document: nothing is changed and no [parts] is added. *)
Theorem C3_small_document_single_part
    (base_path : path) (base_obj : dict) (fs : files) :
  truthy (get_endpoints base_obj) = false
  \/ (byte_len (Json.dumps (JDict base_obj)) <= KB_LIMIT)%Z ->
  exists fs',
    split_if_large base_path base_obj fs = Ok ([name base_path], fs')
    /\ fs_read (path_str base_path) fs'
       = Some (write_json_text (JDict base_obj))
    /\ (forall p, p <> path_str base_path -> fs_read p fs' = fs_read p fs)
    /\ (Tag.search (Json.dumps (JDict base_obj)) = false ->
        fs_read (path_str base_path) fs' = Some (Json.dumps (JDict base_obj))
        /\ (json_wf (JDict base_obj) ->
            Loads.loads (Json.dumps (JDict base_obj)) = Some (JDict base_obj))).
Proof.
  intros H.
  exists (write_json (path_str base_path) (JDict base_obj) fs). split.
  - unfold split_if_large. destruct H as [H|H].
    + now rewrite H.
    + apply Z.leb_le in H. rewrite H. now destruct (negb _).
  - unfold write_json. split; [apply FsFacts.fs_read_write_same|].
    split; [intros p Hp; now apply FsFacts.fs_read_write_other|].
    intros Hfree. split.
    + rewrite FsFacts.fs_read_write_same. unfold write_json_text.
      now rewrite Hfree.
    + apply LoadsFacts.loads_dumps.
Qed.

Lemma C3_small_document_single_part_witness :
  exists fs',
    split_if_large Sample.users_path (Resplit.small_doc "Users") []
    = Ok (["users.json"], fs')
    /\ fs_read "clean/resources/users.json" fs'
       = Some (write_json_text (JDict (Resplit.small_doc "Users")))
    /\ (forall p, p <> "clean/resources/users.json" -> fs_read p fs' = fs_read p [])
    /\ (Tag.search (Json.dumps (JDict (Resplit.small_doc "Users"))) = false ->
        fs_read "clean/resources/users.json" fs'
        = Some (Json.dumps (JDict (Resplit.small_doc "Users")))
        /\ (json_wf (JDict (Resplit.small_doc "Users")) ->
            Loads.loads (Json.dumps (JDict (Resplit.small_doc "Users")))
            = Some (JDict (Resplit.small_doc "Users")))).
Proof.
  apply (@C3_small_document_single_part Sample.users_path
           (Resplit.small_doc "Users") []).
  right. vm_compute. discriminate.
Defined.

(** C3 as stated fails on a document with markup in its title: it is
    within the limit, and the file holds the document with the title
    without the markup, not the document. *)
Lemma C3_counterexample :
  (byte_len (Json.dumps (JDict (Resplit.small_doc "<b>Users</b>"))) <= KB_LIMIT)%Z
  /\ run_names
       (split_if_large Sample.users_path (Resplit.small_doc "<b>Users</b>") [])
     = Some ["users.json"]
  /\ run_file "clean/resources/users.json"
       (split_if_large Sample.users_path (Resplit.small_doc "<b>Users</b>") [])
     = Some (Json.dumps (JDict (Resplit.small_doc "Users")))
  /\ Json.dumps (JDict (Resplit.small_doc "Users"))
     <> Json.dumps (JDict (Resplit.small_doc "<b>Users</b>")).
Proof.
  split; [vm_compute; discriminate|].
  split; [reflexivity|].
  split; [vm_compute; reflexivity|].
  vm_compute. discriminate.
Qed.

(* ================================================================= *)
(** ** Stripping and collapsing runs of characters *)

Module ShapeFacts.
Import Shape.

Lemma rev_onto_app s : forall acc, Str.rev_onto s acc = Str.rev_onto s "" +++ acc.
Proof.
  induction s as [|c s IH]; intros acc; cbn [Str.rev_onto]; [reflexivity|].
  rewrite (IH (String c acc)), (IH (String c "")).
  now rewrite StrFacts.append_assoc.
Qed.

Lemma rev_cons c s : Str.rev (String c s) = Str.rev s +++ String c "".
Proof. unfold Str.rev. cbn [Str.rev_onto]. apply rev_onto_app. Qed.

Lemma rev_app a b : Str.rev (a +++ b) = Str.rev b +++ Str.rev a.
Proof.
  induction a as [|c a IH]; cbn [String.append].
  - now rewrite StrFacts.append_nil_r.
  - now rewrite !rev_cons, IH, StrFacts.append_assoc.
Qed.

Lemma is_empty_rev s : Str.is_empty (Str.rev s) = Str.is_empty s.
Proof.
  destruct s as [|c s]; [reflexivity|]. rewrite rev_cons.
  now destruct (Str.rev s).
Qed.

Lemma lstrip_by_app f x y :
  Str.lstrip_by f (x +++ y)
  = if Str.is_empty (Str.lstrip_by f x) then Str.lstrip_by f y
    else Str.lstrip_by f x +++ y.
Proof.
  induction x as [|c x IH]; cbn [String.append Str.lstrip_by]; [reflexivity|].
  destruct (f c); [exact IH | reflexivity].
Qed.

(** [rstrip] from the left: the characters after the head are stripped
    first, and the head goes when nothing is left after it. *)
Lemma rstrip_cons f c s :
  Str.rstrip_by f (String c s)
  = if Str.is_empty (Str.rstrip_by f s)
    then (if f c then "" else String c "")
    else String c (Str.rstrip_by f s).
Proof.
  unfold Str.rstrip_by. rewrite rev_cons, lstrip_by_app, is_empty_rev.
  destruct (Str.is_empty (Str.lstrip_by f (Str.rev s))).
  - cbn [Str.lstrip_by]. now destruct (f c).
  - now rewrite rev_app.
Qed.

Lemma rstrip_nil f : Str.rstrip_by f "" = "".
Proof. reflexivity. Qed.

Lemma last_ok_cons cls c s :
  last_ok cls (String c s) = if Str.is_empty s then negb (cls c) else last_ok cls s.
Proof. now destruct s. Qed.

Lemma last_ok_rstrip f s : last_ok f (Str.rstrip_by f s) = true.
Proof.
  induction s as [|c s IH]; [reflexivity|]. rewrite rstrip_cons.
  destruct (Str.is_empty (Str.rstrip_by f s)) eqn:E.
  - destruct (f c) eqn:Ec; [reflexivity|]. cbn. now rewrite Ec.
  - now rewrite last_ok_cons, E.
Qed.

Lemma rstrip_id f s : last_ok f s = true -> Str.rstrip_by f s = s.
Proof.
  induction s as [|c s IH]; [reflexivity|].
  rewrite last_ok_cons, rstrip_cons. destruct s as [|d s].
  - cbn [Str.is_empty]. rewrite rstrip_nil. cbn [Str.is_empty].
    now destruct (f c).
  - cbn [Str.is_empty]. intros H. now rewrite (IH H).
Qed.

Lemma lstrip_id f s : head_ok f s = true -> Str.lstrip_by f s = s.
Proof. destruct s as [|c s]; cbn; [reflexivity|]. now destruct (f c). Qed.

Lemma head_ok_lstrip f s : head_ok f (Str.lstrip_by f s) = true.
Proof.
  induction s as [|c s IH]; cbn [Str.lstrip_by]; [reflexivity|].
  destruct (f c) eqn:E; [exact IH|]. cbn. now rewrite E.
Qed.

(** What [rstrip] leaves starts as the text did. *)
Lemma head_ok_rstrip cls f s :
  head_ok cls s = true -> head_ok cls (Str.rstrip_by f s) = true.
Proof.
  destruct s as [|c s]; [reflexivity|]. rewrite rstrip_cons. cbn [head_ok].
  intros H. destruct (Str.is_empty _); [destruct (f c)|]; cbn; auto.
Qed.

Lemma single_seps_tail cls sep c s :
  single_seps cls sep (String c s) = true -> single_seps cls sep s = true.
Proof. cbn [single_seps]. intros H. now apply andb_true_iff in H. Qed.

Lemma single_seps_lstrip cls sep f s :
  single_seps cls sep s = true -> single_seps cls sep (Str.lstrip_by f s) = true.
Proof.
  induction s as [|c s IH]; cbn [Str.lstrip_by]; [trivial|].
  destruct (f c); [|trivial]. intros H. apply IH. now apply single_seps_tail in H.
Qed.

Lemma single_seps_drop cls sep n : forall s,
  single_seps cls sep s = true -> single_seps cls sep (Str.drop n s) = true.
Proof.
  induction n as [|n IH]; intros s H; cbn [Str.drop]; [exact H|].
  destruct s as [|c s]; [reflexivity|]. apply IH. now apply single_seps_tail in H.
Qed.

Lemma single_seps_rstrip cls sep f s :
  single_seps cls sep s = true -> single_seps cls sep (Str.rstrip_by f s) = true.
Proof.
  induction s as [|c s IH]; [trivial|]. intros H. rewrite rstrip_cons.
  pose proof (single_seps_tail _ _ _ _ H) as Ht.
  cbn [single_seps] in H. apply andb_true_iff in H as [Hc _].
  destruct (Str.is_empty (Str.rstrip_by f s)).
  - destruct (f c); [reflexivity|]. cbn [single_seps head_ok].
    destruct (cls c); [|reflexivity].
    apply andb_true_iff in Hc as [-> _]. reflexivity.
  - cbn [single_seps]. rewrite (IH Ht), andb_true_r.
    destruct (cls c); [|reflexivity].
    apply andb_true_iff in Hc as [-> Hh]. cbn [andb].
    now apply head_ok_rstrip.
Qed.

Lemma last_ok_tail cls c s : last_ok cls (String c s) = true -> last_ok cls s = true.
Proof. rewrite last_ok_cons. now destruct s. Qed.

Lemma last_ok_drop cls n : forall s,
  last_ok cls s = true -> last_ok cls (Str.drop n s) = true.
Proof.
  induction n as [|n IH]; intros s H; cbn [Str.drop]; [exact H|].
  destruct s as [|c s]; [reflexivity|]. apply IH. now apply last_ok_tail in H.
Qed.

Lemma last_ok_lstrip cls f s :
  last_ok cls s = true -> last_ok cls (Str.lstrip_by f s) = true.
Proof.
  induction s as [|c s IH]; cbn [Str.lstrip_by]; [trivial|].
  destruct (f c); [|trivial]. intros H. apply IH. now apply last_ok_tail in H.
Qed.

(** When every character of the class is [sep], an end that is not [sep]
    is not of the class. *)
Lemma head_ok_sep cls sep s :
  single_seps cls sep s = true ->
  head_ok (fun c => Ascii.eqb c sep) s = true -> head_ok cls s = true.
Proof.
  destruct s as [|c s]; [trivial|]. cbn [single_seps head_ok].
  destruct (cls c); [|trivial]. intros H. apply andb_true_iff in H as [H _].
  apply andb_true_iff in H as [-> _]. discriminate.
Qed.

Lemma last_ok_sep cls sep s :
  single_seps cls sep s = true ->
  last_ok (fun c => Ascii.eqb c sep) s = true -> last_ok cls s = true.
Proof.
  induction s as [|c s IH]; [trivial|]. intros H.
  pose proof (single_seps_tail _ _ _ _ H) as Ht. rewrite !last_ok_cons.
  destruct s as [|d s]; cbn [Str.is_empty]; [|now apply IH].
  cbn [single_seps] in H. destruct (cls c); [|trivial].
  apply andb_true_iff in H as [H _]. apply andb_true_iff in H as [-> _].
  discriminate.
Qed.

(** A smaller class asks less. *)
Lemma head_ok_weaken (f cls : ascii -> bool) s :
  (forall c, f c = true -> cls c = true) ->
  head_ok cls s = true -> head_ok f s = true.
Proof.
  intros Hf. destruct s as [|c s]; [trivial|]. cbn [head_ok].
  destruct (f c) eqn:E; [|trivial]. now rewrite (Hf c E).
Qed.

Lemma last_ok_weaken (f cls : ascii -> bool) s :
  (forall c, f c = true -> cls c = true) ->
  last_ok cls s = true -> last_ok f s = true.
Proof.
  intros Hf. induction s as [|c s IH]; [trivial|]. rewrite !last_ok_cons.
  destruct (Str.is_empty s); [|exact IH].
  destruct (f c) eqn:E; [|trivial]. now rewrite (Hf c E).
Qed.

(** A text without any character of the class. *)
Lemma all_single_seps cls sep s :
  all (fun c => negb (cls c)) s = true ->
  head_ok cls s = true /\ single_seps cls sep s = true /\ last_ok cls s = true.
Proof.
  induction s as [|c s IH]; [auto|]. cbn [all]. intros H.
  apply andb_true_iff in H as [Hc Hs]. destruct (IH Hs) as (H1 & H2 & H3).
  apply negb_true_iff in Hc. cbn [head_ok single_seps]. rewrite Hc, H2.
  rewrite last_ok_cons, Hc. cbn [negb andb].
  destruct (Str.is_empty s); repeat split; auto.
Qed.

Lemma single_seps_all cls sep s :
  single_seps cls sep s = true ->
  all (fun c => negb (cls c) || Ascii.eqb c sep) s = true.
Proof.
  induction s as [|c s IH]; [trivial|]. intros H.
  pose proof (single_seps_tail _ _ _ _ H) as Ht. cbn [single_seps all] in *.
  rewrite (IH Ht), andb_true_r. destruct (cls c); [|reflexivity].
  apply andb_true_iff in H as [H _]. apply andb_true_iff in H as [-> _].
  reflexivity.
Qed.

Lemma all_impl (f g : ascii -> bool) s :
  (forall c, f c = true -> g c = true) -> all f s = true -> all g s = true.
Proof.
  intros Hfg. induction s as [|c s IH]; [trivial|]. cbn [all]. intros H.
  apply andb_true_iff in H as [Hc Hs]. now rewrite (Hfg c Hc), IH.
Qed.

Lemma all_filter f s : all f (Str.filter f s) = true.
Proof.
  induction s as [|c s IH]; [reflexivity|]. cbn [Str.filter].
  destruct (f c) eqn:E; [|exact IH]. cbn [all]. now rewrite E.
Qed.

Lemma filter_id f s : all f s = true -> Str.filter f s = s.
Proof.
  induction s as [|c s IH]; [trivial|]. cbn [all Str.filter]. intros H.
  apply andb_true_iff in H as [-> Hs]. now rewrite IH.
Qed.

Lemma map_id (f : ascii -> ascii) (p : ascii -> bool) s :
  (forall c, p c = true -> f c = c) -> all p s = true -> Str.map f s = s.
Proof.
  intros Hf. induction s as [|c s IH]; [trivial|]. cbn [all Str.map]. intros H.
  apply andb_true_iff in H as [Hc Hs]. now rewrite (Hf c Hc), IH.
Qed.

(** *** [re.sub] of the runs of a class by one separator *)

Section Runs.
Variable cls : ascii -> bool.
Variable sep : ascii.
Hypothesis cls_sep : cls sep = true.

Let G (b : bool) (s : string) : string := sub_runs_from b cls (String sep "") s.

Lemma runs_single s : forall b,
  single_seps cls sep (G b s) = true
  /\ (b = true -> head_ok cls (G b s) = true).
Proof.
  unfold G. induction s as [|c s IH]; intros b; cbn [sub_runs_from]; [auto|].
  destruct (cls c) eqn:Ec.
  - destruct b.
    + apply IH.
    + destruct (IH true) as [H1 H2]. split; [|discriminate].
      cbn [String.append single_seps]. rewrite cls_sep, Ascii.eqb_refl, H1.
      now rewrite H2.
  - destruct (IH false) as [H1 _]. cbn [single_seps head_ok]. rewrite Ec, H1. auto.
Qed.

Lemma runs_head s : head_ok cls s = true -> head_ok cls (G false s) = true.
Proof.
  unfold G. destruct s as [|c s]; [trivial|]. cbn [head_ok sub_runs_from].
  intros H. apply negb_true_iff in H. rewrite H. cbn. now rewrite H.
Qed.

Lemma runs_last s :
  last_ok cls s = true ->
  last_ok cls (G false s) = true
  /\ (s <> "" -> last_ok cls (G true s) = true /\ G true s <> "").
Proof.
  unfold G. induction s as [|c s IH]; [split; [reflexivity | congruence]|].
  rewrite last_ok_cons. intros H. cbn [sub_runs_from].
  destruct s as [|d s].
  - cbn [Str.is_empty] in H. apply negb_true_iff in H. rewrite H.
    cbn [sub_runs_from last_ok]. rewrite H. repeat split; congruence.
  - cbn [Str.is_empty] in H. destruct (IH H) as [H1 H2].
    destruct (H2 ltac:(discriminate)) as [H3 H4].
    destruct (cls c) eqn:Ec.
    + split; [|intros _; split; assumption].
      cbn [String.append]. rewrite last_ok_cons.
      destruct (sub_runs_from true cls (String sep "") (String d s)); [congruence|].
      exact H3.
    + assert (Hl : last_ok cls
                     (String c (sub_runs_from false cls (String sep "") (String d s)))
                   = true).
      { rewrite last_ok_cons. destruct (Str.is_empty _); [now rewrite Ec | exact H1]. }
      repeat split; [exact Hl | exact Hl | discriminate].
Qed.

(** A text in which the class occurs only as single separators is left as
    it is. *)
Lemma runs_id s :
  single_seps cls sep s = true ->
  G false s = s /\ (head_ok cls s = true -> G true s = s).
Proof.
  unfold G. induction s as [|c s IH]; [auto|]. intros H.
  pose proof (single_seps_tail _ _ _ _ H) as Ht. destruct (IH Ht) as [H1 H2].
  cbn [single_seps sub_runs_from head_ok] in *. destruct (cls c) eqn:Ec.
  - apply andb_true_iff in H as [H _]. apply andb_true_iff in H as [Hc Hh].
    apply Ascii.eqb_eq in Hc. subst c. split; [|discriminate].
    cbn [String.append]. now rewrite (H2 Hh).
  - rewrite H1. auto.
Qed.

Lemma runs_all (p : ascii -> bool) s : forall b,
  p sep = true -> all p s = true -> all p (G b s) = true.
Proof.
  unfold G. intros b Hp. revert b.
  induction s as [|c s IH]; intros b; cbn [sub_runs_from all]; [trivial|].
  intros H. apply andb_true_iff in H as [Hc Hs].
  destruct (cls c).
  - destruct b; [now apply IH|]. cbn [String.append all]. rewrite Hp. now apply IH.
  - cbn [all]. rewrite Hc. now apply IH.
Qed.

(** The separators at the ends go with [strip(sep)]. *)
Lemma strip_sep_separated s :
  single_seps cls sep s = true ->
  separated cls sep
    (Str.rstrip_by (fun c => Ascii.eqb c sep)
       (Str.lstrip_by (fun c => Ascii.eqb c sep) s)) = true.
Proof.
  intros H. set (f := fun c => Ascii.eqb c sep).
  pose proof (@single_seps_lstrip cls sep f s H) as H1.
  pose proof (@head_ok_sep cls sep _ H1 (head_ok_lstrip f s)) as H2.
  pose proof (@single_seps_rstrip cls sep f _ H1) as H3.
  unfold separated. rewrite H3, (@head_ok_rstrip cls f _ H2). cbn [andb].
  apply (@last_ok_sep cls sep _ H3). apply last_ok_rstrip.
Qed.

End Runs.

(** Stripping by the class, then collapsing its runs. *)
Lemma strip_then_runs cls sep s :
  cls sep = true ->
  separated cls sep
    (sub_runs cls (String sep "") (Str.rstrip_by cls (Str.lstrip_by cls s))) = true.
Proof.
  intros Hs. unfold separated, sub_runs.
  set (t := Str.rstrip_by cls (Str.lstrip_by cls s)).
  assert (Hh : head_ok cls t = true)
    by (apply head_ok_rstrip, head_ok_lstrip).
  assert (Hl : last_ok cls t = true) by apply last_ok_rstrip.
  pose proof (proj1 (@runs_single cls sep Hs t false)) as H1.
  pose proof (@runs_head cls sep t Hh) as H2.
  pose proof (proj1 (@runs_last cls sep t Hl)) as H3.
  now rewrite H1, H2, H3.
Qed.

Lemma separated_parts cls sep s :
  separated cls sep s = true ->
  head_ok cls s = true /\ single_seps cls sep s = true /\ last_ok cls s = true.
Proof.
  unfold separated. intros H. apply andb_true_iff in H as [H H3].
  apply andb_true_iff in H as [H1 H2]. auto.
Qed.

(** What is cut from the left of a separated text, and stripped, is
    separated. *)
Lemma separated_drop_lstrip cls sep n s :
  separated cls sep s = true ->
  separated cls sep (Str.lstrip_by cls (Str.drop n s)) = true.
Proof.
  intros H. apply separated_parts in H as (_ & H2 & H3). unfold separated.
  rewrite head_ok_lstrip.
  rewrite (@single_seps_lstrip cls sep cls _ (@single_seps_drop cls sep n _ H2)).
  now rewrite (@last_ok_lstrip cls cls _ (@last_ok_drop cls n _ H3)).
Qed.

End ShapeFacts.

(* ================================================================= *)
(** ** White space outside ASCII *)

Module SpaceFacts.
Import Shape ShapeFacts.

Ltac bits c := destruct c as [[] [] [] [] [] [] [] []].

Ltac by_bits c :=
  bits c; vm_compute; try reflexivity;
  let H := fresh in intros H; (discriminate H || reflexivity).

(** Induction on a text with every shorter text at hand. *)
Lemma length_ind (P : string -> Prop) :
  (forall s, (forall t, String.length t < String.length s -> P t) -> P s) ->
  forall s, P s.
Proof.
  intros H s. remember (String.length s) as n eqn:E. revert s E.
  induction n as [n IH] using lt_wf_ind. intros s ->.
  apply H. intros t Ht. now apply (IH (String.length t)).
Qed.

(** The bytes of a white-space character outside ASCII: the first is no
    ASCII white space, the others continue a sequence. *)
Lemma space2_lead c1 c2 : Str.is_space2 c1 c2 = true -> Str.is_space c1 = false.
Proof. by_bits c1. Qed.

Lemma space3_lead c1 c2 c3 :
  Str.is_space3 c1 c2 c3 = true -> Str.is_space c1 = false.
Proof. by_bits c1. Qed.

Lemma space2_cont c1 c2 :
  Str.is_space2 c1 c2 = true -> is_continuation c2 = true.
Proof.
  unfold Str.is_space2. intros H. apply andb_true_iff in H as [_ H].
  revert H. by_bits c2.
Qed.

Lemma space3_cont2 c1 c2 c3 :
  Str.is_space3 c1 c2 c3 = true -> is_continuation c2 = true.
Proof.
  unfold Str.is_space3. intros H.
  assert (Hc : Str.is_byte 154 c2 || Str.is_byte 128 c2 || Str.is_byte 129 c2
               = true).
  { destruct (Str.is_byte 154 c2), (Str.is_byte 128 c2), (Str.is_byte 129 c2);
      try reflexivity.
    rewrite !andb_false_r in H. cbn [andb orb] in H. exact H. }
  revert Hc. clear H. by_bits c2.
Qed.

Lemma space3_cont3 c1 c2 c3 :
  Str.is_space3 c1 c2 c3 = true -> is_continuation c3 = true.
Proof.
  unfold Str.is_space3. intros H.
  destruct (is_continuation c3) eqn:E; [reflexivity|].
  assert (H0 : Str.is_byte 128 c3 = false /\ Str.is_byte 159 c3 = false
               /\ ((128 <=? nat_of_ascii c3) && (nat_of_ascii c3 <=? 138)
                   || Nat.eqb (nat_of_ascii c3) 168
                   || Nat.eqb (nat_of_ascii c3) 169
                   || Nat.eqb (nat_of_ascii c3) 175) = false).
  { revert E. clear H. bits c3; vm_compute; intros H;
      (discriminate H || (repeat split; reflexivity)). }
  destruct H0 as (H1 & H2 & H3). rewrite H1, H2, H3 in H.
  rewrite !andb_false_r in H. cbn [orb] in H. exact H.
Qed.

(** One step of [lstrip] and of [spaces]. *)
Lemma lstrip_step s :
  Str.lstrip s
  = match space_len s with
    | 0 => s
    | n => Str.lstrip (Str.drop n s)
    end.
Proof.
  destruct s as [|c1 r1]; [reflexivity|]. cbn [Str.lstrip space_len].
  destruct (Str.is_space c1); [reflexivity|].
  destruct r1 as [|c2 r2]; [reflexivity|].
  destruct (Str.is_space2 c1 c2); [reflexivity|].
  destruct r2 as [|c3 r3]; [reflexivity|].
  now destruct (Str.is_space3 c1 c2 c3).
Qed.

Lemma spaces_step c r :
  Str.spaces (String c r)
  = match space_len (String c r) with
    | 0 | 1 => String c (Str.spaces r)
    | n => String " " (Str.spaces (Str.drop n (String c r)))
    end.
Proof.
  cbn [Str.spaces space_len].
  destruct (Str.is_space c) eqn:E.
  - destruct r as [|c2 r2]; [reflexivity|].
    destruct (Str.is_space2 c c2) eqn:E2;
      [apply space2_lead in E2; congruence|].
    destruct r2 as [|c3 r3]; [reflexivity|].
    destruct (Str.is_space3 c c2 c3) eqn:E3;
      [apply space3_lead in E3; congruence | reflexivity].
  - destruct r as [|c2 r2]; [reflexivity|].
    destruct (Str.is_space2 c c2); [reflexivity|].
    destruct r2 as [|c3 r3]; [reflexivity|].
    now destruct (Str.is_space3 c c2 c3).
Qed.

Lemma space_len_le s : space_len s <= String.length s.
Proof.
  destruct s as [|c1 r1]; cbn [space_len String.length]; [lia|].
  destruct (Str.is_space c1); [lia|].
  destruct r1 as [|c2 r2]; cbn [String.length]; [lia|].
  destruct (Str.is_space2 c1 c2); [lia|].
  destruct r2 as [|c3 r3]; cbn [String.length]; [lia|].
  destruct (Str.is_space3 c1 c2 c3); lia.
Qed.

Lemma length_drop n : forall s,
  String.length (Str.drop n s) = String.length s - n.
Proof.
  induction n as [|n IH]; intros s; cbn [Str.drop]; [lia|].
  destruct s as [|c s]; cbn [String.length]; [reflexivity | apply IH].
Qed.

Lemma drop_shorter s :
  0 < space_len s -> String.length (Str.drop (space_len s) s) < String.length s.
Proof.
  intros H. rewrite length_drop. pose proof (space_len_le s). lia.
Qed.

Lemma space_len_head c r :
  space_len (String c r) = 0 -> Str.is_space c = false.
Proof. cbn [space_len]. now destruct (Str.is_space c). Qed.

Lemma space_len_one s :
  space_len s = 1 ->
  exists c r, s = String c r /\ Str.is_space c = true.
Proof.
  destruct s as [|c1 r1]; cbn [space_len]; [discriminate|].
  destruct (Str.is_space c1) eqn:E1.
  - intros _. exists c1, r1. now split.
  - destruct r1 as [|c2 r2]; [discriminate|].
    destruct (Str.is_space2 c1 c2); [discriminate|].
    destruct r2 as [|c3 r3]; [discriminate|].
    destruct (Str.is_space3 c1 c2 c3); discriminate.
Qed.

(** [spaces] and [lstrip]: the white space that [lstrip] drops is the
    ASCII white space at the start of the text with spaces. *)
Lemma spaces_lstrip s :
  Str.spaces (Str.lstrip s) = Str.lstrip_by Str.is_space (Str.spaces s).
Proof.
  induction s as [s IH] using length_ind.
  destruct s as [|c r]; [reflexivity|].
  rewrite lstrip_step, spaces_step.
  destruct (space_len (String c r)) as [|[|n]] eqn:E.
  - rewrite spaces_step, E. cbn [Str.lstrip_by].
    now rewrite (space_len_head _ _ E).
  - apply space_len_one in E as (c' & r' & E' & Hc).
    injection E' as <- <-.
    cbn [Str.drop Str.lstrip_by]. rewrite Hc. apply IH. cbn. lia.
  - cbn [Str.lstrip_by]. change (Str.is_space " ") with true. cbv iota.
    apply IH. rewrite <- E. apply drop_shorter. lia.
Qed.

Lemma byte_lead n c :
  Str.is_byte n c = true -> 192 <= n -> is_continuation c = false.
Proof.
  unfold Str.is_byte. intros H Hn. apply Nat.eqb_eq in H. subst n.
  destruct (is_continuation c) eqn:E; [|reflexivity].
  assert (Hc : (nat_of_ascii c <? 192) = true) by (revert E; by_bits c).
  apply Nat.ltb_lt in Hc. lia.
Qed.

Lemma space_not_cont c : Str.is_space c = true -> is_continuation c = false.
Proof. by_bits c. Qed.

(** A white-space character does not start with a byte that continues a
    sequence. *)
Lemma space_len_lead c r :
  0 < space_len (String c r) -> is_continuation c = false.
Proof.
  cbn [space_len]. destruct (Str.is_space c) eqn:E1;
    [intros _; now apply space_not_cont|].
  destruct r as [|c2 r2]; [lia|].
  destruct (Str.is_space2 c c2) eqn:E2.
  { intros _. unfold Str.is_space2 in E2. apply andb_true_iff in E2 as [E2 _].
    apply (@byte_lead _ _ E2). lia. }
  destruct r2 as [|c3 r3]; [lia|].
  destruct (Str.is_space3 c c2 c3) eqn:E3; [intros _ | lia].
  unfold Str.is_space3 in E3.
  destruct (Str.is_byte 225 c) eqn:B1; [apply (@byte_lead _ _ B1); lia|].
  destruct (Str.is_byte 226 c) eqn:B2; [apply (@byte_lead _ _ B2); lia|].
  destruct (Str.is_byte 227 c) eqn:B3; [apply (@byte_lead _ _ B3); lia|].
  discriminate E3.
Qed.

(** The character at the start of a text is the same whatever follows the
    text, when that starts a character of its own. *)
Lemma space_len_app a b :
  0 < space_len a \/ (a <> "" /\ head_ok is_continuation b = true) ->
  space_len (a +++ b) = space_len a.
Proof.
  intros H. destruct a as [|c1 r1]; [cbn in H; destruct H as [H|[H _]]; [lia | congruence]|].
  cbn [String.append space_len] in *.
  destruct (Str.is_space c1); [reflexivity|].
  destruct r1 as [|c2 r2]; cbn [String.append].
  - destruct H as [H|[_ H]]; [lia|].
    destruct b as [|d b']; [reflexivity|]. cbn [head_ok] in H.
    apply negb_true_iff in H.
    destruct (Str.is_space2 c1 d) eqn:E2;
      [apply space2_cont in E2; congruence|].
    destruct b' as [|e b'']; [reflexivity|].
    destruct (Str.is_space3 c1 d e) eqn:E3;
      [apply space3_cont2 in E3; congruence | reflexivity].
  - destruct (Str.is_space2 c1 c2); [reflexivity|].
    destruct r2 as [|c3 r3]; cbn [String.append]; [|reflexivity].
    destruct H as [H|[_ H]]; [lia|].
    destruct b as [|d b']; [reflexivity|]. cbn [head_ok] in H.
    apply negb_true_iff in H.
    destruct (Str.is_space3 c1 c2 d) eqn:E3;
      [apply space3_cont3 in E3; congruence | reflexivity].
Qed.

Lemma drop_app_le n : forall a b,
  n <= String.length a -> Str.drop n (a +++ b) = Str.drop n a +++ b.
Proof.
  induction n as [|n IH]; intros a b H; [reflexivity|].
  destruct a as [|c a]; cbn [String.length] in H; [lia|].
  cbn [String.append Str.drop]. apply IH. lia.
Qed.

Lemma drop_drop n : forall m s, Str.drop m (Str.drop n s) = Str.drop (n + m) s.
Proof.
  induction n as [|n IH]; intros m s; [reflexivity|].
  destruct s as [|c s]; cbn [Str.drop Nat.add]; [now destruct m | apply IH].
Qed.

Lemma drop_suffix n : forall s, exists pre, s = pre +++ Str.drop n s.
Proof.
  induction n as [|n IH]; intros s; [now exists ""|].
  destruct s as [|c s]; [now exists ""|].
  destruct (IH s) as (pre & E). exists (String c pre).
  cbn [Str.drop String.append]. now rewrite <- E.
Qed.

(** A text of white space only, followed by another. *)
Lemma lstrip_app a : forall b, Str.lstrip a = "" -> Str.lstrip (a +++ b) = Str.lstrip b.
Proof.
  induction a as [a IH] using length_ind. intros b H.
  destruct a as [|c r]; [reflexivity|].
  rewrite lstrip_step in H. rewrite (lstrip_step (String c r +++ b)).
  destruct (space_len (String c r)) as [|n] eqn:E; [discriminate H|].
  rewrite space_len_app, E by (left; lia).
  rewrite drop_app_le by (rewrite <- E; apply space_len_le).
  apply IH; [|exact H]. rewrite <- E. apply drop_shorter. lia.
Qed.

Lemma lstrip_empty_head w : Str.lstrip w = "" -> head_ok is_continuation w = true.
Proof.
  destruct w as [|c r]; [reflexivity|]. rewrite lstrip_step.
  destruct (space_len (String c r)) as [|n] eqn:E; [discriminate|].
  intros _. cbn [head_ok]. rewrite (space_len_lead c r); [reflexivity | lia].
Qed.

Lemma spaces_nonempty c r : Str.spaces (String c r) <> "".
Proof.
  rewrite spaces_step. destruct (space_len (String c r)) as [|[|n]]; discriminate.
Qed.

Lemma lstrip_empty_spaces w :
  Str.lstrip w = "" -> all Str.is_space (Str.spaces w) = true.
Proof.
  induction w as [w IH] using length_ind. intros H.
  destruct w as [|c r]; [reflexivity|].
  rewrite lstrip_step in H. rewrite spaces_step.
  destruct (space_len (String c r)) as [|[|n]] eqn:E; [discriminate H| |].
  - apply space_len_one in E as (c' & r' & E' & Hc). injection E' as <- <-.
    cbn [all Str.drop] in *. rewrite Hc. apply IH; [cbn; lia | exact H].
  - cbn [all]. change (Str.is_space " ") with true. cbn [andb].
    apply IH; [|exact H]. rewrite <- E. apply drop_shorter. lia.
Qed.

(** [spaces] of two texts put together, when the second starts a
    character of its own. *)
Lemma spaces_app p : forall w,
  head_ok is_continuation w = true ->
  Str.spaces (p +++ w) = Str.spaces p +++ Str.spaces w.
Proof.
  induction p as [p IH] using length_ind. intros w Hw.
  destruct p as [|c r]; [reflexivity|].
  change (String c r +++ w) with (String c (r +++ w)).
  rewrite !spaces_step.
  change (String c (r +++ w)) with (String c r +++ w).
  rewrite space_len_app by (right; split; [discriminate | exact Hw]).
  destruct (space_len (String c r)) as [|[|n]] eqn:E.
  - cbn [String.append]. f_equal. apply IH; [cbn; lia | exact Hw].
  - cbn [String.append]. f_equal. apply IH; [cbn; lia | exact Hw].
  - rewrite drop_app_le by (rewrite <- E; apply space_len_le).
    cbn [String.append]. f_equal. apply IH; [|exact Hw].
    rewrite <- E. apply drop_shorter. lia.
Qed.

(** Stripping a class at the end of a text that ends with characters of
    the class only. *)
Lemma rstrip_by_all f y : all f y = true -> Str.rstrip_by f y = "".
Proof.
  induction y as [|c y IH]; [reflexivity|]. cbn [all]. intros H.
  apply andb_true_iff in H as [Hc Hy]. rewrite rstrip_cons, (IH Hy).
  cbn [Str.is_empty]. now rewrite Hc.
Qed.

Lemma rstrip_by_app f x y :
  all f y = true -> Str.rstrip_by f (x +++ y) = Str.rstrip_by f x.
Proof.
  intros Hy. induction x as [|c x IH]; cbn [String.append].
  - now rewrite rstrip_by_all.
  - now rewrite !rstrip_cons, IH.
Qed.

Lemma rstrip_cons_u c s :
  Str.rstrip (String c s)
  = if Str.is_empty (Str.lstrip (String c s)) then ""
    else String c (Str.rstrip s).
Proof.
  change (Str.rstrip (String c s))
    with (match Str.lstrip (String c s) with
          | EmptyString => ""
          | String _ _ => String c (Str.rstrip s)
          end).
  now destruct (Str.lstrip (String c s)).
Qed.

(** What [rstrip] does: the text is what is kept and white space after it,
    and nothing but white space follows no point of what is kept. *)
Lemma rstrip_spec s :
  exists w,
    s = Str.rstrip s +++ w
    /\ Str.lstrip w = ""
    /\ (forall a b, Str.rstrip s = a +++ b -> b <> "" -> Str.lstrip b <> "").
Proof.
  induction s as [|c s (w & Hs & Hw & Hp)].
  - exists "". repeat split. intros [|? ?] [|? ?]; cbn; congruence.
  - rewrite rstrip_cons_u. destruct (Str.lstrip (String c s)) as [|d t] eqn:E;
      cbn [Str.is_empty].
    + exists (String c s). repeat split; [exact E|].
      intros [|? ?] [|? ?]; cbn; congruence.
    + exists w. split; [cbn [String.append]; now rewrite <- Hs|].
      split; [exact Hw|]. intros a b Hab Hb.
      destruct a as [|c' a]; cbn [String.append] in Hab.
      * subst b. intros Hl. rewrite Hs in E.
        change (String c (Str.rstrip s +++ w))
          with (String c (Str.rstrip s) +++ w) in E.
        rewrite (lstrip_app _ _ Hl), Hw in E. discriminate E.
      * injection Hab as <- Hab. now apply (Hp a b).
Qed.

(** After [spaces], what [rstrip] keeps does not end with white space. *)
Lemma spaces_last_ok p :
  (forall a b, p = a +++ b -> b <> "" -> Str.lstrip b <> "") ->
  last_ok Str.is_space (Str.spaces p) = true.
Proof.
  induction p as [p IH] using length_ind. intros Hp.
  destruct p as [|c r]; [reflexivity|].
  assert (Hne : Str.lstrip (String c r) <> "")
    by (apply (Hp "" (String c r)); [reflexivity | discriminate]).
  assert (Htail : forall n, Str.drop n (String c r) <> "" ->
            String.length (Str.drop n (String c r)) < String.length (String c r) ->
            last_ok Str.is_space (Str.spaces (Str.drop n (String c r))) = true).
  { intros n Hn Hlt. apply IH; [exact Hlt|]. intros a b Hab Hb.
    destruct (drop_suffix n (String c r)) as (pre & Epre).
    apply (Hp (pre +++ a) b); [|exact Hb].
    rewrite Epre at 1. rewrite Hab. now rewrite StrFacts.append_assoc. }
  rewrite lstrip_step in Hne. rewrite spaces_step.
  destruct (space_len (String c r)) as [|[|n]] eqn:E.
  - rewrite last_ok_cons. destruct r as [|c2 r2].
    + cbn. now rewrite (space_len_head _ _ E).
    + destruct (Str.spaces (String c2 r2)) eqn:E2;
        [now apply spaces_nonempty in E2|].
      cbn [Str.is_empty]. rewrite <- E2.
      apply (Htail 1); [discriminate | cbn; lia].
  - cbn [Str.drop] in Hne. rewrite last_ok_cons. destruct r as [|c2 r2].
    + now contradiction Hne.
    + destruct (Str.spaces (String c2 r2)) eqn:E2;
        [now apply spaces_nonempty in E2|].
      cbn [Str.is_empty]. rewrite <- E2.
      apply (Htail 1); [discriminate | cbn; lia].
  - rewrite last_ok_cons.
    destruct (Str.drop (S (S n)) (String c r)) as [|c2 r2] eqn:Ed.
    + now contradiction Hne.
    + destruct (Str.spaces (String c2 r2)) eqn:E2;
        [now apply spaces_nonempty in E2|].
      cbn [Str.is_empty]. rewrite <- E2, <- Ed.
      apply Htail; [rewrite Ed; discriminate|].
      rewrite <- E. apply drop_shorter. lia.
Qed.

(** [spaces] and [rstrip]. *)
Lemma spaces_rstrip s :
  Str.spaces (Str.rstrip s) = Str.rstrip_by Str.is_space (Str.spaces s).
Proof.
  destruct (rstrip_spec s) as (w & Hs & Hw & Hp).
  rewrite Hs at 2. rewrite spaces_app by now apply lstrip_empty_head.
  rewrite rstrip_by_app by now apply lstrip_empty_spaces.
  symmetry. apply rstrip_id. now apply spaces_last_ok.
Qed.

(** A pattern run after [strip()] sees the text with spaces, stripped of
    its ASCII white space. *)
Lemma spaces_strip s :
  Str.spaces (Str.strip s)
  = Str.rstrip_by Str.is_space (Str.lstrip_by Str.is_space (Str.spaces s)).
Proof. unfold Str.strip. now rewrite spaces_rstrip, spaces_lstrip. Qed.

(** ** What [lstrip] and [rstrip] keep *)

Lemma lstrip_drop s : exists k, Str.lstrip s = Str.drop k s.
Proof.
  induction s as [s IH] using length_ind. rewrite lstrip_step.
  destruct (space_len s) as [|n] eqn:E; [now exists 0|].
  destruct (IH (Str.drop (S n) s)) as (k & Hk).
  { rewrite <- E. apply drop_shorter. lia. }
  exists (S n + k). now rewrite Hk, drop_drop.
Qed.

Lemma lstrip_head s : space_len (Str.lstrip s) = 0.
Proof.
  induction s as [s IH] using length_ind. rewrite lstrip_step.
  destruct (space_len s) as [|n] eqn:E; [exact E|].
  apply IH. rewrite <- E. apply drop_shorter. lia.
Qed.

Lemma head_ok_space_len s : space_len s = 0 -> head_ok Str.is_space s = true.
Proof.
  destruct s as [|c r]; [reflexivity|]. intros H. cbn [head_ok].
  now rewrite (space_len_head _ _ H).
Qed.

Lemma head_ok_lstrip_u s : head_ok Str.is_space (Str.lstrip s) = true.
Proof. apply head_ok_space_len, lstrip_head. Qed.

Lemma single_seps_lstrip_u cls sep s :
  single_seps cls sep s = true -> single_seps cls sep (Str.lstrip s) = true.
Proof.
  intros H. destruct (lstrip_drop s) as (k & ->). now apply single_seps_drop.
Qed.


Lemma rstrip_prefix s : exists w, s = Str.rstrip s +++ w.
Proof. destruct (rstrip_spec s) as (w & H & _). now exists w. Qed.

Lemma last_ok_rstrip_u s : last_ok Str.is_space (Str.rstrip s) = true.
Proof.
  destruct (rstrip_spec s) as (_ & _ & _ & Hp). revert Hp.
  generalize (Str.rstrip s). intros p. induction p as [|c p IH]; [reflexivity|].
  intros Hp. rewrite last_ok_cons. destruct p as [|d p]; cbn [Str.is_empty].
  - destruct (Str.is_space c) eqn:E; [|reflexivity].
    exfalso. apply (Hp "" (String c "")); [reflexivity | discriminate|].
    cbn [Str.lstrip]. now rewrite E.
  - apply IH. intros a b Hab. apply (Hp (String c a) b).
    cbn [String.append]. now rewrite Hab.
Qed.

Lemma head_ok_app_l cls a b :
  head_ok cls (a +++ b) = true -> head_ok cls a = true.
Proof. now destruct a. Qed.

Lemma head_ok_rstrip_u cls s :
  head_ok cls s = true -> head_ok cls (Str.rstrip s) = true.
Proof.
  destruct (rstrip_prefix s) as (w & E). rewrite E at 1. apply head_ok_app_l.
Qed.

Lemma single_seps_app_l cls sep a : forall b,
  single_seps cls sep (a +++ b) = true -> single_seps cls sep a = true.
Proof.
  induction a as [|c a IH]; intros b; [reflexivity|].
  cbn [String.append single_seps]. intros H.
  apply andb_true_iff in H as [Hc H]. rewrite (IH _ H), andb_true_r.
  destruct (cls c); [|reflexivity]. apply andb_true_iff in Hc as [-> Hc].
  cbn [andb]. now apply head_ok_app_l in Hc.
Qed.

Lemma single_seps_rstrip_u cls sep s :
  single_seps cls sep s = true -> single_seps cls sep (Str.rstrip s) = true.
Proof.
  destruct (rstrip_prefix s) as (w & E). rewrite E at 1.
  apply single_seps_app_l.
Qed.

(** What [strip()] gives has no ASCII white space at either end, and keeps
    the single separators of the text. *)
Lemma strip_ends_ok s :
  head_ok Str.is_space (Str.strip s) = true
  /\ last_ok Str.is_space (Str.strip s) = true.
Proof.
  unfold Str.strip. split; [|apply last_ok_rstrip_u].
  apply head_ok_rstrip_u, head_ok_lstrip_u.
Qed.

(** ** Text without white space outside ASCII *)

Lemma length_spaces s : String.length (Str.spaces s) <= String.length s.
Proof.
  induction s as [s IH] using length_ind. destruct s as [|c r]; [cbn; lia|].
  rewrite spaces_step.
  destruct (space_len (String c r)) as [|[|n]] eqn:E; cbn [String.length].
  - specialize (IH r). cbn in IH. lia.
  - specialize (IH r). cbn in IH. lia.
  - pose proof (IH (Str.drop (S (S n)) (String c r))) as H.
    rewrite length_drop in *. cbn [String.length] in *.
    pose proof (space_len_le (String c r)) as Hl. rewrite E in Hl.
    cbn [String.length] in Hl. lia.
Qed.

Lemma length_append_nil a w :
  String.length a <= String.length (a +++ w) - String.length w ->
  String.length (a +++ w) <= String.length a -> w = "".
Proof.
  rewrite StrFacts.length_append. destruct w; [reflexivity|]. cbn. lia.
Qed.

Lemma lstrip_fixed s :
  head_ok Str.is_space s = true -> Str.spaces s = s -> Str.lstrip s = s.
Proof.
  intros Hh Hs. rewrite lstrip_step.
  destruct (space_len s) as [|[|n]] eqn:E; [reflexivity| |].
  - apply space_len_one in E as (c & r & -> & Hc). cbn in Hh.
    now rewrite Hc in Hh.
  - exfalso. destruct s as [|c r]; [discriminate E|].
    rewrite spaces_step, E in Hs. injection Hs as <- _.
    discriminate E.
Qed.

Lemma rstrip_fixed s :
  last_ok Str.is_space s = true -> Str.spaces s = s -> Str.rstrip s = s.
Proof.
  intros Hl Hs. pose proof (spaces_rstrip s) as H.
  rewrite Hs, (rstrip_id _ _ Hl) in H.
  destruct (rstrip_prefix s) as (w & E).
  pose proof (length_spaces (Str.rstrip s)) as Hle. rewrite H in Hle.
  assert (Hw : w = "").
  { rewrite E in Hle at 1. rewrite StrFacts.length_append in Hle.
    destruct w; [reflexivity | cbn in Hle; lia]. }
  subst w. now rewrite StrFacts.append_nil_r in E.
Qed.

(** A text without white space at either end and without white space
    outside ASCII is left as it is by [strip()]. *)
Lemma strip_fixed s :
  head_ok Str.is_space s = true -> last_ok Str.is_space s = true ->
  Str.spaces s = s -> Str.strip s = s.
Proof.
  intros Hh Hl Hs. unfold Str.strip. rewrite (@lstrip_fixed s Hh Hs).
  now apply rstrip_fixed.
Qed.

Lemma spaces_fixed_tail c r :
  Str.spaces (String c r) = String c r ->
  Str.spaces r = r /\ space_len (String c r) <= 1.
Proof.
  rewrite spaces_step. destruct (space_len (String c r)) as [|[|n]] eqn:E.
  - intros [= H]. split; [exact H | lia].
  - intros [= H]. split; [exact H | lia].
  - intros [= <- _]. discriminate E.
Qed.

Lemma spaces_cons c r :
  space_len (String c r) <= 1 ->
  Str.spaces (String c r) = String c (Str.spaces r).
Proof.
  intros H. rewrite spaces_step.
  destruct (space_len (String c r)) as [|[|n]]; [reflexivity | reflexivity | lia].
Qed.

(** A white-space character of two or three bytes: its later bytes
    continue a sequence. *)
Lemma space_len_wide c y :
  2 <= space_len (String c y) ->
  exists d y',
    y = String d y' /\ is_continuation d = true
    /\ (Str.is_space2 c d = true
        \/ exists e y'',
             y' = String e y'' /\ is_continuation e = true
             /\ Str.is_space3 c d e = true).
Proof.
  cbn [space_len]. destruct (Str.is_space c); [lia|].
  destruct y as [|d y']; [lia|].
  destruct (Str.is_space2 c d) eqn:E2.
  - intros _. exists d, y'. split; [reflexivity|].
    split; [now apply space2_cont in E2 | now left].
  - destruct y' as [|e y'']; [lia|].
    destruct (Str.is_space3 c d e) eqn:E3; [intros _ | lia].
    exists d, (String e y''). split; [reflexivity|].
    split; [now apply space3_cont2 in E3|]. right. exists e, y''.
    split; [reflexivity|]. split; [now apply space3_cont3 in E3 | exact E3].
Qed.

Lemma space_len_two c d y :
  Str.is_space2 c d = true -> 2 <= space_len (String c (String d y)).
Proof.
  intros H. cbn [space_len]. rewrite (space2_lead _ _ H), H. lia.
Qed.

Lemma space_len_three c d e y :
  Str.is_space3 c d e = true ->
  2 <= space_len (String c (String d (String e y))).
Proof.
  intros H. cbn [space_len]. rewrite (space3_lead _ _ _ H), H.
  destruct (Str.is_space2 c d); lia.
Qed.

(** A function that hands on the bytes that continue a sequence puts no
    white-space character where there was none. *)
Lemma wide_transfer (f : string -> string) :
  (forall x d y, f x = String d y -> is_continuation d = true ->
     exists x', x = String d x' /\ y = f x') ->
  forall c x, 2 <= space_len (String c (f x)) -> 2 <= space_len (String c x).
Proof.
  intros Hf c x H.
  apply space_len_wide in H as (d & y' & Ey & Hd & [H2 | (e & y'' & Ey' & He & H3)]).
  - destruct (Hf _ _ _ Ey Hd) as (x' & -> & _). now apply space_len_two.
  - destruct (Hf _ _ _ Ey Hd) as (x' & -> & Ex'). symmetry in Ex'.
    rewrite Ey' in Ex'. destruct (Hf _ _ _ Ex' He) as (x'' & -> & _).
    now apply space_len_three.
Qed.

Lemma cont_not_space d : is_continuation d = true -> d <> " "%char.
Proof. intros H ->. discriminate H. Qed.

Lemma spaces_head_cont x d y :
  Str.spaces x = String d y -> is_continuation d = true ->
  exists x', x = String d x' /\ y = Str.spaces x'.
Proof.
  destruct x as [|c r]; [discriminate|]. rewrite spaces_step.
  destruct (space_len (String c r)) as [|[|n]].
  - intros [= <- <-] _. now exists r.
  - intros [= <- <-] _. now exists r.
  - intros [= <- _] H. discriminate H.
Qed.

Lemma runs_head_cont x d y :
  sub_runs_from false Str.is_space " " x = String d y ->
  is_continuation d = true ->
  exists x', x = String d x' /\ y = sub_runs_from false Str.is_space " " x'.
Proof.
  destruct x as [|c r]; [discriminate|]. cbn [sub_runs_from].
  destruct (Str.is_space c).
  - cbn [String.append]. intros [= <- _] H. discriminate H.
  - intros [= <- <-] _. now exists r.
Qed.

Lemma space_len_space y : space_len (String " " y) = 1.
Proof. reflexivity. Qed.

(** [spaces] leaves no white space outside ASCII. *)
Lemma spaces_idem t : Str.spaces (Str.spaces t) = Str.spaces t.
Proof.
  induction t as [t IH] using length_ind. destruct t as [|c r]; [reflexivity|].
  rewrite (spaces_step c r).
  destruct (space_len (String c r)) as [|[|n]] eqn:E.
  - rewrite spaces_cons; [f_equal; apply IH; cbn; lia|].
    destruct (le_lt_dec (space_len (String c (Str.spaces r))) 1) as [H|H];
      [exact H|].
    apply (wide_transfer Str.spaces spaces_head_cont) in H. lia.
  - apply space_len_one in E as (c' & r' & E' & Hc). injection E' as <- <-.
    rewrite spaces_cons; [f_equal; apply IH; cbn; lia|].
    cbn [space_len]. rewrite Hc. lia.
  - rewrite spaces_cons; [|rewrite space_len_space; lia]. f_equal. apply IH.
    rewrite <- E. apply drop_shorter. lia.
Qed.

(** Text that holds no white space outside ASCII: what is cut from it and
    what [re.sub] makes of it hold none. *)
Lemma spaces_fixed_lstrip f s :
  Str.spaces s = s -> Str.spaces (Str.lstrip_by f s) = Str.lstrip_by f s.
Proof.
  induction s as [|c s IH]; [trivial|]. cbn [Str.lstrip_by]. intros H.
  destruct (f c); [|exact H]. apply IH. now apply spaces_fixed_tail in H.
Qed.

Lemma spaces_fixed_prefix a : forall w,
  Str.spaces (a +++ w) = a +++ w -> Str.spaces a = a.
Proof.
  induction a as [|c a IH]; intros w; [reflexivity|].
  cbn [String.append]. intros H. apply spaces_fixed_tail in H as [H Hl].
  rewrite spaces_cons; [f_equal; now apply (IH w)|].
  destruct (le_lt_dec (space_len (String c a)) 1) as [Hc|Hc]; [exact Hc|].
  change (String c (a +++ w)) with (String c a +++ w) in Hl.
  rewrite space_len_app in Hl by (left; lia). exact Hl.
Qed.

Lemma rstrip_by_prefix f s : exists w, s = Str.rstrip_by f s +++ w.
Proof.
  induction s as [|c s (w & IH)]; [now exists ""|]. rewrite rstrip_cons.
  destruct (Str.is_empty (Str.rstrip_by f s)) eqn:E.
  - destruct (f c); [now exists (String c s) | now exists s].
  - exists w. cbn [String.append]. now rewrite <- IH.
Qed.

Lemma spaces_fixed_rstrip f s :
  Str.spaces s = s -> Str.spaces (Str.rstrip_by f s) = Str.rstrip_by f s.
Proof.
  destruct (rstrip_by_prefix f s) as (w & E). intros H. rewrite E in H.
  now apply spaces_fixed_prefix in H.
Qed.

Lemma spaces_fixed_runs s : forall b,
  Str.spaces s = s ->
  Str.spaces (sub_runs_from b Str.is_space " " s)
  = sub_runs_from b Str.is_space " " s.
Proof.
  induction s as [|c s IH]; intros b H; [reflexivity|].
  apply spaces_fixed_tail in H as [H Hl]. cbn [sub_runs_from].
  destruct (Str.is_space c) eqn:Ec.
  - destruct b; [now apply IH|]. cbn [String.append].
    rewrite spaces_cons; [f_equal; now apply IH | rewrite space_len_space; lia].
  - rewrite spaces_cons; [f_equal; now apply IH|].
    destruct (le_lt_dec
                (space_len (String c (sub_runs_from false Str.is_space " " s))) 1)
      as [Hc|Hc]; [exact Hc|].
    apply (wide_transfer (sub_runs_from false Str.is_space " ") runs_head_cont)
      in Hc. lia.
Qed.


(** Stripping a text in which white space is single spaces. *)
Lemma strip_single_seps_u s :
  single_seps Str.is_space " " s = true -> ws_normal (Str.strip s) = true.
Proof.
  intros H. unfold ws_normal, separated.
  destruct (strip_ends_ok s) as [-> ->]. unfold Str.strip.
  now rewrite (@single_seps_rstrip_u Str.is_space " " _
                 (@single_seps_lstrip_u Str.is_space " " s H)).
Qed.

Lemma spaces_fixed_drop n : forall s,
  Str.spaces s = s -> Str.spaces (Str.drop n s) = Str.drop n s.
Proof.
  induction n as [|n IH]; intros s H; [exact H|].
  destruct s as [|c s]; [reflexivity|]. cbn [Str.drop]. apply IH.
  now apply spaces_fixed_tail in H.
Qed.

Lemma spaces_fixed_strip s :
  Str.spaces s = s -> Str.spaces (Str.strip s) = Str.strip s.
Proof.
  intros H. unfold Str.strip. destruct (rstrip_prefix (Str.lstrip s)) as (w & E).
  apply (spaces_fixed_prefix _ w). rewrite <- E.
  destruct (lstrip_drop s) as (k & ->). now apply spaces_fixed_drop.
Qed.

Lemma count_drop f n : forall s, count f (Str.drop n s) <= count f s.
Proof.
  induction n as [|n IH]; intros s; [cbn; lia|].
  destruct s as [|c s]; [cbn; lia|]. cbn [Str.drop count].
  specialize (IH s). lia.
Qed.

Lemma count_strip_u f s : count f (Str.strip s) <= count f s.
Proof.
  unfold Str.strip. destruct (rstrip_prefix (Str.lstrip s)) as (w & E).
  destruct (lstrip_drop s) as (k & Ek).
  pose proof (count_drop f k s) as H1. rewrite <- Ek in H1.
  assert (H2 : count f (Str.lstrip s)
               = count f (Str.rstrip (Str.lstrip s)) + count f w).
  { rewrite E at 1. generalize (Str.rstrip (Str.lstrip s)). intros a.
    induction a as [|c a IH]; [reflexivity|]. cbn [String.append count].
    rewrite IH. lia. }
  lia.
Qed.

(** ** ASCII text *)

Lemma space_len_wide_lead c r :
  2 <= space_len (String c r) -> (192 <=? nat_of_ascii c) = true.
Proof.
  intros H. apply space_len_wide in H as (d & y & _ & _ & [H | (e & y' & _ & _ & H)]).
  - unfold Str.is_space2, Str.is_byte in H. apply andb_true_iff in H as [H _].
    apply Nat.eqb_eq in H. now rewrite H.
  - unfold Str.is_space3, Str.is_byte in H.
    destruct (Nat.eqb (nat_of_ascii c) 225) eqn:B1;
      [apply Nat.eqb_eq in B1; now rewrite B1|].
    destruct (Nat.eqb (nat_of_ascii c) 226) eqn:B2;
      [apply Nat.eqb_eq in B2; now rewrite B2|].
    destruct (Nat.eqb (nat_of_ascii c) 227) eqn:B3;
      [apply Nat.eqb_eq in B3; now rewrite B3|].
    discriminate H.
Qed.

(** Text of bytes below 0xC0 holds no white space outside ASCII. *)
Lemma spaces_low s :
  all (fun c => negb (192 <=? nat_of_ascii c)) s = true -> Str.spaces s = s.
Proof.
  induction s as [|c s IH]; [reflexivity|]. cbn [all]. intros H.
  apply andb_true_iff in H as [Hc Hs]. apply negb_true_iff in Hc.
  rewrite spaces_cons; [now rewrite IH|].
  destruct (le_lt_dec (space_len (String c s)) 1) as [H|H]; [exact H|].
  apply space_len_wide_lead in H. congruence.
Qed.

(** [lower()] on a byte that starts neither U+0130 nor U+212A. *)
Lemma lower_cons c r :
  Str.is_byte 196 c = false -> Str.is_byte 226 c = false ->
  Str.lower (String c r) = String (Str.lower_char c) (Str.lower r).
Proof.
  intros H1 H2. cbn [Str.lower]. rewrite H1, H2. cbn [andb].
  destruct r as [|c2 r2]; [reflexivity|]. now destruct r2.
Qed.

Lemma lower_low (p : ascii -> bool) s :
  (forall c, p c = true ->
     Str.is_byte 196 c = false /\ Str.is_byte 226 c = false
     /\ Str.lower_char c = c) ->
  all p s = true -> Str.lower s = s.
Proof.
  intros Hp. induction s as [|c s IH]; [reflexivity|]. cbn [all]. intros H.
  apply andb_true_iff in H as [Hc Hs]. destruct (Hp c Hc) as (H1 & H2 & H3).
  now rewrite lower_cons, H3, IH.
Qed.

End SpaceFacts.

(* ================================================================= *)
(** ** The slug functions and [_collapse_ws] *)

Module CharFacts.

Ltac by_cases c :=
  destruct c as [[] [] [] [] [] [] [] []]; vm_compute;
  try reflexivity; let H := fresh in intros H; (discriminate H || reflexivity).

Lemma space_not_alnum c :
  Str.is_space c = true -> negb (is_alnum_lower c) = true.
Proof. by_cases c. Qed.

Lemma hyphen_not_alnum c :
  Ascii.eqb c "-" = true -> negb (is_alnum_lower c) = true.
Proof. by_cases c. Qed.

Lemma slug_char_lower c : is_slug_char c = true -> Str.lower_char c = c.
Proof. by_cases c. Qed.

Lemma slug_char_not_space c :
  is_slug_char c = true -> negb (Str.is_space c || Ascii.eqb c "/") = true.
Proof. by_cases c. Qed.

Lemma slug_char_not_space' c :
  is_slug_char c = true -> negb (Str.is_space c) = true.
Proof. by_cases c. Qed.

Lemma slug_char_not_amp c : is_slug_char c = true -> negb (Ascii.eqb c "&") = true.
Proof. by_cases c. Qed.

Lemma alnum_or_hyphen c :
  negb (negb (is_alnum_lower c)) || Ascii.eqb c "-" = true -> is_slug_char c = true.
Proof. by_cases c. Qed.

Lemma hyphen_or_slug c : is_slug_char c = true -> is_hyphen c || is_slug_char c = true.
Proof. intros ->. apply orb_true_r. Qed.

Lemma slug_char_hyphen c :
  is_slug_char c = true -> negb (is_hyphen c) || Ascii.eqb c "-" = true.
Proof. by_cases c. Qed.

End CharFacts.

Module SlugFacts.
Import Shape ShapeFacts.

Lemma replace_amp_id s :
  all (fun c => negb (Ascii.eqb c "&")) s = true -> replace_amp s = s.
Proof.
  induction s as [|c s IH]; [trivial|]. cbn [all replace_amp]. intros H.
  apply andb_true_iff in H as [Hc Hs]. apply negb_true_iff in Hc.
  now rewrite Hc, IH.
Qed.

(** [_collapse_ws] seen on the text with spaces: the ASCII white space is
    stripped and its runs are collapsed. *)
Lemma collapse_ws_spaces text :
  _collapse_ws text
  = sub_runs Str.is_space " "
      (Str.rstrip_by Str.is_space
         (Str.lstrip_by Str.is_space (Str.spaces text))).
Proof. unfold _collapse_ws. now rewrite SpaceFacts.spaces_strip. Qed.

Lemma collapse_ws_normal text : ws_normal (_collapse_ws text) = true.
Proof.
  unfold ws_normal. rewrite collapse_ws_spaces. now apply strip_then_runs.
Qed.

(** The result holds no white space outside ASCII. *)
Lemma collapse_ws_narrow text :
  Str.spaces (_collapse_ws text) = _collapse_ws text.
Proof.
  rewrite collapse_ws_spaces. unfold sub_runs.
  apply SpaceFacts.spaces_fixed_runs, SpaceFacts.spaces_fixed_rstrip,
    SpaceFacts.spaces_fixed_lstrip, SpaceFacts.spaces_idem.
Qed.

Lemma collapse_ws_id s :
  ws_normal s = true -> Str.spaces s = s -> _collapse_ws s = s.
Proof.
  intros H Hs. apply separated_parts in H as (H1 & H2 & H3).
  unfold _collapse_ws. rewrite (@SpaceFacts.strip_fixed s H1 H3 Hs), Hs.
  now apply (@runs_id Str.is_space " " s H2).
Qed.

Lemma collapse_ws_idem t : _collapse_ws (_collapse_ws t) = _collapse_ws t.
Proof.
  apply collapse_ws_id; [apply collapse_ws_normal | apply collapse_ws_narrow].
Qed.


(** The characters of a slug. *)
Lemma slug_chars s : is_slug s = true -> all is_slug_char s = true.
Proof.
  intros H. apply separated_parts in H as (_ & H & _).
  apply single_seps_all in H. revert H. apply all_impl.
  apply CharFacts.alnum_or_hyphen.
Qed.

Lemma slug_chars_spaces s : all is_slug_char s = true -> Str.spaces s = s.
Proof.
  intros H. apply SpaceFacts.spaces_low. revert H. apply all_impl.
  intros c. CharFacts.by_cases c.
Qed.

Lemma slug_chars_strip s : all is_slug_char s = true -> Str.strip s = s.
Proof.
  intros H.
  destruct (@all_single_seps Str.is_space " " s) as (H1 & _ & H3).
  { revert H. apply all_impl. apply CharFacts.slug_char_not_space'. }
  apply SpaceFacts.strip_fixed; [exact H1 | exact H3 | now apply slug_chars_spaces].
Qed.

Lemma slug_chars_lower s : all is_slug_char s = true -> Str.lower s = s.
Proof.
  apply SpaceFacts.lower_low. intros c H. repeat split; revert H;
    CharFacts.by_cases c.
Qed.

Lemma slugify_is_slug name : is_slug (slugify name) = true.
Proof.
  unfold is_slug, slugify.
  apply (@strip_sep_separated (fun c => negb (is_alnum_lower c)) "-").
  apply (@runs_single (fun c => negb (is_alnum_lower c)) "-" eq_refl).
Qed.

Lemma slugify_id s : is_slug s = true -> slugify s = s.
Proof.
  intros H. pose proof (slug_chars _ H) as Hc.
  apply separated_parts in H as (H1 & H2 & H3). unfold slugify.
  rewrite (slug_chars_strip _ Hc), (slug_chars_lower _ Hc).
  rewrite replace_amp_id
    by (revert Hc; apply all_impl; apply CharFacts.slug_char_not_amp).
  unfold sub_runs.
  rewrite (proj1 (@runs_id (fun c => negb (is_alnum_lower c)) "-" s H2)).
  rewrite lstrip_id
    by (revert H1; apply head_ok_weaken; apply CharFacts.hyphen_not_alnum).
  apply rstrip_id. revert H3. apply last_ok_weaken.
  apply CharFacts.hyphen_not_alnum.
Qed.

Lemma loose_slugify_shape s : is_loose_slug (_slugify s) = true.
Proof.
  unfold is_loose_slug, _slugify. destruct (Str.is_empty s); [reflexivity|].
  unfold sub_runs at 1.
  rewrite (@runs_all is_hyphen "-" is_slug_char _ false eq_refl (all_filter _ _)).
  apply (@runs_single is_hyphen "-" eq_refl).
Qed.

Lemma loose_slugify_id s : is_loose_slug s = true -> _slugify s = s.
Proof.
  unfold is_loose_slug. intros H. apply andb_true_iff in H as [Hc Hs].
  unfold _slugify. destruct (Str.is_empty s) eqn:E; [now destruct s|].
  rewrite (slug_chars_strip _ Hc), (slug_chars_spaces _ Hc). unfold sub_runs.
  destruct (@all_single_seps (fun c => Str.is_space c || Ascii.eqb c "/") "-" s)
    as (_ & H2 & _).
  { revert Hc. apply all_impl. apply CharFacts.slug_char_not_space. }
  rewrite (proj1 (@runs_id _ "-" s H2)).
  rewrite (slug_chars_lower _ Hc), (filter_id _ _ Hc).
  apply (@runs_id is_hyphen "-" s Hs).
Qed.

End SlugFacts.

(** X8: [_collapse_ws] normalizes white space, that of ASCII and that
    outside it (a no-break space counts as white space): its result has no
    white space at either end, only single spaces between words, and no
    white-space character outside ASCII ([Str.spaces] finds none to
    replace).  A text of that shape is left as it is, so collapsing twice
    is collapsing once. *)
Theorem X8_collapse_ws_normalizes (text : string) :
  ws_normal (_collapse_ws text) = true
  /\ Str.spaces (_collapse_ws text) = _collapse_ws text
  /\ (forall s, ws_normal s = true -> Str.spaces s = s -> _collapse_ws s = s)
  /\ _collapse_ws (_collapse_ws text) = _collapse_ws text.
Proof.
  split; [apply SlugFacts.collapse_ws_normal|].
  split; [apply SlugFacts.collapse_ws_narrow|].
  split; [apply SlugFacts.collapse_ws_id|].
  apply SlugFacts.collapse_ws_id;
    [apply SlugFacts.collapse_ws_normal | apply SlugFacts.collapse_ws_narrow].
Qed.

(** The two characters outside ASCII whose lower case holds an ASCII
    letter: the Kelvin sign U+212A becomes [k]; the dotted capital I U+0130
    becomes [i] and a combining dot, which [_slugify] removes and for which
    [slugify] puts a hyphen. *)
Lemma lower_outside_ascii :
  slugify (String (ascii_of_nat 226) (String (ascii_of_nat 132)
             (String (ascii_of_nat 170) "elvin"))) = "kelvin"
  /\ _slugify (String (ascii_of_nat 196) (String (ascii_of_nat 176) "stanbul"))
     = "istanbul"
  /\ slugify (String (ascii_of_nat 196) (String (ascii_of_nat 176) "stanbul"))
     = "i-stanbul".
Proof. repeat split; vm_compute; reflexivity. Qed.

(** X9: a slug of [slugify] is made of lower-case letters and digits with
    single hyphens between them and no hyphen at either end; [slugify]
    leaves such a name as it is, so it is idempotent. *)
Theorem X9_slugify_shape (name : string) :
  is_slug (slugify name) = true
  /\ Shape.all is_slug_char (slugify name) = true
  /\ (forall s, is_slug s = true -> slugify s = s)
  /\ slugify (slugify name) = slugify name.
Proof.
  pose proof (SlugFacts.slugify_is_slug name) as H.
  split; [exact H|]. split; [now apply SlugFacts.slug_chars|].
  split; [apply SlugFacts.slugify_id | now apply SlugFacts.slugify_id].
Qed.

(** X10: a slug of [_slugify] is made of lower-case letters, digits and
    hyphens, with no two hyphens next to each other (a hyphen may stay at
    either end); [_slugify] leaves such a text as it is, so it is
    idempotent, and it leaves a slug of [slugify] as it is. *)
Theorem X10_loose_slugify_shape (s : string) :
  is_loose_slug (_slugify s) = true
  /\ (forall y, is_loose_slug y = true -> _slugify y = y)
  /\ _slugify (_slugify s) = _slugify s
  /\ _slugify (slugify s) = slugify s.
Proof.
  pose proof (SlugFacts.loose_slugify_shape s) as H.
  split; [exact H|]. split; [apply SlugFacts.loose_slugify_id|].
  split; [now apply SlugFacts.loose_slugify_id|].
  apply SlugFacts.loose_slugify_id.
  pose proof (SlugFacts.slugify_is_slug s) as Hs.
  unfold is_loose_slug. rewrite (SlugFacts.slug_chars _ Hs). cbn [andb].
  apply ShapeFacts.separated_parts in Hs as (_ & H2 & _).
  revert H2. generalize (slugify s). intros y.
  induction y as [|c y IH]; [trivial|]. cbn [Shape.single_seps Shape.head_ok].
  intros Hy. apply andb_true_iff in Hy as [Hc Hy]. rewrite (IH Hy), andb_true_r.
  unfold is_hyphen at 1. destruct (Ascii.eqb c "-") eqn:E; [|reflexivity].
  rewrite Ascii.eqb_refl || idtac. apply Ascii.eqb_eq in E. subst c.
  cbn in Hc. destruct y as [|d y]; [reflexivity|]. cbn [Shape.head_ok] in *.
  unfold is_hyphen. destruct (Ascii.eqb d "-") eqn:Ed; [|reflexivity].
  apply Ascii.eqb_eq in Ed. subst d. discriminate Hc.
Qed.

(* ================================================================= *)
(** ** More on the block extractor *)

Module NodeFacts.

Section Induction.
Variable P : node -> Prop.
Hypothesis Htext : forall s, P (Text s).
Hypothesis Hcomment : forall s, P (Comment s).
Hypothesis Helem :
  forall tag attrs contents, Forall P contents -> P (Elem tag attrs contents).

(** Induction on a tree, with the hypothesis on every child of a tag. *)
Lemma node_ind' : forall n, P n.
Proof.
  fix IH 1. intros [s|s|tag attrs contents].
  - apply Htext.
  - apply Hcomment.
  - apply Helem. induction contents as [|c r IHr]; constructor;
      [apply IH | exact IHr].
Qed.
End Induction.

Lemma decompose_all_nil : Soup.decompose_all [] = [].
Proof. reflexivity. Qed.

Lemma decompose_all_cons c r :
  Soup.decompose_all (c :: r)
  = if Soup.has_name_in ["script"; "style"] c then Soup.decompose_all r
    else Soup.decompose c :: Soup.decompose_all r.
Proof. reflexivity. Qed.

Lemma decompose_elem tag attrs contents :
  Soup.decompose (Elem tag attrs contents)
  = Elem tag attrs (Soup.decompose_all contents).
Proof. reflexivity. Qed.

Lemma decompose_all_app a b :
  Soup.decompose_all (a ++ b) = Soup.decompose_all a ++ Soup.decompose_all b.
Proof.
  induction a as [|c a IH]; [reflexivity|]. cbn [app].
  rewrite !decompose_all_cons, IH. now destruct (Soup.has_name_in _ c).
Qed.

Lemma decompose_all_length a :
  List.length (Soup.decompose_all a) <= List.length a.
Proof.
  induction a as [|c a IH]; [cbn; lia|]. rewrite decompose_all_cons.
  destruct (Soup.has_name_in _ c); cbn [List.length]; lia.
Qed.

Lemma has_name_in_decompose names n :
  Soup.has_name_in names (Soup.decompose n) = Soup.has_name_in names n.
Proof. now destruct n. Qed.

(** After the [decompose] loop no [script] and no [style] tag is left. *)
Lemma decompose_script_free n :
  Soup.has_name_in ["script"; "style"] n = false ->
  script_free (Soup.decompose n) = true.
Proof.
  induction n as [s|s|tag attrs contents IH] using node_ind'; intros Hn;
    [reflexivity | reflexivity |].
  rewrite decompose_elem. cbn [script_free].
  change (Soup.has_name_in ["script"; "style"] (Elem tag attrs (Soup.decompose_all contents)))
    with (Soup.has_name_in ["script"; "style"] (Elem tag attrs contents)).
  rewrite Hn. cbn [negb andb]. clear Hn.
  induction IH as [|c r Hc Hr IHr]; [reflexivity|].
  rewrite decompose_all_cons.
  destruct (Soup.has_name_in ["script"; "style"] c) eqn:E; [exact IHr|].
  cbn [forallb]. now rewrite (Hc eq_refl), IHr.
Qed.

Lemma decompose_all_script_free soup :
  forallb script_free (Soup.decompose_all soup) = true.
Proof.
  induction soup as [|c r IH]; [reflexivity|]. rewrite decompose_all_cons.
  destruct (Soup.has_name_in ["script"; "style"] c) eqn:E; [exact IH|].
  cbn [forallb]. now rewrite (decompose_script_free _ E), IH.
Qed.

Lemma script_free_head n :
  script_free n = true -> Soup.has_name_in ["script"; "style"] n = false.
Proof.
  destruct n; cbn [script_free]; intros H; apply andb_true_iff in H as [H _];
    now apply negb_true_iff in H.
Qed.

(** A tree without these tags is left as it is. *)
Lemma decompose_id n : script_free n = true -> Soup.decompose n = n.
Proof.
  induction n as [s|s|tag attrs contents IH] using node_ind'; intros Hn;
    [reflexivity | reflexivity |].
  rewrite decompose_elem. f_equal.
  cbn [script_free] in Hn. apply andb_true_iff in Hn as [_ Hn].
  induction IH as [|c r Hc Hr IHr]; [reflexivity|].
  cbn [forallb] in Hn. apply andb_true_iff in Hn as [H1 H2].
  rewrite decompose_all_cons, (script_free_head _ H1), (Hc H1), (IHr H2).
  reflexivity.
Qed.

Lemma decompose_all_id soup :
  forallb script_free soup = true -> Soup.decompose_all soup = soup.
Proof.
  induction soup as [|c r IH]; [reflexivity|]. cbn [forallb]. intros H.
  apply andb_true_iff in H as [H1 H2].
  now rewrite decompose_all_cons, (script_free_head _ H1), (decompose_id _ H1), IH.
Qed.

End NodeFacts.

Module BlockMore.
Import Shape ShapeFacts.

Lemma handle_all_bodies nodes : forall bs n,
  List.map body (fst (handle_all nodes (bs, n)))
  = List.map body bs ++ node_bodies nodes.
Proof.
  unfold node_bodies.
  induction nodes as [|child rest IH]; intros bs n; cbn [handle_all flat_map].
  - now rewrite app_nil_r.
  - destruct (Soup.name_of child); [|apply IH].
    unfold handle_element. destruct (element_body child) as [b|].
    + cbn [push_block]. rewrite IH, map_app. cbn [List.map body app].
      now rewrite <- app_assoc.
    + apply IH.
Qed.

Lemma html_to_blocks_bodies soup :
  List.map body (html_to_blocks soup) = node_bodies (Soup.decompose_all soup).
Proof. unfold html_to_blocks. now rewrite handle_all_bodies. Qed.

Lemma node_bodies_app a b : node_bodies (a ++ b) = node_bodies a ++ node_bodies b.
Proof. unfold node_bodies. apply flat_map_app. Qed.

Lemma node_bodies_length a : List.length (node_bodies a) <= List.length a.
Proof.
  unfold node_bodies. induction a as [|c a IH]; [cbn; lia|]. cbn [flat_map].
  rewrite length_app.
  destruct (Soup.name_of c); [destruct (element_body c)|]; cbn [List.length]; lia.
Qed.

Lemma node_bodies_in b nodes :
  In b (node_bodies nodes) -> exists el, In el nodes /\ element_body el = Some b.
Proof.
  unfold node_bodies. intros H. apply in_flat_map in H as (el & Hin & H).
  exists el. split; [exact Hin|].
  destruct (Soup.name_of el); [|contradiction].
  destruct (element_body el) as [b'|]; [|contradiction].
  destruct H as [<-|[]]. reflexivity.
Qed.

(** The text of a tag that is not an inline one is collapsed text. *)
Lemma node_text_plain tag attrs contents :
  inline_name (Str.lower tag) = false ->
  _node_to_text (Elem tag attrs contents)
  = _collapse_ws (Str.join " " (List.map _node_to_text contents)).
Proof.
  unfold inline_name. intros H.
  apply orb_false_iff in H as [H Hbr]. apply orb_false_iff in H as [H Hsamp].
  apply orb_false_iff in H as [H Hkbd]. apply orb_false_iff in H as [Ha Hcode].
  cbn [_node_to_text]. now rewrite Ha, Hcode, Hkbd, Hsamp, Hbr.
Qed.

Lemma node_text_normal tag attrs contents :
  inline_name (Str.lower tag) = false ->
  ws_normal (_node_to_text (Elem tag attrs contents)) = true.
Proof.
  intros H. rewrite (@node_text_plain tag attrs contents H).
  apply SlugFacts.collapse_ws_normal.
Qed.









End BlockMore.

Module RunsFacts.

Lemma add_text_ok text link code :
  (code = true -> link = None) ->
  forallb run_ok (add_text text link code) = true.
Proof.
  intros Hc. unfold add_text. destruct text as [|c t]; [reflexivity|].
  cbn [Str.is_empty forallb run_ok run_text run_link run_code negb andb].
  rewrite andb_true_r.
  destruct link as [[|d l]|]; [reflexivity | | reflexivity].
  cbn [Str.is_empty negb andb].
  destruct code; [|reflexivity]. now specialize (Hc eq_refl).
Qed.

Lemma inline_runs_ok n : forallb run_ok (_inline_runs n) = true.
Proof.
  induction n as [s|s|tag attrs contents IH] using NodeFacts.node_ind';
    [reflexivity | reflexivity |].
  cbn [_inline_runs].
  induction IH as [|child r Hc Hr IHr]; [reflexivity|].
  rewrite forallb_app, IHr, andb_true_r.
  destruct child as [s|s|ctag cattrs ccontents].
  - now apply add_text_ok.
  - now apply add_text_ok.
  - destruct (String.eqb (Str.lower ctag) "a").
    { apply add_text_ok. discriminate. }
    destruct (_ || _).
    { now apply add_text_ok. }
    destruct (String.eqb (Str.lower ctag) "br"); [now apply add_text_ok|].
    exact Hc.
Qed.

End RunsFacts.

Module ListMore.

Lemma remove_nth_app (pre : list node) n rest :
  remove_nth (List.length pre) (pre ++ n :: rest) = pre ++ rest.
Proof.
  induction pre as [|x pre IH]; [reflexivity|].
  cbn [List.length app remove_nth]. now rewrite IH.
Qed.

Lemma nth_error_mid (pre : list node) n rest :
  nth_error (pre ++ n :: rest) (List.length pre) = Some n.
Proof.
  induction pre as [|x pre IH]; [reflexivity|]. exact IH.
Qed.

Lemma nth_error_past (pre : list node) :
  nth_error pre (S (List.length pre)) = None.
Proof. apply nth_error_None. lia. Qed.

(** The walk over the live contents: [pre] is what the iterator has
    passed, [suf] what is before it. *)
Lemma move_children_taken fuel : forall pre suf container,
  List.length suf <= fuel ->
  snd (move_children fuel (pre ++ suf) (List.length pre) container)
  = container ++ taken_nodes false suf.
Proof.
  induction fuel as [|fuel IH]; intros pre suf container Hf.
  - destruct suf; [|cbn in Hf; lia]. cbn. now rewrite app_nil_r.
  - destruct suf as [|n rest].
    + cbn [move_children]. rewrite app_nil_r.
      assert (E : nth_error pre (List.length pre) = None)
        by (apply nth_error_None; lia).
      rewrite E. cbn. now rewrite app_nil_r.
    + cbn [move_children taken_nodes]. rewrite nth_error_mid.
      cbn [List.length] in Hf.
      destruct (is_list_node n).
      * replace (pre ++ n :: rest) with ((pre ++ [n]) ++ rest)
          by (now rewrite <- app_assoc).
        replace (S (List.length pre)) with (List.length (pre ++ [n]))
          by (rewrite length_app; cbn; lia).
        apply IH. lia.
      * rewrite remove_nth_app. destruct rest as [|m rest'].
        -- rewrite app_nil_r. destruct fuel as [|fuel']; [reflexivity|].
           cbn [move_children]. now rewrite nth_error_past.
        -- cbn [taken_nodes].
           replace (pre ++ m :: rest') with ((pre ++ [m]) ++ rest')
             by (now rewrite <- app_assoc).
           replace (S (List.length pre)) with (List.length (pre ++ [m]))
             by (rewrite length_app; cbn; lia).
           rewrite IH by (cbn [List.length] in Hf; lia).
           now rewrite <- app_assoc.
Qed.

End ListMore.

Module TagCases.

Lemma sure_block_cases name ty :
  sure_block_type name = Some ty ->
  In (name, ty)
    [("h2", "heading"); ("h3", "heading"); ("h4", "heading"); ("h5", "heading");
     ("h6", "heading"); ("ul", "list"); ("ol", "list"); ("pre", "code");
     ("table", "table"); ("hr", "separator")].
Proof.
  unfold sure_block_type. cbn [existsb].
  repeat match goal with
         | |- context [String.eqb name ?x] =>
             destruct (String.eqb_spec name x) as [->|_];
             [vm_compute; intros [= <-]; tauto|]
         end.
  discriminate.
Qed.

Lemma element_body_none tag attrs contents :
  existsb (String.eqb (Str.lower tag)) block_tags = false ->
  element_body (Elem tag attrs contents) = None.
Proof.
  intros H. unfold element_body. cbn [Soup.name_of].
  unfold block_tags in H. cbn [existsb] in H.
  repeat match type of H with
         | (_ || _) = false => apply orb_false_iff in H as [? H]
         end.
  unfold heading_level.
  repeat match goal with
         | E : String.eqb (Str.lower tag) _ = false |- _ => rewrite E; clear E
         end.
  reflexivity.
Qed.

Lemma element_body_sure tag attrs contents ty :
  sure_block_type (Str.lower tag) = Some ty ->
  exists b, element_body (Elem tag attrs contents) = Some b /\ type_of b = ty.
Proof.
  intros H. apply sure_block_cases in H. cbn [In] in H.
  unfold element_body. cbn [Soup.name_of].
  repeat (destruct H as [H|H];
          [injection H as E <-; rewrite <- E; eexists; split; reflexivity|]).
  contradiction.
Qed.

End TagCases.

(** X12: the blocks of a fragment are those of its top-level tags, in
    order, one at most for each: the bodies of the blocks of two fragments
    put together are the bodies of the first followed by those of the
    second, a string at the top level gives no block, and there are no
    more blocks than top-level nodes. *)
Theorem X12_blocks_of_top_level_nodes (a b : list node) :
  List.map body (html_to_blocks (a ++ b))
  = List.map body (html_to_blocks a) ++ List.map body (html_to_blocks b)
  /\ List.map body (html_to_blocks a) = node_bodies (Soup.decompose_all a)
  /\ List.length (html_to_blocks a) <= List.length a
  /\ (forall s, html_to_blocks (Text s :: a) = html_to_blocks a).
Proof.
  split; [|split; [|split]].
  - rewrite !BlockMore.html_to_blocks_bodies, NodeFacts.decompose_all_app.
    apply BlockMore.node_bodies_app.
  - apply BlockMore.html_to_blocks_bodies.
  - rewrite <- (length_map body), BlockMore.html_to_blocks_bodies.
    pose proof (BlockMore.node_bodies_length (Soup.decompose_all a)).
    pose proof (NodeFacts.decompose_all_length a). lia.
  - intros s. unfold html_to_blocks. now rewrite NodeFacts.decompose_all_cons.
Qed.

(** X13: every run that [_inline_runs] returns has a text that is not
    empty; its link, when it has one, is not empty; and a run of code has
    no link. *)
Theorem X13_inline_runs_well_formed (n : node) :
  forallb run_ok (_inline_runs n) = true.
Proof. apply RunsFacts.inline_runs_ok. Qed.

(** X14: which tags give a block.  A tag whose lower-cased name
    [handle_element] has no branch for gives none, whatever it contains
    (an [h1], a [div] around paragraphs); a heading from [h2] to [h6], a
    list, a [pre], a [table] and an [hr] always give one block, of the type
    of the tag, also when they are empty. *)
Theorem X14_block_per_tag
    (tag : string) (attrs : list (string * string)) (contents : list node) :
  let el := Elem tag attrs contents in
  let name := Str.lower tag in
  (existsb (String.eqb name) block_tags = false ->
   element_body el = None /\ html_to_blocks [el] = [])
  /\ (forall ty, sure_block_type name = Some ty ->
        exists b, element_body el = Some b /\ type_of b = ty).
Proof.
  intros el name. split.
  - intros H. split; [now apply TagCases.element_body_none|].
    unfold html_to_blocks. rewrite NodeFacts.decompose_all_cons.
    destruct (Soup.has_name_in ["script"; "style"] el); [reflexivity|].
    unfold el. rewrite NodeFacts.decompose_elem.
    cbn [Soup.decompose_all handle_all Soup.name_of Soup.children Soup.decompose].
    unfold handle_element.
    now rewrite (@TagCases.element_body_none tag attrs _ H).
  - intros ty. apply TagCases.element_body_sure.
Qed.

(** X15: the [decompose] loop leaves no [script] and no [style] tag at any
    depth of the tree that the blocks are read from; a tree without such
    tags is left as it is, and [html_to_blocks] of a fragment is that of
    the fragment without them. *)
Theorem X15_no_script_or_style (soup : list node) :
  forallb script_free (Soup.decompose_all soup) = true
  /\ (forallb script_free soup = true -> Soup.decompose_all soup = soup)
  /\ html_to_blocks (Soup.decompose_all soup) = html_to_blocks soup.
Proof.
  split; [apply NodeFacts.decompose_all_script_free|].
  split; [apply NodeFacts.decompose_all_id|].
  unfold html_to_blocks.
  now rewrite (NodeFacts.decompose_all_id _ (NodeFacts.decompose_all_script_free soup)).
Qed.

(** X16: the nodes of a nested item that reach its text and runs.  The
    loop of lines 265-269 walks the live children of the item while it
    moves them away: a nested list is passed over, any other node is moved
    to the container, and the node that follows a moved node is skipped.
    So an item with one node keeps it, and of two nodes next to each other
    the second is lost. *)
Theorem X16_nested_item_nodes (sub_li : node) :
  Soup.children (sub_container sub_li) = taken_nodes false (Soup.children sub_li)
  /\ (forall n, is_list_node n = false ->
        Soup.children (sub_container (Elem "li" [] [n])) = [n])
  /\ (forall a b, is_list_node a = false ->
        Soup.children (sub_container (Elem "li" [] [a; b])) = [a]).
Proof.
  assert (H : forall li,
             Soup.children (sub_container li)
             = taken_nodes false (Soup.children li)).
  { intros li. unfold sub_container. cbn [Soup.children].
    apply (@ListMore.move_children_taken _ [] (Soup.children li) []).
    apply Nat.le_refl. }
  split; [apply H|]. split.
  - intros n Hn. rewrite H. cbn [Soup.children taken_nodes]. now rewrite Hn.
  - intros a b Ha. rewrite H. cbn [Soup.children taken_nodes]. now rewrite Ha.
Qed.

Module CodeTableFacts.
Import Shape.

Lemma all_take_while f s : all f (take_while f s) = true.
Proof.
  induction s as [|c s IH]; [reflexivity|]. cbn [take_while].
  destruct (f c) eqn:E; [|reflexivity]. cbn [all]. now rewrite E.
Qed.

Lemma match_language_shape c g :
  match_language c = Some g -> g <> "" /\ all is_lang_char g = true.
Proof.
  unfold match_language. destruct (Str.startswith _ _); [|discriminate].
  pose proof (all_take_while is_lang_char (Str.drop 9 c)) as Ha.
  destruct (take_while is_lang_char (Str.drop 9 c)) as [|x t];
    cbn [Str.is_empty]; [discriminate|].
  intros [= <-]. split; [discriminate | exact Ha].
Qed.

Lemma first_some_in (A B : Type) (f : A -> option B) l y :
  first_some f l = Some y -> exists x, In x l /\ f x = Some y.
Proof.
  induction l as [|x l IH]; cbn [first_some]; [discriminate|].
  destruct (f x) as [y'|] eqn:E.
  - intros [= <-]. exists x. split; [now left | exact E].
  - intros H. destruct (IH H) as (x' & Hin & Hx). exists x'. split; [now right | exact Hx].
Qed.

Lemma code_lang_shape el g :
  code_lang el = Some g -> g <> "" /\ all is_lang_char g = true.
Proof.
  unfold code_lang. destruct (Soup.find "code" el) as [ic|]; [|discriminate].
  destruct (Soup.has_attr "class" ic); [|discriminate].
  intros H. apply first_some_in in H as (c & _ & H).
  now apply match_language_shape in H.
Qed.

Lemma th_align_values th : In (th_align th) ["left"; "center"; "right"].
Proof.
  unfold th_align. cbn [In].
  destruct (Str.contains "text-align:center" _); [tauto|].
  destruct (Str.contains "text-align:right" _); tauto.
Qed.

(** What a code block and a table are known to be. *)
Lemma element_body_code_table el b :
  element_body el = Some b ->
  match b with
  | Code text lang =>
      last_ok (fun c => Ascii.eqb c "010") text = true
      /\ match lang with
         | Some g => g <> "" /\ all is_lang_char g = true
         | None => True
         end
  | Table header rows align =>
      Forall (fun row => row <> []) rows
      /\ Forall (fun a => In a ["left"; "center"; "right"]) align
      /\ List.length align = List.length (Soup.find_all ["th"] el)
  | _ => True
  end.
Proof.
  unfold element_body.
  destruct (heading_level _); [intros [= <-]; exact I|].
  destruct (String.eqb _ "p").
  { destruct (detect_callout _ _ _) as [[[v|] t] r]; [intros [= <-]; exact I|].
    destruct (Str.is_empty t); [discriminate | intros [= <-]; exact I]. }
  destruct (_ || _); [intros [= <-]; exact I|].
  destruct (String.eqb _ "pre").
  { intros [= <-]. split; [apply ShapeFacts.last_ok_rstrip|].
    destruct (code_lang el) as [g|] eqn:E; [|exact I].
    now apply code_lang_shape in E. }
  destruct (String.eqb _ "blockquote").
  { destruct (Str.is_empty _); [discriminate | intros [= <-]; exact I]. }
  destruct (String.eqb _ "table").
  { intros [= <-]. split; [|split].
    - apply Forall_map. apply Forall_forall. intros cells Hc.
      apply filter_In in Hc as [_ Hc]. intros E. apply map_eq_nil in E.
      now rewrite E in Hc.
    - apply Forall_map. apply Forall_forall. intros th _. apply th_align_values.
    - apply length_map. }
  destruct (String.eqb _ "hr"); [intros [= <-]; exact I | discriminate].
Qed.

End CodeTableFacts.

(** X17: the text of a code block does not end with a line feed, and its
    language, when it has one, is the non-empty run of characters of
    [a-z0-9_+-] that follows [language-] at the start of a class of the
    first [code] tag in the [pre]. *)
Theorem X17_code_block_shape (soup : list node) :
  Forall
    (fun b =>
       match body b with
       | Code text lang =>
           Shape.last_ok (fun c => Ascii.eqb c "010") text = true
           /\ match lang with
              | Some g => g <> "" /\ Shape.all is_lang_char g = true
              | None => True
              end
       | _ => True
       end)
    (html_to_blocks soup).
Proof.
  apply Forall_forall. intros b Hb.
  apply (in_map body) in Hb. rewrite BlockMore.html_to_blocks_bodies in Hb.
  apply BlockMore.node_bodies_in in Hb as (el & _ & He).
  apply CodeTableFacts.element_body_code_table in He.
  now destruct (body b).
Qed.

(** X18: a table block has no empty row (a [tr] without cells is left
    out), and its [align] has one entry for every [th] of the table, each
    of them [left], [center] or [right]. *)
Theorem X18_table_block_shape (soup : list node) :
  Forall
    (fun b =>
       match body b with
       | Table header rows align =>
           Forall (fun row => row <> []) rows
           /\ Forall (fun a => In a ["left"; "center"; "right"]) align
       | _ => True
       end)
    (html_to_blocks soup)
  /\ forall tag attrs contents,
       Str.lower tag = "table" ->
       exists header rows align,
         element_body (Elem tag attrs contents) = Some (Table header rows align)
         /\ List.length align
            = List.length (Soup.find_all ["th"] (Elem tag attrs contents)).
Proof.
  split.
  - apply Forall_forall. intros b Hb.
    apply (in_map body) in Hb. rewrite BlockMore.html_to_blocks_bodies in Hb.
    apply BlockMore.node_bodies_in in Hb as (el & _ & He).
    apply CodeTableFacts.element_body_code_table in He.
    destruct (body b); try exact I. tauto.
  - intros tag attrs contents Ht.
    destruct (@TagCases.element_body_sure tag attrs contents "table") as (b & Hb & Hty).
    { now rewrite Ht. }
    pose proof (CodeTableFacts.element_body_code_table _ Hb) as H.
    destruct b; try discriminate Hty.
    exists header, rows, align. split; [exact Hb | tauto].
Qed.

(* ================================================================= *)
(** ** More on the section splitter *)

Module SectionMore.
Import Shape.

Lemma descendants_cons t a c r :
  Soup.descendants (Elem t a (c :: r))
  = c :: Soup.descendants c ++ Soup.descendants (Elem t a r).
Proof. reflexivity. Qed.

Lemma h1_below_cons t a c r :
  h1_below (Elem t a (c :: r))
  = (if Soup.has_name "h1" c then [(c, r)] else [])
    ++ h1_below c ++ h1_below (Elem t a r).
Proof. reflexivity. Qed.

(** The [h1] tags of the sections are those of [find_all("h1")], in
    document order. *)
Lemma h1_below_find_all n :
  List.map fst (h1_below n) = Soup.find_all ["h1"] n.
Proof.
  unfold Soup.find_all.
  induction n as [s|s|tag attrs contents IH] using NodeFacts.node_ind';
    [reflexivity | reflexivity |].
  induction IH as [|c r Hc Hr IHr]; [reflexivity|].
  rewrite h1_below_cons, descendants_cons, !map_app, Hc, IHr.
  cbn [List.filter]. rewrite filter_app.
  assert (E : Soup.has_name_in ["h1"] c = Soup.has_name "h1" c)
    by (unfold Soup.has_name_in; cbn [existsb]; apply orb_false_r).
  rewrite E. now destruct (Soup.has_name "h1" c).
Qed.





Lemma h1_sections_titles tags : forall idx,
  List.map sec_title (h1_sections idx tags)
  = List.map (fun p => Str.strip (Soup.get_text "" false (fst p))) tags.
Proof.
  induction tags as [|[h sibs] tags IH]; intros idx; [reflexivity|].
  cbn [h1_sections List.map sec_title fst]. now rewrite IH.
Qed.


End SectionMore.


(** X20: there is one section for each [h1] tag that [find_all("h1")]
    finds below the root, at any depth and in document order, its title
    the stripped text of the tag; before them comes at most one section,
    [Introduction]; and a document without any [h1] gives no section at
    all, whatever it contains. *)
Theorem X20_one_section_per_h1 (soup : list node) :
  let document := Elem "[document]" [] soup in
  let root :=
    match Soup.find "body" document with
    | Some body => body
    | None => document
    end in
  let h1s := Soup.find_all ["h1"] root in
  exists intro rest,
    extract_sections_from_html soup = intro ++ rest
    /\ List.map sec_title rest
       = List.map (fun h1 => Str.strip (Soup.get_text "" false h1)) h1s
    /\ (intro = []
        \/ exists parts,
             parts <> []
             /\ intro = [Section_ "introduction" "Introduction" parts])
    /\ (h1s = [] -> extract_sections_from_html soup = []).
Proof.
  intros document root h1s. unfold extract_sections_from_html.
  fold document. fold root.
  assert (Hh : h1s = List.map fst (h1_below root))
    by (symmetry; apply SectionMore.h1_below_find_all).
  eexists _, (h1_sections 0 (h1_below root)). split; [reflexivity|].
  split; [|split].
  - rewrite SectionMore.h1_sections_titles, Hh. now rewrite map_map.
  - destruct (h1_below root); [now left|].
    destruct (intro_parts (Soup.children root)) as [|part parts]; [now left|].
    right. exists (part :: parts). split; [discriminate | reflexivity].
  - rewrite Hh. intros E. apply map_eq_nil in E. now rewrite E.
Qed.

(* ================================================================= *)
(** ** The text helpers of [build_split.py] *)

(** X21: [_strip_tags] leaves nothing that the tag pattern matches, never
    makes a text longer, leaves a text without a match as it is, and so is
    idempotent; for [None] it gives the empty text. *)
Theorem X21_strip_tags_clean (x : option string) :
  ~ Tag.has_tag (_strip_tags x)
  /\ _strip_tags (Some (_strip_tags x)) = _strip_tags x
  /\ String.length (_strip_tags x) <= String.length (or_empty x)
  /\ (~ Tag.has_tag (or_empty x) -> _strip_tags x = or_empty x)
  /\ _strip_tags None = "".
Proof.
  unfold _strip_tags. cbn [or_empty].
  pose proof (TagFacts.search_sub (or_empty x)) as Hs.
  split; [|split; [|split; [|split]]].
  - intros H. apply TagFacts.search_has_tag in H. congruence.
  - unfold Tag.sub at 1. now apply TagFacts.search_false_sub_fuel.
  - apply TagFacts.sub_fuel_length.
  - intros H. unfold Tag.sub. apply TagFacts.search_false_sub_fuel.
    destruct (Tag.search (or_empty x)) eqn:E; [|reflexivity].
    exfalso. apply H. now apply TagFacts.search_has_tag.
  - reflexivity.
Qed.

Module SummaryFacts.
Import Shape ShapeFacts.

Lemma split_nonempty s : forall b, re_split_ws b s <> [].
Proof.
  induction s as [|c s IH]; intros b; cbn [re_split_ws]; [discriminate|].
  destruct (Str.is_space c).
  - destruct b; [apply IH | discriminate].
  - destruct (re_split_ws false s); discriminate.
Qed.

Lemma join_cons_ne sep x (l : list string) :
  l <> [] -> Str.join sep (x :: l) = x +++ sep +++ Str.join sep l.
Proof. destruct l; [congruence | reflexivity]. Qed.

Lemma join_head_char sep c w ws :
  Str.join sep (String c w :: ws) = String c (Str.join sep (w :: ws)).
Proof. now destruct ws. Qed.

(** Joining the pieces with one space is replacing the runs by one
    space. *)
Lemma join_split s : forall b,
  Str.join " " (re_split_ws b s) = sub_runs_from b Str.is_space " " s.
Proof.
  induction s as [|c s IH]; intros b; cbn [re_split_ws sub_runs_from];
    [reflexivity|].
  destruct (Str.is_space c).
  - destruct b; [apply IH|].
    rewrite join_cons_ne by apply split_nonempty. now rewrite IH.
  - pose proof (split_nonempty s false) as Hne. specialize (IH false).
    destruct (re_split_ws false s) as [|w ws]; [congruence|].
    now rewrite join_head_char, IH.
Qed.

Lemma split_ws_free s : forall b,
  Forall (fun w => count Str.is_space w = 0) (re_split_ws b s).
Proof.
  induction s as [|c s IH]; intros b; cbn [re_split_ws]; [now repeat constructor|].
  destruct (Str.is_space c) eqn:E.
  - destruct b; [apply IH|]. constructor; [reflexivity | apply IH].
  - specialize (IH false). destruct (re_split_ws false s) as [|w ws].
    + constructor; [|constructor]. cbn [count]. now rewrite E.
    + inversion IH; subst. constructor; [|assumption].
      cbn [count]. now rewrite E.
Qed.

Lemma join_firstn_prefix sep (l : list string) : forall n,
  exists rest, Str.join sep l = Str.join sep (firstn n l) +++ rest.
Proof.
  induction l as [|x r IH]; intros n.
  - exists "". now destruct n.
  - destruct n as [|n]; [now exists (Str.join sep (x :: r))|].
    cbn [firstn]. destruct r as [|y r'].
    + exists "". destruct n; cbn; now rewrite StrFacts.append_nil_r.
    + destruct (IH n) as (rest & E). destruct n as [|n].
      * exists (sep +++ Str.join sep (y :: r')). reflexivity.
      * cbn [firstn] in *. exists rest.
        rewrite (@join_cons_ne sep x (y :: r')) by discriminate.
        rewrite (@join_cons_ne sep x (y :: firstn n r')) by discriminate.
        rewrite E. now rewrite !StrFacts.append_assoc.
Qed.

Lemma Forall_firstn (A : Type) (P : A -> Prop) (l : list A) : forall n,
  Forall P l -> Forall P (firstn n l).
Proof.
  induction l as [|x r IH]; intros [|n] H; cbn [firstn]; try constructor.
  - now inversion H.
  - apply IH. now inversion H.
Qed.

Lemma head_ok_prefix cls a b :
  head_ok cls (a +++ b) = true -> a <> "" -> head_ok cls a = true.
Proof. destruct a; [congruence | trivial]. Qed.

Lemma single_seps_prefix cls sep a : forall b,
  single_seps cls sep (a +++ b) = true -> single_seps cls sep a = true.
Proof.
  induction a as [|c a IH]; intros b; [trivial|].
  cbn [String.append single_seps]. intros H.
  apply andb_true_iff in H as [Hc H]. rewrite (IH b H), andb_true_r.
  destruct (cls c); [|reflexivity].
  apply andb_true_iff in Hc as [-> Hh]. cbn [andb].
  destruct a; [reflexivity | exact Hh].
Qed.

Lemma count_app f a b : count f (a +++ b) = count f a + count f b.
Proof.
  induction a as [|c a IH]; [reflexivity|]. cbn [String.append count].
  rewrite IH. lia.
Qed.

Lemma count_join (l : list string) :
  Forall (fun w => count Str.is_space w = 0) l ->
  count Str.is_space (Str.join " " l) = List.length l - 1.
Proof.
  induction 1 as [|x r Hx Hr IH]; [reflexivity|]. cbn beta in Hx.
  destruct r as [|y r']; [cbn [Str.join List.length]; rewrite Hx; reflexivity|].
  rewrite join_cons_ne by discriminate. rewrite !count_app, Hx, IH.
  replace (count Str.is_space " ") with 1 by reflexivity.
  cbn [List.length]. lia.
Qed.

Lemma count_lstrip f g s : count f (Str.lstrip_by g s) <= count f s.
Proof.
  induction s as [|c s IH]; [cbn; lia|]. cbn [Str.lstrip_by].
  destruct (g c); cbn [count]; lia.
Qed.

Lemma count_rstrip f g s : count f (Str.rstrip_by g s) <= count f s.
Proof.
  induction s as [|c s IH]; [cbn; lia|]. rewrite rstrip_cons.
  destruct (Str.is_empty _); [destruct (g c)|]; cbn [count]; lia.
Qed.

Lemma summary_words_single t n :
  single_seps Str.is_space " " (Str.join " " (firstn n (re_split_ws false t))) = true.
Proof.
  destruct (join_firstn_prefix " " (re_split_ws false t) n) as (rest & E).
  apply (@single_seps_prefix Str.is_space " " _ rest). rewrite <- E, join_split.
  apply (@runs_single Str.is_space " " eq_refl t false).
Qed.

End SummaryFacts.

(** X22: the summary of [one_line_summary] has normalized white space,
    holds no white-space character outside ASCII, and has at most eleven
    spaces, so at most twelve words; and for a text that [re.split] cuts
    into at most twelve words it is the text with its white space
    normalized, what [_collapse_ws] of [split_api_docs.py] gives.  A
    no-break space separates words like any other white space. *)
Theorem X22_one_line_summary_shape (text fallback : option string) :
  ws_normal (one_line_summary text fallback) = true
  /\ Str.spaces (one_line_summary text fallback) = one_line_summary text fallback
  /\ Shape.count Str.is_space (one_line_summary text fallback) <= 11
  /\ (forall t,
        Str.strip t <> "" ->
        List.length (re_split_ws false (Str.spaces (Str.strip t))) <= 12 ->
        one_line_summary (Some t) fallback = _collapse_ws t).
Proof.
  split; [|split; [|split]].
  - unfold one_line_summary. apply SpaceFacts.strip_single_seps_u.
    apply SummaryFacts.summary_words_single.
  - unfold one_line_summary.
    set (t := if Str.is_empty (Str.strip (or_empty text))
              then or_empty fallback else Str.strip (or_empty text)).
    apply SpaceFacts.spaces_fixed_strip.
    destruct (SummaryFacts.join_firstn_prefix " "
                (re_split_ws false (Str.spaces t)) 12) as (rest & E).
    apply (SpaceFacts.spaces_fixed_prefix _ rest).
    rewrite <- E, SummaryFacts.join_split.
    apply SpaceFacts.spaces_fixed_runs, SpaceFacts.spaces_idem.
  - unfold one_line_summary.
    set (t := if Str.is_empty (Str.strip (or_empty text))
              then or_empty fallback else Str.strip (or_empty text)).
    pose proof (SpaceFacts.count_strip_u Str.is_space
                  (Str.join " " (firstn 12 (re_split_ws false (Str.spaces t)))))
      as H1.
    rewrite SummaryFacts.count_join in H1
      by (apply SummaryFacts.Forall_firstn, SummaryFacts.split_ws_free).
    pose proof (firstn_le_length 12 (re_split_ws false (Str.spaces t))). lia.
  - intros t Ht Hlen. unfold one_line_summary. cbn [or_empty].
    destruct (Str.strip t) as [|c r] eqn:E; [congruence|].
    cbn [Str.is_empty]. rewrite <- E in *. rewrite firstn_all2 by exact Hlen.
    rewrite SummaryFacts.join_split.
    change (sub_runs_from false Str.is_space " " (Str.spaces (Str.strip t)))
      with (_collapse_ws t).
    pose proof (SlugFacts.collapse_ws_normal t) as Hn.
    apply ShapeFacts.separated_parts in Hn as (H1 & _ & H3).
    apply SpaceFacts.strip_fixed; [exact H1 | exact H3|].
    apply SlugFacts.collapse_ws_narrow.
Qed.

(** At a no-break space: two of them between two words collapse to one
    space, and one of them separates the first two of thirteen words. *)
Lemma no_break_space_words :
  _collapse_ws ("Rate" +++ Markup.nbsp +++ Markup.nbsp +++ "limit") = "Rate limit"
  /\ one_line_summary
       (Some ("a" +++ Markup.nbsp +++ "b c d e f g h i j k l m")) None
     = "a b c d e f g h i j k l".
Proof. split; vm_compute; reflexivity. Qed.

(* ================================================================= *)
(** ** The request helpers *)

Module OrderFacts.

Lemma ascii_compare_refl a : Ascii.compare a a = Eq.
Proof. unfold Ascii.compare. apply N.compare_refl. Qed.

Lemma ascii_compare_trans a b c :
  Ascii.compare a b = Lt -> Ascii.compare b c = Lt -> Ascii.compare a c = Lt.
Proof.
  unfold Ascii.compare. rewrite !N.compare_lt_iff. apply N.lt_trans.
Qed.

Lemma compare_refl s : String.compare s s = Eq.
Proof.
  induction s as [|c s IH]; [reflexivity|]. cbn [String.compare].
  now rewrite ascii_compare_refl.
Qed.

Lemma compare_trans a : forall b c,
  String.compare a b = Lt -> String.compare b c = Lt -> String.compare a c = Lt.
Proof.
  induction a as [|x a IH]; intros [|y b] [|z c]; cbn [String.compare];
    try discriminate; try reflexivity.
  destruct (Ascii.compare x y) eqn:Exy; try discriminate;
    destruct (Ascii.compare y z) eqn:Eyz; try discriminate.
  - apply Ascii.compare_eq_iff in Exy, Eyz. subst.
    rewrite ascii_compare_refl. apply IH.
  - apply Ascii.compare_eq_iff in Exy. subst. now rewrite Eyz.
  - apply Ascii.compare_eq_iff in Eyz. subst. now rewrite Exy.
  - now rewrite (ascii_compare_trans _ _ _ Exy Eyz).
Qed.

Lemma insert_in k l x : In x (Req.insert k l) <-> x = k \/ In x l.
Proof.
  induction l as [|y r IH]; cbn [Req.insert In]; [intuition|].
  destruct (String.compare k y) eqn:E; cbn [In].
  - apply String.compare_eq_iff in E. subst. intuition.
  - intuition.
  - rewrite IH. intuition.
Qed.

Lemma sorted_set_in l x : In x (Req.sorted_set l) <-> In x l.
Proof.
  induction l as [|y r IH]; cbn [Req.sorted_set fold_right In]; [tauto|].
  fold (Req.sorted_set r). rewrite insert_in, IH. intuition.
Qed.

Lemma insert_head k l h t :
  Req.insert k l = h :: t -> h = k \/ exists r, l = h :: r.
Proof.
  destruct l as [|y r]; cbn [Req.insert]; [intros [= <- _]; now left|].
  destruct (String.compare k y); intros [= <- _]; eauto.
Qed.

Lemma ascending_cons x y r :
  ascending (x :: y :: r) = true
  <-> String.compare x y = Lt /\ ascending (y :: r) = true.
Proof.
  change (ascending (x :: y :: r))
    with (match String.compare x y with Lt => true | _ => false end
          && ascending (y :: r)).
  rewrite andb_true_iff. destruct (String.compare x y); intuition discriminate.
Qed.

Lemma ascending_insert k l :
  ascending l = true -> ascending (Req.insert k l) = true.
Proof.
  induction l as [|y r IH]; [reflexivity|]. intros H. cbn [Req.insert].
  destruct (String.compare k y) eqn:E.
  - exact H.
  - apply ascending_cons. auto.
  - assert (Hr : ascending r = true).
    { destruct r; [reflexivity|]. now apply ascending_cons in H. }
    specialize (IH Hr).
    destruct (Req.insert k r) as [|h t] eqn:Ei; [reflexivity|].
    apply ascending_cons. split; [|exact IH].
    apply insert_head in Ei as [-> | (r' & ->)].
    + rewrite String.compare_antisym, E. reflexivity.
    + now apply ascending_cons in H.
Qed.

Lemma ascending_sorted_set l : ascending (Req.sorted_set l) = true.
Proof.
  induction l as [|y r IH]; [reflexivity|]. cbn [Req.sorted_set fold_right].
  now apply ascending_insert.
Qed.

Lemma ascending_lt_all r : forall x,
  ascending (x :: r) = true -> Forall (fun y => String.compare x y = Lt) r.
Proof.
  induction r as [|y r IH]; intros x H; [constructor|].
  apply ascending_cons in H as [Hxy Hr]. constructor; [exact Hxy|].
  specialize (IH y Hr). revert IH. apply Forall_impl.
  intros z Hz. now apply (compare_trans _ _ _ Hxy).
Qed.

Lemma ascending_NoDup l : ascending l = true -> NoDup l.
Proof.
  induction l as [|x r IH]; [constructor|]. intros H. constructor.
  - intros Hin. pose proof (ascending_lt_all _ _ H) as Hall.
    rewrite Forall_forall in Hall. specialize (Hall x Hin).
    rewrite compare_refl in Hall. discriminate.
  - apply IH. destruct r; [reflexivity|]. now apply ascending_cons in H.
Qed.

End OrderFacts.

Module FilterFacts.

Lemma startswith_split p : forall s,
  Str.startswith p s = true -> s = p +++ Str.drop (String.length p) s.
Proof.
  induction p as [|a p IH]; intros s; [reflexivity|].
  destruct s as [|b s]; cbn [Str.startswith]; [discriminate|].
  intros H. apply andb_true_iff in H as [Hab H].
  apply Ascii.eqb_eq in Hab. subst b.
  cbn [String.length Str.drop String.append]. now rewrite <- IH.
Qed.

Lemma startswith_app p e : Str.startswith p (p +++ e) = true.
Proof.
  induction p as [|a p IH]; [reflexivity|].
  cbn [String.append Str.startswith]. now rewrite Ascii.eqb_refl.
Qed.

Lemma drop_app p e : Str.drop (String.length p) (p +++ e) = e.
Proof. induction p as [|a p IH]; [reflexivity | exact IH]. Qed.

Lemma at_end_iff e : Req.at_end e = true <-> e = "" \/ e = Json.newline.
Proof.
  destruct e as [|c [|d e]]; cbn [Req.at_end].
  - intuition.
  - split.
    + intros H. apply Ascii.eqb_eq in H. subst. now right.
    + intros [H|H]; [discriminate|]. injection H as ->. reflexivity.
  - split; [discriminate|]. intros [H|H]; discriminate.
Qed.

(** The pattern matches at the head: an underscore, one of the suffixes,
    and the end. *)
Lemma match_filter_here_iff s :
  Req.match_filter_here s = true
  <-> exists alt e, In alt Req.filter_suffixes
                    /\ (e = "" \/ e = Json.newline)
                    /\ s = "_" +++ alt +++ e.
Proof.
  split.
  - destruct s as [|c r]; cbn [Req.match_filter_here]; [discriminate|].
    intros H. apply andb_true_iff in H as [Hc H].
    apply Ascii.eqb_eq in Hc. subst c.
    apply existsb_exists in H as (alt & Hin & H).
    apply andb_true_iff in H as [Hs He].
    exists alt, (Str.drop (String.length alt) r).
    split; [exact Hin|]. split; [now apply at_end_iff|].
    cbn [String.append]. f_equal. now apply startswith_split.
  - intros (alt & e & Hin & He & ->). cbn [String.append Req.match_filter_here].
    cbn [Ascii.eqb Bool.eqb andb]. apply existsb_exists. exists alt.
    split; [exact Hin|]. rewrite startswith_app, drop_app. cbn [andb].
    now apply at_end_iff.
Qed.

Lemma search_filter_iff k :
  Req.search_filter k = true
  <-> exists pre alt e, In alt Req.filter_suffixes
                        /\ (e = "" \/ e = Json.newline)
                        /\ k = pre +++ "_" +++ alt +++ e.
Proof.
  split.
  - induction k as [|c k IH].
    + cbn [Req.search_filter Req.match_filter_here orb]. discriminate.
    + cbn [Req.search_filter]. intros H. apply orb_true_iff in H as [H|H].
      * apply match_filter_here_iff in H as (alt & e & Hin & He & E).
        exists "", alt, e. auto.
      * destruct (IH H) as (pre & alt & e & Hin & He & ->).
        exists (String c pre), alt, e. auto.
  - intros (pre & alt & e & Hin & He & ->).
    induction pre as [|c pre IH].
    + assert (H : Req.match_filter_here ("_" +++ alt +++ e) = true)
        by (apply match_filter_here_iff; eauto).
      cbn [String.append] in *. cbn [Req.search_filter]. now rewrite H.
    + cbn [String.append Req.search_filter] in IH |- *. rewrite IH.
      apply orb_true_r.
Qed.

(** The keys that the comprehension of [detect_filtering] keeps. *)
Lemma filter_keys_in keys : forall filt,
  Req.map_m
    (fun k =>
       match k with
       | JStr s => Req.Return (if Req.search_filter s then [s] else [])
       | _ => Req.Fail Req.TypeError
       end)
    keys = Req.Return filt ->
  forall k, In k (concat filt) <-> In (JStr k) keys /\ Req.search_filter k = true.
Proof.
  induction keys as [|key r IH]; intros filt; cbn [Req.map_m].
  - intros [= <-] k. cbn. tauto.
  - destruct key as [| | |s| |]; try discriminate. cbn [Req.bind].
    destruct (Req.map_m _ r) as [ys|e]; [|discriminate]. cbn [Req.bind].
    intros [= <-] k. cbn [concat In]. rewrite in_app_iff, (IH ys eq_refl k).
    destruct (Req.search_filter s) eqn:E; cbn [In].
    + split.
      * intros [[<-|[]] | [H1 H2]]; auto.
      * intros [[H|H] H2]; [injection H as ->; auto | auto].
    + split.
      * intros [[] | [H1 H2]]; auto.
      * intros [[H|H] H2]; [injection H as ->; congruence | auto].
Qed.

End FilterFacts.

(** X23: what [detect_filtering] returns is the set of the query keys that
    the filter pattern matches, each of them once and in ascending order;
    the pattern matches a key that ends with an underscore and one of eq,
    cont, lt, lte, gt, gte, in, not_in, starts, ends, or with one of
    these and a final line feed. *)
Theorem X23_detect_filtering_sorted_unique (req : dict) (l : list string) :
  Req.detect_filtering req = Req.Return l ->
  exists keys,
    Req.query_keys req = Req.Return keys
    /\ ascending l = true
    /\ NoDup l
    /\ (forall k, In k l <-> In (JStr k) keys /\ Req.search_filter k = true)
    /\ (forall k,
          Req.search_filter k = true
          <-> exists pre alt e,
                In alt Req.filter_suffixes
                /\ (e = "" \/ e = Json.newline)
                /\ k = pre +++ "_" +++ alt +++ e).
Proof.
  unfold Req.detect_filtering.
  destruct (Req.query_keys req) as [keys|e]; [|discriminate]. cbn [Req.bind].
  destruct (Req.map_m _ keys) as [filt|e] eqn:Ef; [|discriminate].
  cbn [Req.bind]. intros [= <-]. exists keys. split; [reflexivity|].
  pose proof (OrderFacts.ascending_sorted_set (concat filt)) as Ha.
  split; [exact Ha|]. split; [now apply OrderFacts.ascending_NoDup|].
  split; [|apply FilterFacts.search_filter_iff].
  intros k. rewrite OrderFacts.sorted_set_in.
  now apply FilterFacts.filter_keys_in.
Qed.

Lemma X23_detect_filtering_sorted_unique_witness :
  exists keys,
    Req.query_keys
      [("urlObject",
        JDict [("query",
                JList [JDict [("key", JStr "name_cont")];
                       JDict [("key", JStr "page")];
                       JDict [("key", JStr "age_gt")];
                       JDict [("key", JStr "name_cont")]])])]
    = Req.Return keys
    /\ ascending ["age_gt"; "name_cont"] = true
    /\ NoDup ["age_gt"; "name_cont"]
    /\ (forall k, In k ["age_gt"; "name_cont"]
                  <-> In (JStr k) keys /\ Req.search_filter k = true)
    /\ (forall k,
          Req.search_filter k = true
          <-> exists pre alt e,
                In alt Req.filter_suffixes
                /\ (e = "" \/ e = Json.newline)
                /\ k = pre +++ "_" +++ alt +++ e).
Proof.
  apply (@X23_detect_filtering_sorted_unique
           [("urlObject",
             JDict [("query",
                     JList [JDict [("key", JStr "name_cont")];
                            JDict [("key", JStr "page")];
                            JDict [("key", JStr "age_gt")];
                            JDict [("key", JStr "name_cont")]])])]).
  vm_compute. reflexivity.
Defined.

Module UrlFacts.

Lemma from_char_app c host rest :
  Str.mem c host = false ->
  Req.from_char c (host +++ String c rest) = Some (String c rest).
Proof.
  induction host as [|x host IH]; cbn [String.append Req.from_char Str.mem].
  - now rewrite Ascii.eqb_refl.
  - intros H. apply orb_false_iff in H as [Hx H].
    rewrite Ascii.eqb_sym, Hx. now apply IH.
Qed.

Lemma until_char_app c path tail :
  Str.mem c path = false ->
  tail = "" \/ (exists q, tail = String c q) ->
  Req.until_char c (path +++ tail) = path.
Proof.
  intros Hp Ht. induction path as [|x path IH]; cbn [String.append].
  - destruct Ht as [-> | (q & ->)]; [reflexivity|].
    cbn [Req.until_char]. now rewrite Ascii.eqb_refl.
  - cbn [Str.mem] in Hp. apply orb_false_iff in Hp as [Hx Hp].
    cbn [Req.until_char]. rewrite Ascii.eqb_sym, Hx. now rewrite IH.
Qed.

Lemma match_host_path_ok host path tail :
  host <> "" -> Str.mem "/" host = false ->
  Str.mem "?" path = false ->
  tail = "" \/ (exists q, tail = String "?" q) ->
  Req.match_host_path (host +++ String "/" (path +++ tail))
  = Some (String "/" path).
Proof.
  intros Hne Hh Hp Ht. unfold Req.match_host_path.
  rewrite (@from_char_app "/" host (path +++ tail) Hh).
  rewrite (@until_char_app "?" path tail Hp Ht).
  destruct host as [|c host]; [congruence|]. cbn [String.append].
  cbn [Str.mem] in Hh. apply orb_false_iff in Hh as [Hc _].
  rewrite Ascii.eqb_sym in Hc. now rewrite Hc.
Qed.

Lemma search_url_ok scheme host path tail :
  scheme = "http://" \/ scheme = "https://" ->
  host <> "" -> Str.mem "/" host = false ->
  Str.mem "?" path = false ->
  tail = "" \/ (exists q, tail = String "?" q) ->
  Req.search_url (scheme +++ host +++ String "/" (path +++ tail))
  = Some (String "/" path).
Proof.
  intros Hs Hne Hh Hp Ht.
  pose proof (@match_host_path_ok host path tail Hne Hh Hp Ht) as H.
  destruct Hs as [-> | ->]; cbn [String.append Req.search_url];
    unfold Req.match_url_here, Loads.expect, Req.match_rest, Loads.expect;
    cbn [Str.startswith Ascii.eqb Bool.eqb andb String.length Str.drop];
    now rewrite H.
Qed.

(** A text without [http] has no match. *)
Lemma search_url_none raw :
  Str.contains "http" raw = false -> Req.search_url raw = None.
Proof.
  induction raw as [|c raw IH]; cbn [Str.contains Req.search_url].
  - reflexivity.
  - intros H. apply orb_false_iff in H as [H1 H2].
    unfold Req.match_url_here, Loads.expect. rewrite H1. now apply IH.
Qed.

Lemma query_keys_missing req :
  dict_get "urlObject" req = None -> Req.query_keys req = Req.Return [].
Proof. intros H. unfold Req.query_keys. now rewrite H. Qed.

Lemma query_keys_null req :
  dict_get "urlObject" req = Some JNull ->
  Req.query_keys req = Req.Fail Req.AttributeError.
Proof. intros H. unfold Req.query_keys. now rewrite H. Qed.

End UrlFacts.

(** X24: a request without [urlObject] has no query keys: no pagination,
    no filters, no ordering.  A request whose [urlObject] is [None] makes
    [detect_pagination], [detect_filtering] and [detect_ordering] raise
    [AttributeError], since the default of [req.get("urlObject", {})]
    stands in for a missing key only; [extract_path_from_url], which
    reads [req.get("urlObject") or {}], returns for the same request when
    its [url] is a string or is missing. *)
Theorem X24_missing_or_null_url_object (req : dict) :
  (dict_get "urlObject" req = None ->
   Req.detect_pagination req = Req.Return (JDict [("supported", JBool false)])
   /\ Req.detect_filtering req = Req.Return []
   /\ Req.detect_ordering req = Req.Return [])
  /\ (dict_get "urlObject" req = Some JNull ->
      Req.detect_pagination req = Req.Fail Req.AttributeError
      /\ Req.detect_filtering req = Req.Fail Req.AttributeError
      /\ Req.detect_ordering req = Req.Fail Req.AttributeError
      /\ ((exists raw, dict_get "url" req = Some (JStr raw))
          \/ dict_get "url" req = None ->
          exists p, Req.extract_path_from_url req = Req.Return p)).
Proof.
  split; intros H.
  - unfold Req.detect_pagination, Req.detect_filtering, Req.detect_ordering.
    rewrite (@UrlFacts.query_keys_missing req H). repeat split; reflexivity.
  - unfold Req.detect_pagination, Req.detect_filtering, Req.detect_ordering.
    rewrite (@UrlFacts.query_keys_null req H).
    split; [reflexivity|]. split; [reflexivity|]. split; [reflexivity|].
    intros Hraw. unfold Req.extract_path_from_url, Req.dict_get_none.
    rewrite H. cbn.
    destruct Hraw as [(raw & ->) | ->]; cbn.
    + destruct raw as [|c raw]; cbn; eauto.
    + eauto.
Qed.

(** X25: for a request without [urlObject] whose [url] is [http://] or
    [https://], a host, a path that starts with [/] and perhaps a query
    after a [?], [extract_path_from_url] returns the path: from the first
    [/] after the host up to the [?].  A [url] in which [http] does not
    occur is returned as it is. *)
Theorem X25_path_from_url
    (req : dict) (scheme host path tail : string) :
  dict_get "urlObject" req = None ->
  dict_get "url" req
  = Some (JStr (scheme +++ host +++ String "/" (path +++ tail))) ->
  scheme = "http://" \/ scheme = "https://" ->
  host <> "" -> Str.mem "/" host = false ->
  Str.mem "?" path = false ->
  tail = "" \/ (exists q, tail = String "?" q) ->
  Req.extract_path_from_url req = Req.Return (String "/" path)
  /\ forall req' raw,
       dict_get "urlObject" req' = None ->
       dict_get "url" req' = Some (JStr raw) ->
       Str.contains "http" raw = false ->
       Req.extract_path_from_url req' = Req.Return raw.
Proof.
  intros Hu Hraw Hs Hne Hh Hp Ht. split.
  - unfold Req.extract_path_from_url, Req.dict_get_none. rewrite Hu, Hraw.
    cbn [Req.or_else truthy Req.get Req.bind Req.dict_get_none dict_get].
    assert (Et : Str.is_empty (scheme +++ host +++ String "/" (path +++ tail))
                 = false)
      by (destruct Hs as [-> | ->]; reflexivity).
    unfold Req.or_else. cbn [truthy]. rewrite Et. cbn [negb].
    now rewrite (@UrlFacts.search_url_ok scheme host path tail Hs Hne Hh Hp Ht).
  - intros req' raw Hu' Hraw' Hc.
    unfold Req.extract_path_from_url, Req.dict_get_none. rewrite Hu', Hraw'.
    cbn [Req.or_else truthy Req.get Req.bind Req.dict_get_none dict_get].
    unfold Req.or_else. cbn [truthy].
    destruct raw as [|c raw]; [reflexivity|]. cbn [Str.is_empty negb].
    now rewrite (@UrlFacts.search_url_none (String c raw) Hc).
Qed.

Lemma X25_path_from_url_witness :
  Req.extract_path_from_url
    [("method", JStr "GET");
     ("url", JStr "https://api.spark.re/v2/contacts?page=1")]
  = Req.Return "/v2/contacts".
Proof.
  refine (proj1 (@X25_path_from_url
                   [("method", JStr "GET");
                    ("url", JStr "https://api.spark.re/v2/contacts?page=1")]
                   "https://" "api.spark.re" "v2/contacts" "?page=1"
                   eq_refl eq_refl _ _ eq_refl eq_refl _)).
  - now right.
  - discriminate.
  - right. now exists "page=1".
Defined.

(* ================================================================= *)
(** ** [clean_html_content], [write_json] and [extract_headers] *)

Module CleanFacts.

Lemma find_all_cons names t a c r :
  Soup.find_all names (Elem t a (c :: r))
  = (if Soup.has_name_in names c then [c] else [])
    ++ Soup.find_all names c ++ Soup.find_all names (Elem t a r).
Proof.
  unfold Soup.find_all. rewrite SectionMore.descendants_cons.
  cbn [List.filter]. rewrite filter_app.
  now destruct (Soup.has_name_in names c).
Qed.

Lemma find_all_nil names t a : Soup.find_all names (Elem t a []) = [].
Proof. reflexivity. Qed.

(** A block-level tag around one paragraph gives the text of the paragraph
    twice. *)
Lemma clean_nested outer oattrs pattrs pcontents :
  let p := Elem "p" pattrs pcontents in
  let o := Elem outer oattrs [p] in
  Soup.has_name_in ["script"; "style"] o = false ->
  Soup.has_name_in block_level o = true ->
  Soup.has_name "pre" o = false ->
  inline_name (Str.lower outer) = false ->
  forallb script_free pcontents = true ->
  Soup.find_all block_level p = [] ->
  _node_to_text p <> "" ->
  clean_html_content [o]
  = _node_to_text p +++ (Json.newline +++ Json.newline) +++ _node_to_text p.
Proof.
  intros p o Hs Hb Hpre Hin Hsf Hnone Hne.
  assert (Hp : ws_normal (_node_to_text p) = true)
    by (now apply BlockMore.node_text_normal).
  assert (Ho : _node_to_text o = _node_to_text p).
  { unfold o. rewrite (@BlockMore.node_text_plain outer oattrs [p] Hin).
    cbn [List.map Str.join]. unfold p.
    rewrite (@BlockMore.node_text_plain "p" pattrs pcontents eq_refl).
    apply SlugFacts.collapse_ws_idem. }
  assert (Hfind : Soup.find_all block_level (Elem "[document]" [] [o]) = [o; p]).
  { rewrite find_all_cons, find_all_nil, app_nil_r, Hb.
    unfold o at 2. rewrite find_all_cons, find_all_nil, app_nil_r. fold p.
    rewrite Hnone, app_nil_r. reflexivity. }
  assert (Hlines : flat_map clean_line [o; p]
                   = [_node_to_text p; _node_to_text p]).
  { cbn [flat_map app]. unfold clean_line. rewrite Hpre, Ho.
    change (Soup.has_name "pre" p) with false. cbn iota.
    destruct (_node_to_text p) as [|c t]; [congruence | reflexivity]. }
  unfold clean_html_content.
  rewrite NodeFacts.decompose_all_id.
  2:{ cbn [forallb]. rewrite andb_true_r. unfold o. cbn [script_free].
      fold p. fold o. rewrite Hs. cbn [negb andb forallb].
      rewrite andb_true_r. unfold p. cbn [script_free]. now rewrite Hsf. }
  rewrite Hfind, Hlines. reflexivity.
Qed.

End CleanFacts.

(** X26: [clean_html_content] gives one line for each block-level tag that
    [find_all] finds, at any depth, so text that lies in two of them comes
    out twice: a [li] or a [blockquote] around one paragraph gives the text
    of the paragraph, an empty line, and the same text again.  Without any
    block-level tag the result is the whole text with its white space
    normalized. *)
Theorem X26_clean_html_content_lines (soup : list node) :
  (Soup.find_all block_level (Elem "[document]" [] (Soup.decompose_all soup)) = [] ->
   clean_html_content soup
   = _collapse_ws
       (Soup.get_text " " true (Elem "[document]" [] (Soup.decompose_all soup)))
   /\ ws_normal (clean_html_content soup) = true)
  /\ (forall outer oattrs pattrs pcontents,
        In outer ["li"; "blockquote"] ->
        forallb script_free pcontents = true ->
        Soup.find_all block_level (Elem "p" pattrs pcontents) = [] ->
        _node_to_text (Elem "p" pattrs pcontents) <> "" ->
        clean_html_content [Elem outer oattrs [Elem "p" pattrs pcontents]]
        = _node_to_text (Elem "p" pattrs pcontents)
          +++ (Json.newline +++ Json.newline)
          +++ _node_to_text (Elem "p" pattrs pcontents)).
Proof.
  split.
  - intros H. unfold clean_html_content. rewrite H. cbn [flat_map].
    split; [reflexivity | apply SlugFacts.collapse_ws_normal].
  - intros outer oattrs pattrs pcontents Hin Hsf Hnone Hne.
    destruct Hin as [<- | [<- | []]];
      now apply CleanFacts.clean_nested.
Qed.

Module HeaderFacts.

(** The body of the loop on a header that is a dict, and on any other
    value. *)
Lemma header_record_dict d :
  Req.header_record (JDict d)
  = Req.Return (if header_named d then [header_entry d] else []).
Proof.
  unfold Req.header_record, header_named, header_entry, header_name, Req.or_else.
  cbn [Req.get Req.bind].
  destruct (truthy (Req.dict_get_none "key" d)) eqn:Ek; cbn [Req.bind].
  - now rewrite Ek.
  - now destruct (truthy (Req.dict_get_none "name" d)).
Qed.

Lemma header_record_other h :
  (forall d, h <> JDict d) -> Req.header_record h = Req.Fail Req.AttributeError.
Proof. destruct h as [| | | | |d]; try reflexivity. intros H. now destruct (H d). Qed.

Lemma header_record_cases h :
  (exists d, h = JDict d) \/ Req.header_record h = Req.Fail Req.AttributeError.
Proof.
  destruct h as [| | | | |d]; try (right; reflexivity). left. now exists d.
Qed.

Lemma concat_entries (ds : list dict) :
  concat (List.map (fun d => if header_named d then [header_entry d] else []) ds)
  = List.map header_entry (List.filter header_named ds).
Proof.
  induction ds as [|d ds IH]; [reflexivity|]. cbn [List.map concat List.filter].
  rewrite IH. now destruct (header_named d).
Qed.

(** The loop over headers that are all dicts. *)
Lemma headers_dicts (ds : list dict) :
  Req.map_m Req.header_record (List.map JDict ds)
  = Req.Return
      (List.map (fun d => if header_named d then [header_entry d] else []) ds).
Proof.
  induction ds as [|d ds IH]; [reflexivity|]. cbn [List.map Req.map_m].
  now rewrite header_record_dict, IH.
Qed.

(** The loop returns only when every header is a dict. *)
Lemma headers_return hs : forall found,
  Req.map_m Req.header_record hs = Req.Return found ->
  exists ds, hs = List.map JDict ds.
Proof.
  induction hs as [|h hs IH]; intros found; [now exists []|].
  cbn [Req.map_m]. destruct (header_record_cases h) as [(d & ->) | ->];
    [|discriminate].
  rewrite header_record_dict. cbn [Req.bind].
  destruct (Req.map_m Req.header_record hs) as [ys|e]; [|discriminate].
  destruct (IH ys eq_refl) as (ds & ->). intros _. now exists (d :: ds).
Qed.

Lemma headers_fail hs h :
  In h hs -> (forall d, h <> JDict d) ->
  Req.map_m Req.header_record hs = Req.Fail Req.AttributeError.
Proof.
  intros Hin Hd. induction hs as [|x hs IH]; [contradiction|].
  cbn [Req.map_m]. destruct (header_record_cases x) as [(d & ->) | ->];
    [|reflexivity].
  rewrite header_record_dict. cbn [Req.bind].
  destruct Hin as [E | Hin]; [now destruct (Hd d)|]. now rewrite (IH Hin).
Qed.

End HeaderFacts.

(** X28: for headers that are dicts, [extract_headers] returns, in their
    order, one record for each header whose [key], or else [name], is
    truthy, and skips the others: the record has that key or name as its
    name, [required] false, and as summary the [value] of the header, or
    the empty text when that is missing or falsy.  Whatever [header] is,
    every record returned is such a record of a dict that has a name.
    Without [header], or with [None] for it, the result is empty; and a
    header that is not a dict, anywhere in the list, raises
    [AttributeError]. *)
Theorem X28_extract_headers_named (item_request : dict) :
  (forall ds,
     dict_get "header" item_request = Some (JList (List.map JDict ds)) ->
     Req.extract_headers item_request
     = Req.Return (List.map header_entry (List.filter header_named ds)))
  /\ (forall out,
        Req.extract_headers item_request = Req.Return out ->
        Forall (fun r => exists d, r = header_entry d /\ header_named d = true)
          out)
  /\ (dict_get "header" item_request = None
      \/ dict_get "header" item_request = Some JNull ->
      Req.extract_headers item_request = Req.Return [])
  /\ (forall hs h,
        dict_get "header" item_request = Some (JList hs) ->
        In h hs -> (forall d, h <> JDict d) ->
        Req.extract_headers item_request = Req.Fail Req.AttributeError).
Proof.
  split; [|split; [|split]].
  - intros ds H. unfold Req.extract_headers. rewrite H.
    assert (E : Req.iter (Req.or_else (JList (List.map JDict ds)) (JList []))
                = Req.Return (List.map JDict ds)) by now destruct ds.
    rewrite E. cbn [Req.bind]. rewrite HeaderFacts.headers_dicts.
    cbn [Req.bind]. now rewrite HeaderFacts.concat_entries.
  - unfold Req.extract_headers. intros out.
    destruct (Req.iter _) as [hs|e]; [|discriminate]. cbn [Req.bind].
    destruct (Req.map_m _ hs) as [found|e] eqn:Ef; [|discriminate].
    cbn [Req.bind]. intros [= <-].
    destruct (HeaderFacts.headers_return _ Ef) as (ds & ->).
    rewrite HeaderFacts.headers_dicts in Ef. injection Ef as <-.
    rewrite HeaderFacts.concat_entries. apply Forall_map, Forall_forall.
    intros d Hd. apply filter_In in Hd as [_ Hd]. now exists d.
  - unfold Req.extract_headers. intros [-> | ->]; reflexivity.
  - intros hs h H Hin Hd. unfold Req.extract_headers. rewrite H.
    assert (E : Req.iter (Req.or_else (JList hs) (JList [])) = Req.Return hs)
      by now destruct hs.
    rewrite E. cbn [Req.bind].
    now rewrite (@HeaderFacts.headers_fail hs h Hin Hd).
Qed.

(* ================================================================= *)
(** ** The greedy scan makes the fewest parts *)

Module MinimalFacts.

Lemma join_length_sum (A : Type) (f : A -> string) sep (l : list A) :
  l <> [] ->
  String.length (Str.join sep (List.map f l)) + String.length sep
  = list_sum (List.map (fun x => String.length (f x) + String.length sep) l).
Proof.
  induction l as [|x r IH]; [congruence|]. intros _.
  destruct r as [|y r'].
  - cbn [List.map Str.join list_sum fold_right]. lia.
  - specialize (IH ltac:(discriminate)).
    change (Str.join sep (List.map f (x :: y :: r')))
      with (f x +++ sep +++ Str.join sep (List.map f (y :: r'))).
    rewrite !StrFacts.length_append.
    change (list_sum (List.map (fun x0 => String.length (f x0) + String.length sep)
                        (x :: y :: r')))
      with (String.length (f x) + String.length sep
            + list_sum (List.map (fun x0 => String.length (f x0) + String.length sep)
                          (y :: r'))).
    lia.
Qed.

Lemma encode_list_length level (l : list json) :
  l <> [] ->
  String.length (Json.encode level (JList l)) + String.length (item_sep (S level))
  = 2 + String.length (Json.newline_indent (S level))
    + String.length (Json.newline_indent level)
    + list_sum (List.map
                  (fun x => String.length (Json.encode (S level) x)
                            + String.length (item_sep (S level))) l).
Proof.
  intros Hl. pose proof (@join_length_sum json (Json.encode (S level))
                           (item_sep (S level)) l Hl) as Hj.
  destruct l as [|x r]; [congruence|]. rewrite LoadsFacts.encode_list.
  cbn [String.append String.length]. rewrite !StrFacts.length_append.
  cbn [String.length]. lia.
Qed.

(** A list serializes at least as long as any run of its items. *)
Lemma encode_list_mono level (a l b : list json) :
  l <> [] ->
  String.length (Json.encode level (JList l))
  <= String.length (Json.encode level (JList (a ++ l ++ b))).
Proof.
  intros Hl.
  assert (Hall : a ++ l ++ b <> []).
  { destruct a; [|discriminate]. destruct l; [congruence | discriminate]. }
  pose proof (encode_list_length level Hl) as H1.
  pose proof (encode_list_length level Hall) as H2.
  rewrite !map_app, !list_sum_app in H2. lia.
Qed.

Lemma dict_set_nonempty k v (d : dict) : dict_set k v d <> [].
Proof.
  destruct d as [|[k' v'] d]; cbn [dict_set]; [discriminate|].
  destruct (String.eqb k k'); discriminate.
Qed.

(** The members of a dict after an assignment: their length is that of
    the assigned value and a part that does not depend on it. *)
Lemma dict_set_join_length level k (d : dict) :
  exists K, forall v,
    String.length
      (Str.join (item_sep level) (List.map (member_text level) (dict_set k v d)))
    = K + String.length (Json.encode level v).
Proof.
  induction d as [|[k' v'] d IH].
  - exists (String.length (Json.encode_str k) + 2). intros v.
    cbn [dict_set List.map Str.join]. unfold member_text. cbn [fst snd].
    rewrite !StrFacts.length_append. cbn [String.length]. lia.
  - cbn [dict_set]. destruct (String.eqb k k').
    + destruct d as [|kv d'].
      * exists (String.length (Json.encode_str k') + 2). intros v.
        cbn [List.map Str.join]. unfold member_text. cbn [fst snd].
        rewrite !StrFacts.length_append. cbn [String.length]. lia.
      * exists (String.length (Json.encode_str k') + 2
                + String.length (item_sep level)
                + String.length
                    (Str.join (item_sep level)
                       (List.map (member_text level) (kv :: d')))).
        intros v.
        change (Str.join (item_sep level)
                  (List.map (member_text level) ((k', v) :: kv :: d')))
          with (member_text level (k', v) +++ item_sep level
                +++ Str.join (item_sep level)
                      (List.map (member_text level) (kv :: d'))).
        unfold member_text at 1. cbn [fst snd].
        rewrite !StrFacts.length_append. cbn [String.length]. lia.
    + destruct IH as (K & HK).
      exists (String.length (member_text level (k', v'))
              + String.length (item_sep level) + K).
      intros v. specialize (HK v).
      pose proof (dict_set_nonempty k v d) as Hne.
      destruct (dict_set k v d) as [|kv d'] eqn:E; [congruence|].
      change (Str.join (item_sep level)
                (List.map (member_text level) ((k', v') :: kv :: d')))
        with (member_text level (k', v') +++ item_sep level
              +++ Str.join (item_sep level)
                    (List.map (member_text level) (kv :: d'))).
      rewrite !StrFacts.length_append. lia.
Qed.

(** The measured size of a slice: the length of its serialization and a
    part that is the same for every slice. *)
Lemma size_of_eps_split base :
  exists K, forall eps,
    size_of_eps base eps
    = Z.of_nat (K + String.length (Json.encode 1 (JList eps))).
Proof.
  destruct (dict_set_join_length 1 "endpoints" base) as (K & HK).
  exists (2 + String.length (Json.newline_indent 1)
          + String.length (Json.newline_indent 0) + K).
  intros eps. unfold size_of_eps, byte_len, with_endpoints, Json.dumps.
  f_equal. specialize (HK (JList eps)).
  pose proof (dict_set_nonempty "endpoints" (JList eps) base) as Hne.
  destruct (dict_set "endpoints" (JList eps) base) as [|kv d'] eqn:E;
    [congruence|].
  rewrite LoadsFacts.encode_dict.
  cbn [String.append String.length]. rewrite !StrFacts.length_append.
  cbn [String.length]. lia.
Qed.

Lemma size_of_eps_mono base (a l b : list json) :
  l <> [] -> (size_of_eps base l <= size_of_eps base (a ++ l ++ b))%Z.
Proof.
  intros Hl. destruct (size_of_eps_split base) as (K & HK). rewrite !HK.
  pose proof (@encode_list_mono 1 a l b Hl). lia.
Qed.

Lemma split_loop_parts base eps : forall parts chunk,
  split_loop base eps parts chunk = parts ++ split_loop base eps [] chunk.
Proof.
  induction eps as [|ep rest IH]; intros parts chunk; cbn [split_loop].
  - destruct chunk; [now rewrite app_nil_r | reflexivity].
  - destruct (_ && _); [|apply IH].
    rewrite (IH (parts ++ [chunk])), (IH ([] ++ [chunk])).
    now rewrite <- app_assoc.
Qed.

(** The scan stays ahead of any other split: from a part in progress that
    starts no earlier than the part of the other split, it needs no more
    parts for the rest. *)
Lemma greedy_ahead base eps : forall chunk x (Q : list (list json)),
  concat Q = x ++ chunk ++ eps ->
  Forall (measured_ok base) Q ->
  List.length (split_loop base eps [] chunk) <= List.length Q.
Proof.
  induction eps as [|ep rest IH]; intros chunk x Q Hc Hv; cbn [split_loop].
  - destruct chunk as [|c chunk']; [cbn; lia|].
    destruct Q as [|q1 Qr]; [|cbn; lia].
    cbn [concat] in Hc. destruct x; discriminate Hc.
  - destruct chunk as [|c chunk']; cbn [negb andb].
    + rewrite andb_false_r. now apply (IH [ep] x Q).
    + rewrite andb_true_r.
      destruct (KB_LIMIT <? size_of_eps base ((c :: chunk') ++ [ep]))%Z eqn:E.
      * apply Z.ltb_lt in E. rewrite split_loop_parts, length_app.
        cbn [app List.length].
        destruct Q as [|q1 Qr]; [cbn [concat] in Hc; destruct x; discriminate Hc|].
        inversion Hv as [|? ? Hq1 Hqr]; subst. cbn [concat List.length] in *.
        assert (Hfull : forall l, q1 = x ++ ((c :: chunk') ++ [ep]) ++ l -> False).
        { intros l ->.
          assert (Hlen : 2 <= List.length (x ++ ((c :: chunk') ++ [ep]) ++ l)).
          { rewrite !length_app. cbn [List.length]. lia. }
          specialize (Hq1 Hlen).
          pose proof (@size_of_eps_mono base x ((c :: chunk') ++ [ep]) l
                        ltac:(discriminate)).
          lia. }
        replace (x ++ (c :: chunk') ++ ep :: rest)
          with ((x ++ (c :: chunk') ++ [ep]) ++ rest) in Hc
          by (rewrite <- !app_assoc; reflexivity).
        apply app_eq_app in Hc as (l & [[H1 H2] | [H1 H2]]).
        -- exfalso. apply (Hfull l). rewrite H1. now rewrite <- !app_assoc.
        -- induction l as [|e l' _] using rev_ind.
           ++ exfalso. apply (Hfull []). rewrite app_nil_r in H1.
              rewrite <- H1. now rewrite app_nil_r.
           ++ rewrite !app_assoc in H1. apply app_inj_tail in H1 as [H1 <-].
              assert (Hr : List.length (split_loop base rest [] [ep])
                           <= List.length Qr).
              { apply (IH [ep] l' Qr); [|exact Hqr].
                rewrite H2. now rewrite <- app_assoc. }
              lia.
      * apply (IH ((c :: chunk') ++ [ep]) x Q); [|exact Hv].
        rewrite Hc. now rewrite <- app_assoc.
Qed.

End MinimalFacts.

(** X29: the scan of [split_if_large] makes the fewest parts: any way of
    cutting the endpoints, in order, into groups of which each one with two
    endpoints or more measures within the limit has at least as many groups
    as the scan makes parts. *)
Theorem X29_greedy_split_is_minimal
    (base_obj : dict) (endpoints : list json) (groups : list (list json)) :
  concat groups = endpoints ->
  Forall (measured_ok base_obj) groups ->
  List.length (split_parts base_obj endpoints) <= List.length groups.
Proof.
  intros Hc Hv. unfold split_parts.
  apply (@MinimalFacts.greedy_ahead base_obj endpoints [] [] groups);
    [exact Hc | exact Hv].
Qed.

Lemma X29_greedy_split_is_minimal_witness :
  List.length (split_parts Sample.users_doc [Sample.A; Sample.B; Sample.C])
  <= List.length [[Sample.A; Sample.B]; [Sample.C]].
Proof.
  apply (@X29_greedy_split_is_minimal Sample.users_doc
           [Sample.A; Sample.B; Sample.C] [[Sample.A; Sample.B]; [Sample.C]]).
  - reflexivity.
  - constructor; [|constructor; [|constructor]].
    + intros _. vm_compute. discriminate.
    + intros H. cbn in H. lia.
Defined.

(* ================================================================= *)
(** ** Paragraphs and callouts *)

Module ParagraphFacts.

Lemma detect_callout_cases prefixes text runs :
  match detect_callout prefixes text runs with
  | (Some variant, _, _) => In variant (List.map snd prefixes)
  | (None, text', runs') =>
      text' = text /\ runs' = runs
      /\ forallb (fun pv => negb (Str.startswith (fst pv) (Str.lower text)))
           prefixes = true
  end.
Proof.
  induction prefixes as [|[p v] rest IH]; cbn [detect_callout].
  - now repeat split.
  - destruct (Str.startswith p (Str.lower text)) eqn:E.
    + left. reflexivity.
    + destruct (detect_callout rest text runs) as [[[variant|] t] r].
      * right. exact IH.
      * destruct IH as (-> & -> & IH). repeat split.
        cbn [forallb fst]. now rewrite E, IH.
Qed.

Lemma element_body_callout el b :
  element_body el = Some b ->
  match b with
  | Paragraph text runs =>
      text = _node_to_text el /\ runs = _inline_runs el
      /\ forallb (fun pv => negb (Str.startswith (fst pv) (Str.lower text)))
           callout_prefixes = true
  | Callout variant _ _ => In variant (List.map snd callout_prefixes)
  | _ => True
  end.
Proof.
  destruct el as [s|s|tag attrs contents]; [discriminate | discriminate |].
  unfold element_body. cbn [Soup.name_of].
  set (el := Elem tag attrs contents). set (name := Str.lower tag).
  destruct (heading_level name) as [level|]; [intros [= <-]; exact I|].
  destruct (String.eqb name "p").
  { pose proof (detect_callout_cases callout_prefixes (_node_to_text el)
                  (_inline_runs el)) as Hd.
    destruct (detect_callout _ _ _) as [[[variant|] t] r].
    - intros [= <-]. exact Hd.
    - destruct (Str.is_empty t); [discriminate|]. intros [= <-].
      destruct Hd as (-> & -> & Hd). now repeat split. }
  destruct (String.eqb name "ul" || String.eqb name "ol");
    [intros [= <-]; exact I|].
  destruct (String.eqb name "pre"); [intros [= <-]; exact I|].
  destruct (String.eqb name "blockquote").
  { destruct (Str.is_empty _); [discriminate | intros [= <-]; exact I]. }
  destruct (String.eqb name "table"); [intros [= <-]; exact I|].
  destruct (String.eqb name "hr"); [intros [= <-]; exact I | discriminate].
Qed.

End ParagraphFacts.

(** X30: a paragraph and a callout never overlap.  In the blocks of a
    fragment the text of a paragraph, lower-cased, starts with none of the
    prefixes of the callout detection, and the variant of a callout is
    one of [note], [warning], [tip] and [caution]. *)
Theorem X30_paragraph_or_callout (soup : list node) :
  Forall
    (fun b =>
       match body b with
       | Paragraph text _ =>
           forallb (fun pv => negb (Str.startswith (fst pv) (Str.lower text)))
             callout_prefixes = true
       | Callout variant _ _ => In variant ["note"; "warning"; "tip"; "caution"]
       | _ => True
       end)
    (html_to_blocks soup).
Proof.
  apply Forall_forall. intros b Hb.
  apply (in_map body) in Hb. rewrite BlockMore.html_to_blocks_bodies in Hb.
  apply BlockMore.node_bodies_in in Hb as (el & _ & He).
  pose proof (@ParagraphFacts.element_body_callout el (body b) He) as H.
  destruct (body b); try exact I.
  - now destruct H as (_ & _ & H).
  - cbn [List.map callout_prefixes snd] in H. cbn [In] in *.
    destruct H as [H|[H|[H|[H|[H|[]]]]]]; auto.
Qed.

